(** * RFPAzure: the bucket filter and the RFP processor

    A shallow embedding of [utils/bucket_filters.py] (class [BucketFilters])
    and of [services/rfp_processor.py] (class [RFPProcessor]), with the
    properties of the matching pipeline proved over it.

    Modelling conventions.
    - Python [str] is an ASCII [string]; [re] runs over [list ascii]. The
      case mappings are those of ASCII, so a statement that rests on a law
      of [upper] or [lower] is made for ASCII text.
    - Python [float] is an exact rational [Q] (plus the two infinities and
      NaN where a string can denote them). The percentages of the summary
      are the one place where the digits printed depend on the rounding of
      binary64: there the division and the product are rounded.
    - A [dict] used as a record is a [Record]; a key that may be missing is
      an [option] field, read through the default that [.get] is given.
    - [Dict[int, List[str]]] feature maps are [gmap nat (list string)].
    - The external collaborators (stock master, Azure OpenAI) are section
      variables acting on an abstract world. *)

From Stdlib Require Import Ascii String QArith Qround Lqa Qpower.
From stdpp Require Import gmap strings list fin_maps sorting pretty.


(** ** ASCII helpers *)

Module Chars.

Definition code (c : ascii) : nat := nat_of_ascii c.

Definition is_digit (c : ascii) : bool := (48 <=? code c) && (code c <=? 57).
Definition is_upper (c : ascii) : bool := (65 <=? code c) && (code c <=? 90).
Definition is_lower (c : ascii) : bool := (97 <=? code c) && (code c <=? 122).

(** [str.isspace] on ASCII text, which is also [\s] of [re]: space, the
    controls [\t] [\n] [\v] [\f] [\r], and the separators 28 to 31. *)
Definition is_space (c : ascii) : bool :=
  (code c =? 32) || ((9 <=? code c) && (code c <=? 13))
  || ((28 <=? code c) && (code c <=? 31)).

(** [\w] of [re] on ASCII text: letters, digits and the underscore. *)
Definition is_word (c : ascii) : bool :=
  is_digit c || is_upper c || is_lower c || (code c =? 95).

Definition upper_char (c : ascii) : ascii :=
  if is_lower c then ascii_of_nat (code c - 32) else c.

Definition lower_char (c : ascii) : ascii :=
  if is_upper c then ascii_of_nat (code c + 32) else c.

(** The double quote, written by its code. *)
Definition dquote : ascii := ascii_of_nat 34.

Definition digit_val (c : ascii) : Z := Z.of_nat (code c - 48).

End Chars.

(** [str.upper()] and [str.lower()] on ASCII text: the letters a to z
    and A to Z change, every other character stays. *)
Definition upper (s : string) : string :=
  string_of_list_ascii (map Chars.upper_char (list_ascii_of_string s)).

Definition lower (s : string) : string :=
  string_of_list_ascii (map Chars.lower_char (list_ascii_of_string s)).

(** [str.isascii()]: every character has a code below 128. *)
Definition isascii (s : string) : bool :=
  forallb (fun c => Chars.code c <? 128) (list_ascii_of_string s).

(** The one-character string holding a double quote. *)
Definition dq : string := String Chars.dquote EmptyString.

(** ** A backtracking model of Python's [re] *)

Module Re.

(** The character classes the patterns of [bucket_definitions] use. *)
Inductive cclass : Type :=
| CLit (c : ascii)      (* a literal, compared under [re.IGNORECASE] *)
| CDigit                (* [\d] *)
| CSpace                (* [\s] *)
| CAny.                 (* [.] *)

Inductive regex : Type :=
| REps
| RFail
| RChr (cl : cclass)
| RSeq (a b : regex)
| RAlt (a b : regex)
| RStar (a : regex)
| RGroup (i : nat) (a : regex)
| RWordB.               (* [\b] *)

Definition RPlus (a : regex) : regex := RSeq a (RStar a).
Definition ROpt (a : regex) : regex := RAlt a REps.

Definition cclass_match (cl : cclass) (c : ascii) : bool :=
  match cl with
  | CLit l => bool_decide (Chars.upper_char l = Chars.upper_char c)
  | CDigit => Chars.is_digit c
  | CSpace => Chars.is_space c
  | CAny => negb (Chars.code c =? 10)
  end.

(** *** Parsing a pattern

    Recursive descent over the pattern text: alternation of sequences of
    postfixed atoms.  Groups are numbered by their opening parenthesis. *)

Definition parse_escape (c : ascii) : regex :=
  if bool_decide (c = "b"%char) then RWordB
  else if bool_decide (c = "d"%char) then RChr CDigit
  else if bool_decide (c = "s"%char) then RChr CSpace
  else RChr (CLit c).

Fixpoint parse_postfix (a : regex) (s : list ascii) : regex * list ascii :=
  match s with
  | c :: t =>
      if bool_decide (c = "*"%char) then parse_postfix (RStar a) t
      else if bool_decide (c = "+"%char) then parse_postfix (RPlus a) t
      else if bool_decide (c = "?"%char) then parse_postfix (ROpt a) t
      else (a, s)
  | [] => (a, s)
  end.

(** [parse_alt fuel g s] reads an alternation from [s], [g] groups having
    been opened so far; it stops in front of a closing parenthesis or at
    the end, and returns the expression, the group count and the rest. *)
Fixpoint parse_alt (fuel : nat) (g : nat) (s : list ascii)
  : option (regex * nat * list ascii) :=
  match fuel with
  | O => None
  | S fuel' =>
      let parse_atom (g : nat) (s : list ascii) : option (regex * nat * list ascii) :=
        match s with
        | [] => None
        | c :: t =>
            if bool_decide (c = "("%char) then
              match parse_alt fuel' (S g) t with
              | Some (a, g', c' :: t') =>
                  if bool_decide (c' = ")"%char) then Some (RGroup (S g) a, g', t') else None
              | _ => None
              end
            else if bool_decide (c = "\"%char) then
              match t with
              | e :: t' => Some (parse_escape e, g, t')
              | [] => None
              end
            else if bool_decide (c = "."%char) then Some (RChr CAny, g, t)
            else Some (RChr (CLit c), g, t)
        end in
      let fix parse_seq (n : nat) (g : nat) (s : list ascii)
        : option (regex * nat * list ascii) :=
        match n with
        | O => None
        | S n' =>
            match s with
            | [] => Some (REps, g, s)
            | c :: _ =>
                if bool_decide (c = "|"%char) || bool_decide (c = ")"%char)
                then Some (REps, g, s)
                else
                  match parse_atom g s with
                  | Some (a, g1, s1) =>
                      let '(a', s2) := parse_postfix a s1 in
                      match parse_seq n' g1 s2 with
                      | Some (REps, g2, s3) => Some (a', g2, s3)
                      | Some (b, g2, s3) => Some (RSeq a' b, g2, s3)
                      | None => None
                      end
                  | None => None
                  end
            end
        end in
      match parse_seq fuel' g s with
      | Some (a, g1, c :: t) =>
          if bool_decide (c = "|"%char) then
            match parse_alt fuel' g1 t with
            | Some (b, g2, s2) => Some (RAlt a b, g2, s2)
            | None => None
            end
          else Some (a, g1, c :: t)
      | r => r
      end
  end.

(** A compiled pattern: the expression and its number of groups. *)
Record pattern : Type := { pat_re : regex; pat_groups : nat }.

Definition compile (p : string) : option pattern :=
  let s := list_ascii_of_string p in
  match parse_alt (S (length s)) 0 s with
  | Some (a, g, []) => Some {| pat_re := a; pat_groups := g |}
  | _ => None
  end.

(** *** Matching *)

(** A position in the text: the character before it, the text from it on,
    and what the groups closed so far have captured. *)
Record mstate : Type := {
  prev : option ascii;
  rest : list ascii;
  caps : list (nat * list ascii)
}.

Definition advance (st : mstate) : mstate :=
  match rest st with
  | c :: t => {| prev := Some c; rest := t; caps := caps st |}
  | [] => st
  end.

Definition word_before (st : mstate) : bool :=
  match prev st with Some c => Chars.is_word c | None => false end.

Definition word_after (st : mstate) : bool :=
  match rest st with c :: _ => Chars.is_word c | [] => false end.

Definition at_boundary (st : mstate) : bool :=
  xorb (word_before st) (word_after st).

(** The text between two positions of one scan. *)
Definition between (st0 st1 : mstate) : list ascii :=
  take (length (rest st0) - length (rest st1)) (rest st0).

Definition set_cap (i : nat) (st0 st1 : mstate) : mstate :=
  {| prev := prev st1; rest := rest st1;
     caps := (i, between st0 st1) :: filter (fun p => negb (fst p =? i)) (caps st1) |}.

(** Backtracking in continuation-passing style: alternatives are tried in
    order and a starred expression takes as many rounds as lets the rest
    of the pattern match. A round of a star has to consume text, so a
    star does at most as many rounds as there are characters left. *)
Fixpoint rmatch (r : regex) (st : mstate) (k : mstate -> option mstate)
  {struct r} : option mstate :=
  match r with
  | REps => k st
  | RFail => None
  | RChr cl =>
      match rest st with
      | c :: _ => if cclass_match cl c then k (advance st) else None
      | [] => None
      end
  | RSeq a b => rmatch a st (fun st1 => rmatch b st1 k)
  | RAlt a b =>
      match rmatch a st k with
      | Some st' => Some st'
      | None => rmatch b st k
      end
  | RStar a =>
      (fix star (n : nat) (st : mstate) {struct n} : option mstate :=
         match n with
         | O => k st
         | S n' =>
             match rmatch a st (fun st1 =>
                     if length (rest st1) <? length (rest st)
                     then star n' st1 else None) with
             | Some st' => Some st'
             | None => k st
             end
         end) (length (rest st)) st
  | RGroup i a => rmatch a st (fun st1 => k (set_cap i st st1))
  | RWordB => if at_boundary st then k st else None
  end.

(** [pattern.match] at one position. *)
Definition match_at (r : regex) (st : mstate) : option mstate :=
  rmatch r {| prev := prev st; rest := rest st; caps := [] |} Some.

Definition cap_of (st : mstate) (i : nat) : string :=
  match List.find (fun p => fst p =? i) (caps st) with
  | Some (_, s) => string_of_list_ascii s
  | None => ""
  end.

(** What [re.findall] reports for one match: the whole match when the
    pattern has no group, else the groups in order (one string for one
    group, a tuple for several). *)
Definition report (p : pattern) (st0 st1 : mstate) : list string :=
  match pat_groups p with
  | O => [string_of_list_ascii (between st0 st1)]
  | g => map (cap_of st1) (seq 1 g)
  end.

(** The scan of [re.findall]: leftmost match, then on from its end. An
    empty match moves one character on. Every round leaves less text, so
    the length of the text plus one is fuel enough. *)
Fixpoint scan (fuel : nat) (p : pattern) (st : mstate) : list (list string) :=
  match fuel with
  | O => []
  | S fuel' =>
      match match_at (pat_re p) st with
      | Some st1 =>
          report p st st1 ::
            (if length (rest st1) <? length (rest st)
             then scan fuel' p st1
             else match rest st with
                  | [] => []
                  | _ :: _ => scan fuel' p (advance st1)
                  end)
      | None =>
          match rest st with
          | [] => []
          | _ :: _ => scan fuel' p (advance st)
          end
      end
  end.

Definition findall (p : pattern) (text : string) : list (list string) :=
  let s := list_ascii_of_string text in
  scan (S (length s)) p {| prev := None; rest := s; caps := [] |}.

End Re.

(** ** [utils/bucket_filters.py]: class [BucketFilters] *)

Inductive tier : Type := High | Medium | Low.

Module BucketDef.
Record t : Type := { name : string; priority : tier; patterns : list string }.
End BucketDef.

(** [self.bucket_definitions], in the order the dict literal lists them. *)
Definition bucket_definitions : list (nat * BucketDef.t) := [
  (1, {| BucketDef.name := "Class Rating"; BucketDef.priority := High;
         BucketDef.patterns := [
           "\b(150|300|600|900|1500|2500|5000|3000|6000|9000)#?\b";
           "\b(150|300|600|900|1500|2500|5000|3000|6000|9000)\s*LB\b";
           "\bCLASS\s*(150|300|600|900|1500|2500|5000|3000|6000|9000)\b" ] |});
  (2, {| BucketDef.name := "Item Group"; BucketDef.priority := High;
         BucketDef.patterns := [
           "\b(PIPE|ELBOW|CAP|FLANGE|FLG|TEE|REDUCER|REDG|RED|BEND|SWAGE|COUPLING|CLPG|BOSS|UNION|NIPPLE|PLUG|CROSS|INSERT|PIPET|WELDOLET|SOCKOLET|ELBOLET|THREADOLET)\b" ] |});
  (3, {| BucketDef.name := "Flange Type/Facing"; BucketDef.priority := High;
         BucketDef.patterns := [
           "\b(RF|RAISED\s*FACE|FF|FLAT\s*FACE|WN|WNRF|WN\s*RF|WNFF|WN\s*FF|WELDNECK|WELD\s*NECK|BLIND|BL|BLRF|BL\s*RF|BLFF|BF\s*FF|SO|SORF|SO\s*RF|SOFF|SO\s*FF|SLIP\s*ON|SLIPON|SLIP-ON|LJ|LJRF|LJ\s*RF|LJFF|LJ\s*FF|LAP\s*JOINT|LAPJOINT|LAP-JOINT)\b" ] |});
  (4, {| BucketDef.name := "Item Ends/Finish"; BucketDef.priority := High;
         BucketDef.patterns := [
           "\b(NPT|THREADED|TH|SCRD|SCREWED|SW|SOCKET\s*WELD|SOCKETWELD|BW|BUTTWELD|SMLS|SEAMLESS|WELDED|WE)\b" ] |});
  (5, {| BucketDef.name := "Elbow Type"; BucketDef.priority := High;
         BucketDef.patterns := [
           "\b(LR|LONG\s*RADIUS|SR|SHORT\s*RADIUS|90LR|90SR|90|90DEG|90D|90\s*DEG|90\s*DEGREE|45LR|45SR|45|45DEG|45D|45\s*DEG|45\s*DEGREE|180LR|180SR|180|180DEG|180D|180\s*DEG|180\s*DEGREE)\b" ] |});
  (6, {| BucketDef.name := "Item Type"; BucketDef.priority := High;
         BucketDef.patterns := [
           "\b(EQ|EQUAL|ECC|ECCENTRIC|CON|CONC|CONCENTRIC|RED|REDUCING|REDG|FULL|HALF|HEX|BULL|ROUND)\b" ] |});
  (7, {| BucketDef.name := "Material"; BucketDef.priority := Medium;
         BucketDef.patterns := [
           "\b(CS|CARBON\s*STEEL|CARBONSTEEL|SS|STAINLESS\s*STEEL|STAINLESSSTEEL|X52|X42|A53|SA/A106-B|A106-B|A106B|A106GRB|A106\s*GRB|SA/A333\s*GR\.6|A333GR6|A333\s*GR6|304|SS304|SS304/L|SS304L|316|SS316|SS316/L|SS316L|TP304/L|TP304|TP304L|TP316|TP316/L|TP316L|SA/A234\s*WPB|234WPB|A234WPB|A234|234|SA/A105N|A105|A105N|105|F304/304L|304/304L|F304/L|F304L|304L|F316/316L|316/316L|F316/L|F316L|316L|304/L|316/L|WP304/L|WP304/304L|F304/L|F304L|WP316/L|WP316/316L|F316/L|F316L)\b" ] |});
  (8, {| BucketDef.name := "Thickness"; BucketDef.priority := Medium;
         BucketDef.patterns := [
           "\b(S10|S20|S30|S40|S60|S80|S100|S120|S140|S160|SSTD|SXS|SXXS|SCH\s*10|SCH\s*20|SCH\s*30|SCH\s*40|SCH\s*60|SCH\s*80|SCH\s*100|SCH\s*120|SCH\s*140|SCH\s*160|SCH\s*STD|SCH\s*XS|SCH\s*XXS|SCH10|SCH20|SCH30|SCH40|SCH60|SCH80|SCH100|SCH120|SCH140|SCH160|SCHSTD|SCHXS|SCHXXS|STD|XS|XXS)\b";
           "\b\d+\.?\d*\s*MM\b";
           "\b\d+\.?\d*\s*INCH\b" ] |});
  (9, {| BucketDef.name := "Size 1"; BucketDef.priority := Low;
         BucketDef.patterns := [
           "\b(1/8|1/4|1/2|3/4|1|1\.1/4|1\.1/2|2|2\.1/2|3|3\.1/2|4|5|6|7|8|10|12|14|16|18|20|22|24|26|28|30|32|34|36|38|40|42|44)" +:+ dq +:+ "\b";
           "\bDN\s*(\d+)\b";
           "\bNB\s*(\d+\.?\d*)\b" ] |});
  (10, {| BucketDef.name := "Size 2"; BucketDef.priority := Low;
          BucketDef.patterns := [
           "X\s*(1/8|1/4|1/2|3/4|1|1\.1/4|1\.1/2|2|2\.1/2|3|3\.1/2|4|5|6|7|8|10|12|14|16|18|20|22|24|26|28|30|32|34|36|38|40|42|44)" +:+ dq +:+ "\b";
           "TO\s*(1/8|1/4|1/2|3/4|1|1\.1/4|1\.1/2|2|2\.1/2|3|3\.1/2|4|5|6|7|8|10|12|14|16|18|20|22|24|26|28|30|32|34|36|38|40|42|44)" +:+ dq +:+ "\b" ] |});
  (11, {| BucketDef.name := "Misc"; BucketDef.priority := Low;
          BucketDef.patterns := [
           "\b(API|PSL1|PSL2|PSL3|TYPE\s*A|TYPE\s*B|TYPE\s*C)\b" ] |})
].

(** [self.bucket_definitions[bucket_num]]. *)
Definition bucket_def_of (bucket_num : nat) : option BucketDef.t :=
  snd <$> List.find (fun p => fst p =? bucket_num) bucket_definitions.

(** What [re.findall(pattern, text, re.IGNORECASE)] returns: strings for a
    pattern with at most one group, tuples for one with several. *)
Inductive found : Type :=
| Strs (l : list string)
| Tuples (l : list (list string)).

Definition re_findall (pattern text : string) : found :=
  match Re.compile pattern with
  | Some p =>
      let ms := Re.findall p text in
      if 2 <=? Re.pat_groups p then Tuples ms else Strs (concat ms)
  | None => Strs []
  end.

Abbreviation features := (gmap nat (list string)).

(** [list(set(matches))]. *)
Definition dedup_set (matches : list string) : list string :=
  elements (list_to_set matches : gset string).

Definition bucket_matches (text_upper : string) (bucket_def : BucketDef.t) : list string :=
  foldl (fun matches pattern =>
           match re_findall pattern text_upper with
           | Strs found_matches => matches ++ found_matches
           | Tuples found_matches =>
               matches ++ filter (fun m => m ≠ "") (concat found_matches)
           end) [] (BucketDef.patterns bucket_def).

Definition extract_bucket_features (text : string) : features :=
  let text_upper := upper text in
  foldl (fun (feats : features) '(bucket_num, bucket_def) =>
           let matches := bucket_matches text_upper bucket_def in
           match matches with
           | [] => feats
           | _ :: _ => <[bucket_num := dedup_set matches]> feats
           end) ∅ bucket_definitions.

(** *** Scoring *)

Definition bucket_weights (p : tier) : Q :=
  match p with High => 10 | Medium => 5 | Low => 2 end%Q.

Definition Qlt_bool (a b : Q) : bool := negb (Qle_bool b a).

Definition Qnat (n : nat) : Q := inject_Z (Z.of_nat n).

(** [range(1, 12)]. *)
Definition bucket_range : list nat := seq 1 11.

Definition to_set (l : list string) : gset string := list_to_set l.

(** One round of the loop of [_calculate_match_score]. *)
Definition score_step (rfp_features stock_features : features)
    (total_score : Q) (bucket_num : nat) : Q :=
  match rfp_features !! bucket_num, stock_features !! bucket_num with
  | Some rfp_list, Some stock_list =>
      match bucket_def_of bucket_num with
      | Some bucket_def =>
          let weight := bucket_weights (BucketDef.priority bucket_def) in
          let rfp_set := to_set rfp_list in
          let stock_set := to_set stock_list in
          let overlap := size (rfp_set ∩ stock_set) in
          if 0 <? overlap then
            let overlap_ratio :=
              (Qnat overlap / Qnat (size rfp_set `max` size stock_set))%Q in
            (total_score + weight * overlap_ratio)%Q
          else total_score
      | None => total_score
      end
  | _, _ => total_score
  end.

Definition _calculate_match_score (rfp_features stock_features : features) : Q :=
  foldl (score_step rfp_features stock_features) 0%Q bucket_range.

Module MatchedBucket.
Record t : Type := {
  bucket_number : nat;
  bucket_name : string;
  priority : tier;
  matched_features : list string;
  rfp_features : list string;
  stock_features : list string
}.
End MatchedBucket.

Definition _get_matched_buckets (rfp_features stock_features : features)
  : list MatchedBucket.t :=
  foldl (fun matched_buckets bucket_num =>
           match rfp_features !! bucket_num, stock_features !! bucket_num with
           | Some rfp_list, Some stock_list =>
               match bucket_def_of bucket_num with
               | Some bucket_def =>
                   let rfp_set := to_set rfp_list in
                   let stock_set := to_set stock_list in
                   let overlap := rfp_set ∩ stock_set in
                   if bool_decide (overlap ≠ ∅) then
                     matched_buckets ++ [
                       {| MatchedBucket.bucket_number := bucket_num;
                          MatchedBucket.bucket_name := BucketDef.name bucket_def;
                          MatchedBucket.priority := BucketDef.priority bucket_def;
                          MatchedBucket.matched_features := elements overlap;
                          MatchedBucket.rfp_features := elements rfp_set;
                          MatchedBucket.stock_features := elements stock_set |} ]
                   else matched_buckets
               | None => matched_buckets
               end
           | _, _ => matched_buckets
           end) [] bucket_range.

(** *** Python values met in the records *)

(** A [float]: a rational, an infinity or NaN. *)
Inductive pyfloat : Type := Fin (q : Q) | PosInf | NegInf | NaN.

Inductive pyval : Type :=
| PyNone
| PyBool (b : bool)
| PyNum (x : pyfloat)
| PyStr (s : string).

Inductive exn : Type :=
| ValueError (msg : string)
| TypeError (msg : string)
| OtherError (msg : string).

(** [str(e)]. *)
Definition exn_str (e : exn) : string :=
  match e with ValueError m | TypeError m | OtherError m => m end.

Module PyFloat.

Definition lt (a b : pyfloat) : bool :=
  match a, b with
  | NaN, _ | _, NaN => false
  | Fin x, Fin y => Qlt_bool x y
  | NegInf, NegInf => false
  | NegInf, _ => true
  | PosInf, _ => false
  | Fin _, PosInf => true
  | Fin _, NegInf => false
  end.

Definition le (a b : pyfloat) : bool :=
  match a, b with
  | NaN, _ | _, NaN => false
  | Fin x, Fin y => Qle_bool x y
  | NegInf, _ => true
  | _, PosInf => true
  | PosInf, _ => false
  | Fin _, NegInf => false
  end.

Definition ge (a b : pyfloat) : bool := le b a.

Definition of_Z (z : Z) : pyfloat := Fin (inject_Z z).

(** *** [float(str)]

    The literal grammar of the language reference: surrounding blanks,
    a sign, then [inf], [infinity], [nan] or a decimal number with an
    optional exponent; digits may be separated by single underscores. *)

Fixpoint read_digits_loop (acc : Z) (n : nat) (s : list ascii)
  : Z * nat * list ascii :=
  match s with
  | c :: t =>
      if Chars.is_digit c
      then read_digits_loop (acc * 10 + Chars.digit_val c) (S n) t
      else if bool_decide (c = "_"%char) then
        match t with
        | d :: t' =>
            if Chars.is_digit d
            then read_digits_loop (acc * 10 + Chars.digit_val d) (S n) t'
            else (acc, n, s)
        | [] => (acc, n, s)
        end
      else (acc, n, s)
  | [] => (acc, n, s)
  end.

(** A digit part: its value, its number of digits, the text after it. *)
Definition read_digits (s : list ascii) : option (Z * nat * list ascii) :=
  match s with
  | c :: t =>
      if Chars.is_digit c then Some (read_digits_loop (Chars.digit_val c) 1 t)
      else None
  | [] => None
  end.

Definition read_sign (s : list ascii) : bool * list ascii :=
  match s with
  | c :: t =>
      if bool_decide (c = "-"%char) then (true, t)
      else if bool_decide (c = "+"%char) then (false, t)
      else (false, s)
  | [] => (false, s)
  end.

(** The mantissa: [digits], [digits.], [digits.digits] or [.digits]. *)
Definition read_number (s : list ascii) : option (Q * list ascii) :=
  match read_digits s with
  | Some (i, _, r) =>
      match r with
      | c :: r' =>
          if bool_decide (c = "."%char) then
            match read_digits r' with
            | Some (f, nf, r'') =>
                Some ((inject_Z i + inject_Z f / inject_Z (10 ^ Z.of_nat nf))%Q, r'')
            | None => Some (inject_Z i, r')
            end
          else Some (inject_Z i, r)
      | [] => Some (inject_Z i, r)
      end
  | None =>
      match s with
      | c :: r' =>
          if bool_decide (c = "."%char) then
            match read_digits r' with
            | Some (f, nf, r'') =>
                Some ((inject_Z f / inject_Z (10 ^ Z.of_nat nf))%Q, r'')
            | None => None
            end
          else None
      | [] => None
      end
  end.

Definition scale (m : Q) (neg_exp : bool) (e : Z) : Q :=
  if neg_exp then (m / inject_Z (10 ^ e))%Q else (m * inject_Z (10 ^ e))%Q.

(** The number with its exponent; all the text has to be used up. *)
Definition read_float (s : list ascii) : option Q :=
  match read_number s with
  | Some (m, []) => Some m
  | Some (m, c :: r) =>
      if bool_decide (Chars.lower_char c = "e"%char) then
        let '(neg_exp, r1) := read_sign r in
        match read_digits r1 with
        | Some (e, _, []) => Some (scale m neg_exp e)
        | _ => None
        end
      else None
  | None => None
  end.

(** The blanks [float] and [int] skip around an ASCII literal: the space
    and the controls [\t] [\n] [\v] [\f] [\r], not the separators 28 to
    31 that [str.strip] also drops. *)
Definition is_blank (c : ascii) : bool :=
  (Chars.code c =? 32) || ((9 <=? Chars.code c) && (Chars.code c <=? 13)).

Definition strip (s : list ascii) : list ascii :=
  let lstrip := fix lstrip (s : list ascii) : list ascii :=
    match s with
    | c :: t => if is_blank c then lstrip t else s
    | [] => []
    end in
  rev (lstrip (rev (lstrip s))).

Definition negate (neg : bool) (x : pyfloat) : pyfloat :=
  if neg then
    match x with
    | Fin q => Fin (- q)
    | PosInf => NegInf
    | NegInf => PosInf
    | NaN => NaN
    end
  else x.

Definition of_string (s : string) : option pyfloat :=
  let '(neg, body) := read_sign (strip (list_ascii_of_string s)) in
  let word := string_of_list_ascii (map Chars.lower_char body) in
  if bool_decide (word = "inf") || bool_decide (word = "infinity")
  then Some (negate neg PosInf)
  else if bool_decide (word = "nan") then Some NaN
  else negate neg <$> (Fin <$> read_float body).

End PyFloat.

(** Truth value of a Python value ([if x:]). *)
Definition py_truthy (v : pyval) : bool :=
  match v with
  | PyNone => false
  | PyBool b => b
  | PyNum (Fin q) => negb (Qeq_bool q 0)
  | PyNum _ => true
  | PyStr s => negb (bool_decide (s = ""))
  end.

Definition float_eq (a b : pyfloat) : bool :=
  match a, b with
  | Fin x, Fin y => Qeq_bool x y
  | PosInf, PosInf | NegInf, NegInf => true
  | _, _ => false
  end.

Definition bool_float (b : bool) : pyfloat := Fin (if b then 1 else 0).

(** [a == b]. *)
Definition py_eq (a b : pyval) : bool :=
  match a, b with
  | PyNone, PyNone => true
  | PyStr s, PyStr t => bool_decide (s = t)
  | PyBool x, PyBool y => bool_decide (x = y)
  | PyNum x, PyNum y => float_eq x y
  | PyBool x, PyNum y | PyNum y, PyBool x => float_eq (bool_float x) y
  | _, _ => false
  end.

(** What [d.get(key)] gives for a text field: the string, or [None]. *)
Definition get_val (o : option string) : pyval :=
  match o with Some s => PyStr s | None => PyNone end.

(** *** Catalog entries and scored candidates *)

(** A stock master entry, as [StockMasterService] builds them. [None] is
    a missing key. Keys the matching core never reads are left out. *)
Module StockItem.
Record t : Type := {
  product_code : option string;
  description : option string;
  material : option string;
  size : option string;
  specification : option string;
  on_hand_quantity : option pyval
}.
End StockItem.

(** A stock entry with its score: [{**stock_item, 'match_score': ..,
    'matched_buckets': ..}]. *)
Module Candidate.
Record t : Type := {
  item : StockItem.t;
  match_score : Q;
  matched_buckets : list MatchedBucket.t
}.
End Candidate.

(** [str(d.get(key, ''))] on a text field. *)
Definition get_str (o : option string) : string := default "" o.

(** [' '.join([...])]. *)
Fixpoint join (sep : string) (l : list string) : string :=
  match l with
  | [] => ""
  | [x] => x
  | x :: t => x +:+ sep +:+ join sep t
  end.

Definition stock_text (stock_item : StockItem.t) : string :=
  join " " [ get_str (StockItem.product_code stock_item);
             get_str (StockItem.description stock_item);
             get_str (StockItem.material stock_item);
             get_str (StockItem.size stock_item);
             get_str (StockItem.specification stock_item) ].

(** The score the loop of [filter_stock_by_buckets] gives one entry. *)
Definition item_score (rfp_features : features) (stock_item : StockItem.t) : Q :=
  _calculate_match_score rfp_features (extract_bucket_features (stock_text stock_item)).

(** [list.sort(key=lambda x: x['match_score'], reverse=True)]: a stable
    sort, highest score first. *)
Fixpoint insert_desc (x : Candidate.t) (l : list Candidate.t) : list Candidate.t :=
  match l with
  | [] => [x]
  | y :: t =>
      if Qlt_bool (Candidate.match_score x) (Candidate.match_score y)
      then y :: insert_desc x t
      else x :: y :: t
  end.

Definition sort_desc (l : list Candidate.t) : list Candidate.t :=
  foldr insert_desc [] l.

(** [l[:n]] for an [int] [n]: a negative [n] counts from the end. *)
Definition slice_to {A} (l : list A) (n : Z) : list A :=
  if (0 <=? n)%Z then take (Z.to_nat n) l
  else take (length l - Z.to_nat (- n)) l.

(** One round of the loop of [filter_stock_by_buckets]. *)
Definition score_items_step (rfp_features : features)
    (scored_items : list Candidate.t) (stock_item : StockItem.t) : list Candidate.t :=
  let stock_features := extract_bucket_features (stock_text stock_item) in
  let score := _calculate_match_score rfp_features stock_features in
  if Qlt_bool 0%Q score then
    scored_items ++ [
      {| Candidate.item := stock_item;
         Candidate.match_score := score;
         Candidate.matched_buckets :=
           _get_matched_buckets rfp_features stock_features |} ]
  else scored_items.

Definition score_items (rfp_features : features) (stock_data : list StockItem.t)
  : list Candidate.t :=
  foldl (score_items_step rfp_features) [] stock_data.

Definition filter_stock_by_buckets (rfp_features : features)
    (stock_data : list StockItem.t) (max_results : Z) : list Candidate.t :=
  slice_to (sort_desc (score_items rfp_features stock_data)) max_results.

(** ** [services/rfp_processor.py]: class [RFPProcessor] *)

Inductive status : Type := Matched | Unmatched | Unavailable | Error.

Inductive confidence : Type := ConfHigh | ConfMedium | ConfLow | ConfVeryLow.

#[global] Instance status_eq_dec : EqDecision status.
Proof. solve_decision. Defined.

#[global] Instance confidence_eq_dec : EqDecision confidence.
Proof. solve_decision. Defined.

(** The judgment of the semantic matcher ([ai_result]); [None] is a
    missing key. *)
Module Judgment.
Record t : Type := {
  matched_product_code : option pyval;
  matched_description : option pyval;
  match_score : option pyval;
  match_reason : option pyval
}.
End Judgment.

Module Alternative.
Record t : Type := {
  product_code : string;
  description : string;
  bucket_score : Q
}.
End Alternative.

(** A per-item result. The keys that only some of the code paths set are
    [option] fields. *)
Module Result.
Record t : Type := {
  status : status;
  matched_product_code : pyval;
  matched_description : pyval;
  match_score : pyfloat;
  match_reason : pyval;
  on_hand_quantity : option pyfloat;
  bucket_features : option features;
  filtered_candidates : option nat;
  confidence_level : option confidence;
  matched_stock_details : option (option Candidate.t);
  alternative_matches : option (list Alternative.t);
  line_number : option nat;
  original_rfp_item : option string;
  error_message : option string
}.
End Result.

Definition high_confidence_threshold : pyfloat := PyFloat.of_Z 80.
Definition medium_confidence_threshold : pyfloat := PyFloat.of_Z 60.
Definition low_confidence_threshold : pyfloat := PyFloat.of_Z 40.

Section RFPProcessor.

(** The state of the outside world and the two collaborators, and the
    text of the message [float] raises with. *)
Variable World : Type.
Variable get_stock_data : World -> list StockItem.t.
Variable match_rfp_item :
  World -> string -> list Candidate.t -> World * (exn + Judgment.t).
Variable float_error_text : pyval -> string.

(** [float(v)]. *)
Definition py_float (v : pyval) : exn + pyfloat :=
  match v with
  | PyNone => inl (TypeError (float_error_text v))
  | PyBool b => inr (bool_float b)
  | PyNum x => inr x
  | PyStr s =>
      match PyFloat.of_string s with
      | Some x => inr x
      | None => inl (ValueError (float_error_text v))
      end
  end.

(** [float(qty_str) if qty_str else 0] under [except (ValueError,
    TypeError)]: [None] when the conversion raises. *)
Definition quantity_of (stock_item : Candidate.t) : option pyfloat :=
  let qty_str := default (PyStr "0") (StockItem.on_hand_quantity (Candidate.item stock_item)) in
  if py_truthy qty_str then
    match py_float qty_str with
    | inr x => Some x
    | inl _ => None
    end
  else Some (PyFloat.of_Z 0).

Definition _determine_match_status (match_score : pyfloat)
    (stock_item : option Candidate.t) : status :=
  if PyFloat.lt match_score low_confidence_threshold then Unmatched
  else
    match stock_item with
    | None => Unmatched
    | Some stock_item =>
        match quantity_of stock_item with
        | Some quantity =>
            if PyFloat.le quantity (PyFloat.of_Z 0) then Unavailable else Matched
        | None => Matched
        end
    end.

Definition _get_confidence_level (match_score : pyfloat) : confidence :=
  if PyFloat.ge match_score high_confidence_threshold then ConfHigh
  else if PyFloat.ge match_score medium_confidence_threshold then ConfMedium
  else if PyFloat.ge match_score low_confidence_threshold then ConfLow
  else ConfVeryLow.

(** [item.get('product_code') == product_code]. *)
Definition code_is (product_code : pyval) (item : Candidate.t) : bool :=
  py_eq (get_val (StockItem.product_code (Candidate.item item))) product_code.

Definition find_matched (product_code : pyval) (filtered_stock : list Candidate.t)
  : option Candidate.t :=
  if py_truthy product_code
  then List.find (code_is product_code) filtered_stock
  else None.

Definition alternative_of (item : Candidate.t) : Alternative.t :=
  {| Alternative.product_code := get_str (StockItem.product_code (Candidate.item item));
     Alternative.description := get_str (StockItem.description (Candidate.item item));
     Alternative.bucket_score := Candidate.match_score item |}.

Definition alternatives (product_code : pyval) (filtered_stock : list Candidate.t)
  : list Alternative.t :=
  alternative_of <$>
    filter (fun item => code_is product_code item = false) (take 3 filtered_stock).

Definition _enhance_ai_result (ai_result : Judgment.t)
    (filtered_stock : list Candidate.t) (rfp_features : features) : Result.t :=
  match py_float (default (PyNum (PyFloat.of_Z 0)) (Judgment.match_score ai_result)) with
  | inr match_score =>
      let product_code :=
        default (PyStr "") (Judgment.matched_product_code ai_result) in
      let matched_stock_item := find_matched product_code filtered_stock in
      let status := _determine_match_status match_score matched_stock_item in
      let on_hand_quantity :=
        match matched_stock_item with
        | Some item => default (PyFloat.of_Z 0) (quantity_of item)
        | None => PyFloat.of_Z 0
        end in
      {| Result.status := status;
         Result.matched_product_code := product_code;
         Result.matched_description :=
           default (PyStr "") (Judgment.matched_description ai_result);
         Result.match_score := match_score;
         Result.match_reason := default (PyStr "") (Judgment.match_reason ai_result);
         Result.on_hand_quantity := Some on_hand_quantity;
         Result.bucket_features := Some rfp_features;
         Result.filtered_candidates := Some (length filtered_stock);
         Result.confidence_level := Some (_get_confidence_level match_score);
         Result.matched_stock_details := Some matched_stock_item;
         Result.alternative_matches := Some (alternatives product_code filtered_stock);
         Result.line_number := None;
         Result.original_rfp_item := None;
         Result.error_message := None |}
  | inl e =>
      {| Result.status := Error;
         Result.matched_product_code := PyStr "";
         Result.matched_description := PyStr "";
         Result.match_score := PyFloat.of_Z 0;
         Result.match_reason := PyStr ("Error processing AI result: " +:+ exn_str e);
         Result.on_hand_quantity := Some (PyFloat.of_Z 0);
         Result.bucket_features := Some rfp_features;
         Result.filtered_candidates := Some (length filtered_stock);
         Result.confidence_level := None;
         Result.matched_stock_details := None;
         Result.alternative_matches := None;
         Result.line_number := None;
         Result.original_rfp_item := None;
         Result.error_message := None |}
  end.

Definition no_candidates_result (rfp_features : features) : Result.t :=
  {| Result.status := Unmatched;
     Result.matched_product_code := PyStr "";
     Result.matched_description := PyStr "";
     Result.match_score := PyFloat.of_Z 0;
     Result.match_reason :=
       PyStr "No matching products found in stock master using bucket filtering";
     Result.on_hand_quantity := Some (PyFloat.of_Z 0);
     Result.bucket_features := Some rfp_features;
     Result.filtered_candidates := Some 0;
     Result.confidence_level := None;
     Result.matched_stock_details := None;
     Result.alternative_matches := None;
     Result.line_number := None;
     Result.original_rfp_item := None;
     Result.error_message := None |}.

Definition process_single_rfp_item (w : World) (rfp_item : string)
  : World * (exn + Result.t) :=
  let rfp_features := extract_bucket_features rfp_item in
  let stock_data := get_stock_data w in
  let filtered_stock := filter_stock_by_buckets rfp_features stock_data 20 in
  match filtered_stock with
  | [] => (w, inr (no_candidates_result rfp_features))
  | _ :: _ =>
      match match_rfp_item w rfp_item filtered_stock with
      | (w', inr ai_result) =>
          (w', inr (_enhance_ai_result ai_result filtered_stock rfp_features))
      | (w', inl e) => (w', inl e)
      end
  end.

(** The [dict] of the [except] branch of [process_rfp_items]. *)
Definition error_result (line : nat) (rfp_item : string) (e : exn) : Result.t :=
  {| Result.status := Error;
     Result.matched_product_code := PyStr "";
     Result.matched_description := PyStr "";
     Result.match_score := PyFloat.of_Z 0;
     Result.match_reason := PyStr ("Processing error: " +:+ exn_str e);
     Result.on_hand_quantity := None;
     Result.bucket_features := None;
     Result.filtered_candidates := None;
     Result.confidence_level := None;
     Result.matched_stock_details := None;
     Result.alternative_matches := None;
     Result.line_number := Some line;
     Result.original_rfp_item := Some rfp_item;
     Result.error_message := Some (exn_str e) |}.

(** [result['line_number'] = ..; result['original_rfp_item'] = ..]. *)
Definition with_line (line : nat) (rfp_item : string) (r : Result.t) : Result.t :=
  {| Result.status := Result.status r;
     Result.matched_product_code := Result.matched_product_code r;
     Result.matched_description := Result.matched_description r;
     Result.match_score := Result.match_score r;
     Result.match_reason := Result.match_reason r;
     Result.on_hand_quantity := Result.on_hand_quantity r;
     Result.bucket_features := Result.bucket_features r;
     Result.filtered_candidates := Result.filtered_candidates r;
     Result.confidence_level := Result.confidence_level r;
     Result.matched_stock_details := Result.matched_stock_details r;
     Result.alternative_matches := Result.alternative_matches r;
     Result.line_number := Some line;
     Result.original_rfp_item := Some rfp_item;
     Result.error_message := Result.error_message r |}.

(** The body of the loop of [process_rfp_items], for the item at index
    [i] of the enumeration. *)
Definition process_one (w : World) (i : nat) (rfp_item : string)
  : World * Result.t :=
  match process_single_rfp_item w rfp_item with
  | (w', inr result) => (w', with_line (i + 1) rfp_item result)
  | (w', inl e) => (w', error_result (i + 1) rfp_item e)
  end.

Fixpoint process_loop (w : World) (i : nat) (rfp_items : list string)
    (results : list Result.t) : World * list Result.t :=
  match rfp_items with
  | [] => (w, results)
  | rfp_item :: rest =>
      let '(w', result) := process_one w i rfp_item in
      process_loop w' (S i) rest (results ++ [result])
  end.

Definition process_rfp_items (w : World) (rfp_items : list string)
  : World * list Result.t :=
  process_loop w 0 rfp_items [].

End RFPProcessor.

(** *** The summary sheet *)

(** Rounding to the nearest integer, ties to even. *)
Definition round_half_even (x : Q) : Z :=
  let f := Qfloor x in
  let d := (x - inject_Z f)%Q in
  if Qlt_bool d (1 # 2) then f
  else if Qlt_bool (1 # 2) d then (f + 1)%Z
  else if Z.even f then f else (f + 1)%Z.

(** A number of tenths written with one decimal. *)
Definition tenths_text (t : Z) : string :=
  pretty (t `div` 10)%Z +:+ "." +:+ pretty (t `mod` 10)%Z.

(** [f'{x:.1f}'] for [x >= 0]: the decimal nearest to the value the float
    has, ties to even. *)
Definition format_1f (x : Q) : string := tenths_text (round_half_even (x * 10)).

(** The binary exponent of a positive rational: the [e] with
    [2 ^ e <= q < 2 ^ (e + 1)]. *)
Definition Qlog2 (q : Q) : Z :=
  let d := (Z.log2 (Qnum q) - Z.log2 (Z.pos (Qden q)))%Z in
  if Qle_bool (2 ^ d) q then d else (d - 1)%Z.

(** The binary64 number nearest to a rational that is not negative, ties
    to the even significand: 53 significant bits, the exponent of the last
    bit not below -1074. The numbers rounded here stay below 128, far from
    the overflow threshold. *)
Definition binary64 (q : Q) : Q :=
  if Qle_bool q 0 then 0%Q
  else
    let k := Z.max (Qlog2 q - 52) (-1074) in
    (inject_Z (round_half_even (q / 2 ^ k)) * 2 ^ k)%Q.

(** [count/total_items*100] as the floats compute it: the quotient of the
    two integers rounded, then its product with 100 rounded. *)
Definition percent_value (count total_items : nat) : Q :=
  binary64 (binary64 (Qnat count / Qnat total_items) * 100).

Definition percentage (count total_items : nat) : string :=
  if 0 <? total_items
  then format_1f (percent_value count total_items) +:+ "%"
  else "0.0%".

Module SummaryRow.
Record t : Type := { Metric : string; Count : nat; Percentage : string }.
End SummaryRow.

(** An item of [bom_data] as [_generate_bom_summary] reads it: what stands
    under the two keys it looks up, [None] for a missing key. The items
    come from the body of a request, so any value can stand there; a list
    or an object, which equals no text, is read like [None]. *)
Module BomItem.
Record t : Type := {
  status : option pyval;
  confidence_level : option pyval
}.
End BomItem.

(** [item.get(key) == text]. *)
Definition key_is (text : string) (value : option pyval) : bool :=
  py_eq (default PyNone value) (PyStr text).

(** [len([item for item in bom_data if item.get('status') == text])]. *)
Definition count_status_key (text : string) (bom_data : list BomItem.t) : nat :=
  length (filter (fun item => key_is text (BomItem.status item) = true) bom_data).

Definition count_confidence_key (text : string) (bom_data : list BomItem.t) : nat :=
  length (filter (fun item => key_is text (BomItem.confidence_level item) = true)
            bom_data).

Definition _generate_bom_summary (bom_data : list BomItem.t) : list SummaryRow.t :=
  let total_items := length bom_data in
  let matched := count_status_key "matched" bom_data in
  let unmatched := count_status_key "unmatched" bom_data in
  let unavailable := count_status_key "unavailable" bom_data in
  let errors := count_status_key "error" bom_data in
  let high_conf := count_confidence_key "high" bom_data in
  let medium_conf := count_confidence_key "medium" bom_data in
  let low_conf := count_confidence_key "low" bom_data in
  let row m c p := {| SummaryRow.Metric := m; SummaryRow.Count := c; SummaryRow.Percentage := p |} in
  [ row "Total Items" total_items "100.0%";
    row "Matched Items" matched (percentage matched total_items);
    row "Unmatched Items" unmatched (percentage unmatched total_items);
    row "Unavailable Items" unavailable (percentage unavailable total_items);
    row "Processing Errors" errors (percentage errors total_items);
    row "High Confidence Matches" high_conf (percentage high_conf total_items);
    row "Medium Confidence Matches" medium_conf (percentage medium_conf total_items);
    row "Low Confidence Matches" low_conf (percentage low_conf total_items) ].

(** The texts of the statuses and of the confidence levels. *)
Definition status_name (s : status) : string :=
  match s with
  | Matched => "matched"
  | Unmatched => "unmatched"
  | Unavailable => "unavailable"
  | Error => "error"
  end.

Definition confidence_name (c : confidence) : string :=
  match c with
  | ConfHigh => "high"
  | ConfMedium => "medium"
  | ConfLow => "low"
  | ConfVeryLow => "very_low"
  end.

(** A result of the batch as an item of [bom_data]: its status is always
    there, its confidence level when the result has one. *)
Definition bom_item (r : Result.t) : BomItem.t :=
  {| BomItem.status := Some (PyStr (status_name (Result.status r)));
     BomItem.confidence_level :=
       (fun c => PyStr (confidence_name c)) <$> Result.confidence_level r |}.

(** The results of a status, of a confidence level. *)
Definition count_status (s : status) (bom_data : list Result.t) : nat :=
  length (filter (fun item => Result.status item = s) bom_data).

Definition count_confidence (c : confidence) (bom_data : list Result.t) : nat :=
  length (filter (fun item => Result.confidence_level item = Some c) bom_data).

(** ** The score as the specification words it *)

(** The token set a feature map holds for a bucket; empty when the bucket
    is absent. *)
Definition bucket_set (f : features) (b : nat) : gset string :=
  to_set (default [] (f !! b)).

(** The weight by bucket id: 10 for buckets 1-6, 5 for 7-8, 2 for 9-11. *)
Definition spec_weight (b : nat) : Q :=
  if (1 <=? b) && (b <=? 6) then 10%Q
  else if (7 <=? b) && (b <=? 8) then 5%Q
  else 2%Q.

(** A bucket counts when both maps have it and the token sets meet. *)
Definition spec_counts (q e : features) (b : nat) : bool :=
  bool_decide (is_Some (q !! b)) && bool_decide (is_Some (e !! b))
  && bool_decide (bucket_set q b ∩ bucket_set e b ≠ ∅).

Definition spec_term (q e : features) (b : nat) : Q :=
  (spec_weight b *
   (Qnat (size (bucket_set q b ∩ bucket_set e b)) /
    Qnat (size (bucket_set q b) `max` size (bucket_set e b))))%Q.

Fixpoint Qsum (l : list Q) : Q :=
  match l with
  | [] => 0%Q
  | x :: t => (x + Qsum t)%Q
  end.

Definition spec_score (q e : features) : Q :=
  Qsum (spec_term q e <$> filter (fun b => spec_counts q e b = true) (seq 1 11)).

(** The weight the bucket table gives a bucket number. *)
Definition weight_of (b : nat) : Q :=
  match bucket_def_of b with
  | Some d => bucket_weights (BucketDef.priority d)
  | None => 0%Q
  end.

(** ** Vocabulary of the statements *)

(** The candidate the loop of [filter_stock_by_buckets] builds from an
    entry. *)
Definition scored (rfp_features : features) (stock_item : StockItem.t) : Candidate.t :=
  let stock_features := extract_bucket_features (stock_text stock_item) in
  {| Candidate.item := stock_item;
     Candidate.match_score := _calculate_match_score rfp_features stock_features;
     Candidate.matched_buckets := _get_matched_buckets rfp_features stock_features |}.

(** Highest score first. *)
Definition score_ge (a b : Candidate.t) : Prop :=
  (Candidate.match_score b <= Candidate.match_score a)%Q.

(** No bucket from 1 to 11 has a token of the query and of the entry. *)
Definition zero_overlap (rfp_features : features) (stock_item : StockItem.t) : Prop :=
  Forall (fun b =>
            bucket_set rfp_features b
            ∩ bucket_set (extract_bucket_features (stock_text stock_item)) b = ∅)
         bucket_range.

(** The score the classifier reads off a judgment: [float(ai_result.get(
    'match_score', 0))]. *)
Definition coerced_score (float_error_text : pyval -> string)
    (ai_result : Judgment.t) : exn + pyfloat :=
  py_float float_error_text
    (default (PyNum (PyFloat.of_Z 0)) (Judgment.match_score ai_result)).

(** [ai_result.get('matched_product_code', '')]. *)
Definition judged_code (ai_result : Judgment.t) : pyval :=
  default (PyStr "") (Judgment.matched_product_code ai_result).

(** The product code of a candidate, as [item.get('product_code')]. *)
Definition code_of (c : Candidate.t) : pyval :=
  get_val (StockItem.product_code (Candidate.item c)).

(** The quantity of a candidate, as [item.get('on_hand_quantity', '0')]. *)
Definition qty_of (c : Candidate.t) : pyval :=
  default (PyStr "0") (StockItem.on_hand_quantity (Candidate.item c)).

(** The quantity test as the specification words it: the entry has a
    quantity and it converts to a number at most 0. *)
Definition quantity_parses_nonpositive (float_error_text : pyval -> string)
    (c : Candidate.t) : Prop :=
  exists v x, StockItem.on_hand_quantity (Candidate.item c) = Some v
              /\ py_float float_error_text v = inr x
              /\ PyFloat.le x (PyFloat.of_Z 0) = true.

(** The alternatives as the specification words them: drop the matched
    code, then keep three. *)
Definition spec_alternatives (product_code : pyval)
    (filtered_stock : list Candidate.t) : list Alternative.t :=
  alternative_of <$>
    take 3 (filter (fun item => code_is product_code item = false) filtered_stock).

(** The tenths of a percent a count comes to, as printed. *)
Definition pct_tenths (count total_items : nat) : Z :=
  round_half_even (percent_value count total_items * 10).

(** ** Sample data *)

(** A stock entry with a code, a description and a quantity, the other
    text fields empty, as the ingestion leaves blank cells. *)
Definition mk_item (code desc qty : string) : StockItem.t :=
  {| StockItem.product_code := Some code;
     StockItem.description := Some desc;
     StockItem.material := Some "";
     StockItem.size := Some "";
     StockItem.specification := Some "";
     StockItem.on_hand_quantity := Some (PyStr qty) |}.

(** The query text: 6, a double quote, then [ SCH40 SMLS PIPE API 5L X52
    PSL2]. *)
Definition sample_query : string :=
  "6" +:+ dq +:+ " SCH40 SMLS PIPE API 5L X52 PSL2".

Definition sample_catalog : list StockItem.t := [
  mk_item "P1" "SMLS PIPE X52" "5";
  mk_item "P2" "HEX BOLT" "12";
  mk_item "P3" "PIPE SCH40 API PSL1" "";
  mk_item "P4" ("6" +:+ dq +:+ " SCH40 SMLS PIPE API 5L X52 PSL2") "0";
  mk_item "P5" "PIPE" "abc"
].

Definition sample_features : features := extract_bucket_features sample_query.

Definition sample_candidates : list Candidate.t :=
  filter_stock_by_buckets sample_features sample_catalog 20.

(** A stand-in for the text of the exception [float] raises. *)
Definition sample_float_error_text (v : pyval) : string :=
  "could not convert value to float".

(** A judgment with a code and a score given as text. *)
Definition mk_judgment (code score : string) : Judgment.t :=
  {| Judgment.matched_product_code := Some (PyStr code);
     Judgment.matched_description := Some (PyStr "");
     Judgment.match_score := Some (PyStr score);
     Judgment.match_reason := Some (PyStr "") |}.

Definition codes_of (l : list Candidate.t) : list string :=
  (fun c => get_str (StockItem.product_code (Candidate.item c))) <$> l.

(** A hand-made shortlist for the classifier, best candidate first. *)
Definition cand (code qty : string) (score : Q) : Candidate.t :=
  {| Candidate.item := mk_item code "" qty;
     Candidate.match_score := score;
     Candidate.matched_buckets := [] |}.

Definition sample_shortlist : list Candidate.t := [
  cand "A" "" 32; cand "B" "5" 25; cand "C" "0" 16;
  cand "D" "abc" 10; cand "E" "7" 2 ].

(** The flange of the class rating example, and the same in class 300. *)
Definition flange_150 : string := "4" +:+ dq +:+ " 150# WNRF FLANGE A105".
Definition flange_300 : string := "4" +:+ dq +:+ " 300# WNRF FLANGE A105".

(** The feature map holds tokens for the bucket. *)
Definition has_tokens (f : gmap nat (list string)) (b : nat) : bool :=
  bool_decide (bucket_set f b ≠ ∅).

(** The entry [_get_matched_buckets] writes for a bucket. *)
Definition matched_bucket_of (q e : gmap nat (list string)) (b : nat) : MatchedBucket.t :=
  {| MatchedBucket.bucket_number := b;
     MatchedBucket.bucket_name :=
       match bucket_def_of b with Some d => BucketDef.name d | None => "" end;
     MatchedBucket.priority :=
       match bucket_def_of b with Some d => BucketDef.priority d | None => Low end;
     MatchedBucket.matched_features := elements (bucket_set q b ∩ bucket_set e b);
     MatchedBucket.rfp_features := elements (bucket_set q b);
     MatchedBucket.stock_features := elements (bucket_set e b) |}.

(** What a bucket of the explanation adds to the score, read off its own
    fields. *)
Definition bucket_contribution (mb : MatchedBucket.t) : Q :=
  (bucket_weights (MatchedBucket.priority mb) *
   (Qnat (length (MatchedBucket.matched_features mb)) /
    Qnat (length (MatchedBucket.rfp_features mb)
          `max` length (MatchedBucket.stock_features mb))))%Q.

(** The features of the entry a candidate stands for. *)
Definition candidate_features (c : Candidate.t) : features :=
  extract_bucket_features (stock_text (Candidate.item c)).

(** Candidates with the score [s]. *)
Definition has_score (s : Q) (c : Candidate.t) : bool :=
  Qeq_bool (Candidate.match_score c) s.

(** The candidates the filter hands on from a list of at most 20. *)
Definition shortlist_ok (cands : list Candidate.t) : Prop :=
  cands ≠ [] /\ length cands <= 20
  /\ StronglySorted score_ge cands
  /\ Forall (fun c => (0 < Candidate.match_score c <= 76)%Q) cands.

Module ApiSummary.
Record t : Type := {
  total_items : nat;
  matched : nat;
  unmatched : nat;
  unavailable : nat
}.
End ApiSummary.

(** The answer of an endpoint: the body of a 200, or the message of a 400
    or of a 500. *)
Inductive response (A : Type) : Type :=
| Ok (body : A)
| BadRequest (msg : string)
| ServerError (msg : string).

Arguments Ok {A} body.
Arguments BadRequest {A} msg.
Arguments ServerError {A} msg.

Section Endpoints.

Variable World : Type.
Variable get_stock_data : World -> list StockItem.t.
Variable match_rfp_item :
  World -> string -> list Candidate.t -> World * (exn + Judgment.t).
Variable float_error_text : pyval -> string.
(** [stock_master_service.has_stock_data()], which may load the stock of
    the session. *)
Variable has_stock_data : World -> World * (exn + bool).

(** The route [/process-rfp] of [app.py], from the [rfp_items] of the
    request on. *)
Definition process_rfp (w : World) (rfp_items : list string)
  : World * response (list Result.t * ApiSummary.t) :=
  match rfp_items with
  | [] => (w, BadRequest "No RFP items provided")
  | _ :: _ =>
      match has_stock_data w with
      | (w1, inl e) => (w1, ServerError ("Failed to process RFP: " +:+ exn_str e))
      | (w1, inr false) => (w1, BadRequest "Please upload stock master file first")
      | (w1, inr true) =>
          let '(w2, results) :=
            process_rfp_items World get_stock_data match_rfp_item float_error_text
              w1 rfp_items in
          (w2, Ok (results,
                   {| ApiSummary.total_items := length rfp_items;
                      ApiSummary.matched := count_status Matched results;
                      ApiSummary.unmatched := count_status Unmatched results;
                      ApiSummary.unavailable := count_status Unavailable results |}))
      end
  end.

End Endpoints.

(** The status of the item is one of the four the summary counts; its
    confidence level is one of the three the summary counts. *)
Definition status_counted (item : BomItem.t) : bool :=
  key_is "matched" (BomItem.status item) || key_is "unmatched" (BomItem.status item)
  || key_is "unavailable" (BomItem.status item) || key_is "error" (BomItem.status item).

Definition confidence_counted (item : BomItem.t) : bool :=
  key_is "high" (BomItem.confidence_level item)
  || key_is "medium" (BomItem.confidence_level item)
  || key_is "low" (BomItem.confidence_level item).

(** [needle in hay] on strings. *)
Fixpoint starts_with (p s : list ascii) : bool :=
  match p, s with
  | [], _ => true
  | _ :: _, [] => false
  | a :: p', b :: s' => bool_decide (a = b) && starts_with p' s'
  end.

Fixpoint occurs_in (p s : list ascii) : bool :=
  starts_with p s ||
  match s with
  | [] => false
  | _ :: s' => occurs_in p s'
  end.

Definition str_in (needle hay : string) : bool :=
  occurs_in (list_ascii_of_string needle) (list_ascii_of_string hay).

(** [int(v)]: a string has to be an integer literal (blanks around it, a
    sign, digits that single underscores may separate); a number is cut
    towards zero. *)
Definition int_of_string (s : string) : option Z :=
  let '(neg, body) := PyFloat.read_sign (PyFloat.strip (list_ascii_of_string s)) in
  match PyFloat.read_digits body with
  | Some (n, _, []) => Some (if neg then (- n)%Z else n)
  | _ => None
  end.

Definition py_int (int_error_text : pyval -> string) (v : pyval) : exn + Z :=
  match v with
  | PyNone => inl (TypeError (int_error_text v))
  | PyBool b => inr (if b then 1 else 0)%Z
  | PyNum (Fin q) => inr (Z.quot (Qnum q) (Z.pos (Qden q)))
  | PyNum NaN => inl (ValueError (int_error_text v))
  | PyNum _ => inl (OtherError (int_error_text v))
  | PyStr s =>
      match int_of_string s with
      | Some z => inr z
      | None => inl (ValueError (int_error_text v))
      end
  end.

(** [v or 0]. *)
Definition or_zero (v : pyval) : pyval :=
  if py_truthy v then v else PyNum (PyFloat.of_Z 0).

Definition mock_keywords : list string :=
  ["pipe"; "flange"; "elbow"; "tee"; "reducer"; "cap"; "valve"; "bolt"; "nut"; "gasket"].

Definition mock_materials : list string :=
  ["a105"; "a234"; "ss316"; "ss304"; "x52"; "wpb"].

(** The size pattern of the mock: digits and a double quote, digits with
    a decimal part and a double quote, digits and mm, with or without a
    decimal part. *)
Definition mock_size_pattern : string :=
  "\d+" +:+ dq +:+ "|\d+\.\d+" +:+ dq +:+ "|\d+mm|\d+\.?\d*mm".

(** [re.findall(pattern, text)] for a pattern without group, on a text in
    lower case (where matching with or without [re.IGNORECASE] is the
    same). *)
Definition findall_strs (pattern text : string) : list string :=
  match re_findall pattern text with
  | Strs l => l
  | Tuples _ => []
  end.

(** The score the loop of [_mock_match_rfp_item] gives an entry. *)
Definition mock_score (rfp_lower : string) (entry : Candidate.t) : nat :=
  let description := lower (get_str (StockItem.description (Candidate.item entry))) in
  let score := 0 in
  let score :=
    foldl (fun score keyword =>
             if str_in keyword rfp_lower && str_in keyword description
             then score + 20 else score) score mock_keywords in
  let rfp_sizes := findall_strs mock_size_pattern rfp_lower in
  let desc_sizes := findall_strs mock_size_pattern description in
  let score :=
    foldl (fun score rfp_size =>
             if bool_decide (rfp_size ∈ desc_sizes) then score + 30 else score)
          score rfp_sizes in
  foldl (fun score material =>
           if str_in material rfp_lower && str_in material description
           then score + 25 else score) score mock_materials.

(** One round of the search for the best entry. *)
Definition mock_step (rfp_lower : string)
    (best : option Candidate.t * nat) (entry : Candidate.t)
  : option Candidate.t * nat :=
  let score := mock_score rfp_lower entry in
  if snd best <? score then (Some entry, score) else best.

(** The search of the mock for its best entry. *)
Definition mock_best (rfp_lower : string) (stock_entries : list Candidate.t)
  : option Candidate.t * nat :=
  foldl (mock_step rfp_lower) (None, 0) stock_entries.

Definition mock_judgment (code description score reason : string) : Judgment.t :=
  {| Judgment.matched_product_code := Some (PyStr code);
     Judgment.matched_description := Some (PyStr description);
     Judgment.match_score := Some (PyStr score);
     Judgment.match_reason := Some (PyStr reason) |}.

Definition _mock_match_rfp_item (int_error_text : pyval -> string)
    (rfp_line : string) (stock_entries : list Candidate.t) : exn + Judgment.t :=
  match stock_entries with
  | [] => inr (mock_judgment "" "" "0" "No stock entries provided for matching")
  | _ :: _ =>
      let rfp_lower := lower rfp_line in
      let '(best_match, best_score) := mock_best rfp_lower stock_entries in
      match best_match with
      | Some best =>
          if 40 <? best_score then
            match py_int int_error_text
                    (or_zero (default (PyNum (PyFloat.of_Z 0))
                                (StockItem.on_hand_quantity (Candidate.item best)))) with
            | inr _ =>
                inr (mock_judgment
                       (get_str (StockItem.product_code (Candidate.item best)))
                       (get_str (StockItem.description (Candidate.item best)))
                       (pretty (best_score `min` 95))
                       ("Mock AI matching based on keyword analysis. Score: "
                        +:+ pretty best_score))
            | inl e => inl e
            end
          else inr (mock_judgment "" "" "0"
                      "No suitable match found using mock AI matching")
      | None => inr (mock_judgment "" "" "0"
                       "No suitable match found using mock AI matching")
      end
  end.

(** [all(field in result for field in required_fields)]. *)
Definition has_required_fields (result : Judgment.t) : bool :=
  bool_decide (is_Some (Judgment.matched_product_code result))
  && bool_decide (is_Some (Judgment.matched_description result))
  && bool_decide (is_Some (Judgment.match_score result))
  && bool_decide (is_Some (Judgment.match_reason result)).

(** The [dict] of the [except] branch of [match_rfp_item]. *)
Definition failed_judgment (e : exn) : Judgment.t :=
  mock_judgment "" "" "0" ("Error in AI matching: " +:+ exn_str e).

Module AzureOpenAIService.
Section Service.

(** [self.use_mock]; the request to the deployed model with the reply
    decoded by [json.loads], of which the four keys the callers read are
    kept; the text of the message [int] raises with. *)
Variable World : Type.
Variable use_mock : bool.
Variable chat_completion :
  World -> string -> list Candidate.t -> World * (exn + Judgment.t).
Variable int_error_text : pyval -> string.

Definition match_rfp_item (w : World) (rfp_line : string)
    (stock_entries : list Candidate.t) : World * (exn + Judgment.t) :=
  if use_mock then (w, _mock_match_rfp_item int_error_text rfp_line stock_entries)
  else
    match chat_completion w rfp_line stock_entries with
    | (w', inr result) =>
        if has_required_fields result then (w', inr result)
        else (w', inr (failed_judgment
                         (ValueError "Invalid response format from Azure OpenAI")))
    | (w', inl e) => (w', inr (failed_judgment e))
    end.

End Service.
End AzureOpenAIService.

(** What the search holds after a run: nothing while every score is 0,
    else the first entry of the highest score. *)
Definition first_best (r : string) (l : list Candidate.t) (i : nat) (e : Candidate.t) : Prop :=
  l !! i = Some e
  /\ Forall (fun e' => mock_score r e' <= mock_score r e) l
  /\ forall k e', k < i -> l !! k = Some e' -> mock_score r e' < mock_score r e.

(** Why a reply of the deployed model is not used: the request or its
    decoding raised, or one of the four keys is missing. *)
Definition reply_failure (reply : exn + Judgment.t) : option exn :=
  match reply with
  | inl e => Some e
  | inr result =>
      if has_required_fields result then None
      else Some (ValueError "Invalid response format from Azure OpenAI")
  end.

(** ** [services/stock_master_service.py]: queries on [self.stock_data] *)

(** The loop of [search_stock]: a record whose text holds the query is
    appended, and the loop stops once the results have reached the limit. *)
Fixpoint search_loop (query_lower : string) (limit : Z)
    (results : list StockItem.t) (records : list StockItem.t) : list StockItem.t :=
  match records with
  | [] => results
  | record :: rest =>
      let searchable_text := lower (stock_text record) in
      let results :=
        if str_in query_lower searchable_text then results ++ [record] else results in
      if (limit <=? Z.of_nat (length results))%Z then results
      else search_loop query_lower limit results rest
  end.

Definition search_stock (stock_data : list StockItem.t) (query : string) (limit : Z)
  : list StockItem.t :=
  match stock_data with
  | [] => []
  | _ :: _ => search_loop (lower query) limit [] stock_data
  end.

(** [record.get('product_code', '').upper() == product_code.upper()]. *)
Definition same_code (product_code : string) (record : StockItem.t) : bool :=
  bool_decide (upper (get_str (StockItem.product_code record)) = upper product_code).

Definition get_stock_by_code (stock_data : list StockItem.t) (product_code : string)
  : option StockItem.t :=
  List.find (same_code product_code) stock_data.

(** The report of [validate_stock_data]; the keys the report of an empty
    stock does not have are [option] fields. *)
Module Validation.
Record t : Type := {
  valid : bool;
  errors : list string;
  warnings : option (list string);
  total_records : option nat
}.
End Validation.

(** [not record.get(key)] on a text field. *)
Definition lacks (field : option string) : bool := bool_decide (get_str field = "").

(** The product codes of the records that have one. *)
Definition stock_codes (stock_data : list StockItem.t) : list string :=
  (fun r => get_str (StockItem.product_code r)) <$>
    filter (fun r => lacks (StockItem.product_code r) = false) stock_data.

Definition validate_stock_data (stock_data : list StockItem.t) : Validation.t :=
  match stock_data with
  | [] =>
      {| Validation.valid := false;
         Validation.errors := ["No stock data loaded"];
         Validation.warnings := None;
         Validation.total_records := None |}
  | _ :: _ =>
      let errors := [] in
      let warnings := [] in
      let records_without_code :=
        length (filter (fun r => lacks (StockItem.product_code r) = true) stock_data) in
      let records_without_desc :=
        length (filter (fun r => lacks (StockItem.description r) = true) stock_data) in
      let errors :=
        if 0 <? records_without_code
        then errors ++ [pretty records_without_code +:+ " records missing product code"]
        else errors in
      let errors :=
        if 0 <? records_without_desc
        then errors ++ [pretty records_without_desc +:+ " records missing description"]
        else errors in
      let codes := stock_codes stock_data in
      let duplicate_codes := length codes - size (list_to_set codes : gset string) in
      let warnings :=
        if 0 <? duplicate_codes
        then warnings ++ [pretty duplicate_codes +:+ " duplicate product codes found"]
        else warnings in
      {| Validation.valid := bool_decide (length errors = 0);
         Validation.errors := errors;
         Validation.warnings := Some warnings;
         Validation.total_records := Some (length stock_data) |}
  end.

(** The record holds the query, whatever the case of the letters. *)
Definition holds_query (query : string) (record : StockItem.t) : bool :=
  str_in (lower query) (lower (stock_text record)).

(** ** [services/rfp_file_processor.py]: [_clean_rfp_items] *)

(** [re.sub(r'\s+', ' ', s)]: every run of blanks becomes one space.
    [in_run] tells that the character before was a blank. *)
Fixpoint sub_spaces (in_run : bool) (s : list ascii) : list ascii :=
  match s with
  | [] => []
  | c :: t =>
      if Chars.is_space c
      then if in_run then sub_spaces true t else " "%char :: sub_spaces true t
      else c :: sub_spaces false t
  end.

(** [str.lstrip] and [str.strip] on ASCII text: the blanks are those of
    [str.isspace]. *)
Fixpoint lstrip (s : list ascii) : list ascii :=
  match s with
  | c :: t => if Chars.is_space c then lstrip t else s
  | [] => []
  end.

Definition str_strip (s : list ascii) : list ascii :=
  rev (lstrip (rev (lstrip s))).

(** [re.sub(r'\s+', ' ', item.strip())]. *)
Definition clean_item (item : string) : string :=
  string_of_list_ascii (sub_spaces false (str_strip (list_ascii_of_string item))).

(** The loop of [_clean_rfp_items], with its list [cleaned] and its set
    [seen]. *)
Fixpoint clean_loop (cleaned : list string) (seen : gset string) (items : list string)
  : list string :=
  match items with
  | [] => cleaned
  | item :: rest =>
      let cleaned_item := clean_item item in
      if bool_decide (lower cleaned_item ∉ seen) && (10 <? String.length cleaned_item)
      then clean_loop (cleaned ++ [cleaned_item]) (seen ∪ {[lower cleaned_item]}) rest
      else clean_loop cleaned seen rest
  end.

Definition _clean_rfp_items (items : list string) : list string :=
  clean_loop [] ∅ items.

(** A text with no blank at either end. *)
Definition trimmed (s : list ascii) : Prop :=
  (forall c r, s = c :: r -> Chars.is_space c = false)
  /\ (forall r c, s = r ++ [c] -> Chars.is_space c = false).

(** A text whose blanks are single spaces. *)
Fixpoint single_spaced (in_run : bool) (s : list ascii) : bool :=
  match s with
  | [] => true
  | c :: t =>
      if Chars.is_space c
      then bool_decide (c = " "%char) && negb in_run && single_spaced true t
      else single_spaced false t
  end.

(** What [_clean_rfp_items] keeps: long enough, and already clean. *)
Definition kept (s : string) : Prop :=
  10 < String.length s /\ clean_item s = s.

(** *** Sample data of the further properties *)

(** Two feature maps with the same tokens, listed differently. *)
Definition sample_tokens : features := {[ 2 := ["PIPE"; "TEE"] ]}.
Definition sample_tokens_repeated : features := {[ 2 := ["TEE"; "PIPE"; "TEE"] ]}.

(** A world with nothing in it but the sample catalog. *)
Definition sample_get_stock_data (w : unit) : list StockItem.t := sample_catalog.

(** A matcher that always names P4 with score 85, and one that does so
    only when it is given candidates. *)
Definition sample_matcher (w : unit) (rfp_line : string) (cands : list Candidate.t)
  : unit * (exn + Judgment.t) :=
  (w, inr (mk_judgment "P4" "85")).

Definition sample_matcher_strict (w : unit) (rfp_line : string)
    (cands : list Candidate.t) : unit * (exn + Judgment.t) :=
  match cands with
  | [] => (w, inl (OtherError "no candidates"))
  | _ :: _ => (w, inr (mk_judgment "P4" "85"))
  end.

(** A line in mixed case. *)
Definition sample_mixed_case : string := "Smls Pipe sch40 x52".

(** A catalog with entries of equal features around entries that score
    higher: T1 and T3 hold the one token PIPE. *)
Definition tie_catalog : list StockItem.t := [
  mk_item "T1" "PIPE" "1";
  mk_item "T2" "SMLS PIPE X52" "2";
  mk_item "T3" "PIPE" "3";
  mk_item "T4" "SMLS PIPE X52" "4"
].

(** The best candidate of the sample query. *)
Definition sample_best : Candidate.t :=
  default (cand "" "" 0) (head sample_candidates).

(** * Properties *)

Arguments extract_bucket_features : simpl never.
Arguments _calculate_match_score : simpl never.
Arguments _get_matched_buckets : simpl never.
Arguments bucket_def_of : simpl never.
Arguments score_step : simpl never.


(** ** Helper lemmas on rationals *)

Lemma Qlt_bool_iff (a b : Q) : Qlt_bool a b = true <-> (a < b)%Q.
Proof.
  unfold Qlt_bool. rewrite negb_true_iff. split.
  - intros H. apply Qnot_le_lt. intros Hle.
    apply Qle_bool_iff in Hle. congruence.
  - intros H. destruct (Qle_bool b a) eqn:E; [|done].
    apply Qle_bool_iff in E. exfalso. apply (Qlt_not_le _ _ H E).
Qed.

Lemma Qlt_bool_false (a b : Q) : Qlt_bool a b = false <-> (b <= a)%Q.
Proof.
  unfold Qlt_bool. rewrite negb_false_iff. apply Qle_bool_iff.
Qed.

Lemma Qnat_nonneg (n : nat) : (0 <= Qnat n)%Q.
Proof. unfold Qnat, Qle. simpl. lia. Qed.

Lemma Qnat_pos (n : nat) : 0 < n -> (0 < Qnat n)%Q.
Proof. intros H. unfold Qnat, Qlt. simpl. lia. Qed.

Lemma Qnat_le (n m : nat) : n <= m -> (Qnat n <= Qnat m)%Q.
Proof. intros H. unfold Qnat, Qle. simpl. lia. Qed.

(** A ratio of counts with the smaller on top lies between 0 and 1. *)
Lemma ratio_bounds (o m : nat) :
  0 < o -> o <= m -> (0 < Qnat o / Qnat m /\ Qnat o / Qnat m <= 1)%Q.
Proof.
  intros Ho Hm.
  assert (Hm0 : (0 < Qnat m)%Q) by (apply Qnat_pos; lia).
  split.
  - apply Qlt_shift_div_l; [done|]. rewrite Qmult_0_l. by apply Qnat_pos.
  - apply Qle_shift_div_r; [done|]. rewrite Qmult_1_l. by apply Qnat_le.
Qed.

(** ** The bucket table *)

Lemma bucket_patterns_compile :
  Forall (fun p => Forall (fun s => is_Some (Re.compile s))
                     (BucketDef.patterns (snd p))) bucket_definitions.
Proof.
  apply (bool_decide_unpack _). vm_compute. exact I.
Qed.

Lemma weight_of_spec (b : nat) : b ∈ seq 1 11 -> weight_of b = spec_weight b.
Proof.
  intros H. apply list_elem_of_In, in_seq in H.
  do 12 (destruct b as [|b]; [try lia; try reflexivity|]). lia.
Qed.

Lemma weight_of_nonneg (b : nat) : (0 <= weight_of b)%Q.
Proof.
  unfold weight_of. destruct (bucket_def_of b) as [d|]; [|done].
  by destruct (BucketDef.priority d).
Qed.

(** ** The score *)

Section Score.

Variables q e : features.

Lemma overlap_le_max (b : nat) :
  size (bucket_set q b ∩ bucket_set e b)
  <= size (bucket_set q b) `max` size (bucket_set e b).
Proof.
  etrans; [apply (subseteq_size _ (bucket_set q b)), intersection_subseteq_l|lia].
Qed.

(** One round of the loop, read through [bucket_set]. *)
Lemma score_step_spec (t : Q) (b : nat) :
  score_step q e t b =
  if bool_decide (is_Some (q !! b)) && bool_decide (is_Some (e !! b))
     && (0 <? size (bucket_set q b ∩ bucket_set e b))
  then
    match bucket_def_of b with
    | Some d =>
        (t + bucket_weights (BucketDef.priority d) *
             (Qnat (size (bucket_set q b ∩ bucket_set e b)) /
              Qnat (size (bucket_set q b) `max` size (bucket_set e b))))%Q
    | None => t
    end
  else t.
Proof.
  unfold score_step, bucket_set.
  destruct (q !! b) as [ql|] eqn:Eq; simpl; [|done].
  destruct (e !! b) as [el|] eqn:Ee; simpl.
  - destruct (bucket_def_of b); [|by destruct (0 <? _)].
    by destruct (0 <? _).
  - done.
Qed.

Lemma size_pos_nonempty (X : gset string) :
  (0 <? size X) = bool_decide (X ≠ ∅).
Proof.
  destruct (decide (X = ∅)) as [->|Hne].
  - rewrite size_empty. by rewrite bool_decide_eq_false_2 by (intros H; by apply H).
  - rewrite bool_decide_eq_true_2 by done.
    apply Nat.ltb_lt.
    assert (size X ≠ 0); [|lia].
    intros H0. apply size_empty_inv in H0. by apply Hne, leibniz_equiv.
Qed.

Lemma score_step_term (t : Q) (b : nat) :
  b ∈ seq 1 11 ->
  score_step q e t b =
  if spec_counts q e b then (t + spec_term q e b)%Q else t.
Proof.
  intros Hb. rewrite score_step_spec. unfold spec_counts, spec_term.
  rewrite size_pos_nonempty. rewrite <- (weight_of_spec b Hb).
  unfold weight_of. destruct (_ && _ && _); [|done].
  destruct (bucket_def_of b) eqn:E; [done|].
  exfalso. apply list_elem_of_In, in_seq in Hb.
  do 12 (destruct b as [|b]; [try lia; try discriminate|]). lia.
Qed.

Lemma foldl_score_sum (l : list nat) (t : Q) :
  l ⊆ seq 1 11 ->
  (foldl (score_step q e) t l ==
   t + Qsum (spec_term q e <$> filter (fun b => spec_counts q e b = true) l))%Q.
Proof.
  revert t. induction l as [|b l IH]; intros t Hl; simpl.
  - ring.
  - assert (Hb : b ∈ seq 1 11) by (apply Hl; left).
    assert (Hl' : l ⊆ seq 1 11) by (intros x Hx; apply Hl; by right).
    rewrite IH by done. rewrite score_step_term by done.
    rewrite filter_cons.
    destruct (decide (spec_counts q e b = true)) as [Ht|Hf].
    + rewrite Ht, fmap_cons. simpl Qsum. ring.
    + apply not_true_is_false in Hf. rewrite Hf. reflexivity.
Qed.

Lemma calculate_match_score_spec :
  (_calculate_match_score q e == spec_score q e)%Q.
Proof.
  unfold _calculate_match_score, spec_score, bucket_range.
  rewrite foldl_score_sum by done. ring.
Qed.

Lemma score_step_bounds (t : Q) (b : nat) :
  (t <= score_step q e t b /\ score_step q e t b <= t + weight_of b)%Q.
Proof.
  rewrite score_step_spec. unfold weight_of.
  pose proof (weight_of_nonneg b) as Hw. unfold weight_of in Hw.
  destruct (_ && _ && _) eqn:E.
  - apply andb_true_iff in E as [_ Ho]. apply Nat.ltb_lt in Ho.
    destruct (bucket_def_of b) as [d|]; [|split; lra].
    destruct (ratio_bounds _ _ Ho (overlap_le_max b)) as [H0 H1].
    set (r := (Qnat _ / Qnat _)%Q) in *.
    set (w := bucket_weights (BucketDef.priority d)) in *.
    split; nra.
  - destruct (bucket_def_of b); split; lra.
Qed.

Lemma foldl_score_bounds (l : list nat) (t : Q) :
  (t <= foldl (score_step q e) t l /\
   foldl (score_step q e) t l <= t + Qsum (weight_of <$> l))%Q.
Proof.
  revert t. induction l as [|b l IH]; intros t; cbn [foldl Qsum fmap list_fmap].
  - split; lra.
  - destruct (IH (score_step q e t b)) as [H1 H2].
    destruct (score_step_bounds t b) as [H3 H4]. split; lra.
Qed.

(** Buckets with no common token leave the running score as it is. *)
Lemma foldl_score_disjoint (l : list nat) (t : Q) :
  Forall (fun b => bucket_set q b ∩ bucket_set e b = ∅) l ->
  foldl (score_step q e) t l = t.
Proof.
  revert t. induction l as [|b l IH]; intros t H; [done|].
  apply Forall_cons in H as [Hb Hl]. cbn [foldl].
  rewrite score_step_spec, Hb, size_empty, andb_false_r. by apply IH.
Qed.

Lemma calculate_match_score_bounds :
  (0 <= _calculate_match_score q e /\ _calculate_match_score q e <= 76)%Q.
Proof.
  unfold _calculate_match_score.
  destruct (foldl_score_bounds bucket_range 0%Q) as [H1 H2].
  split; [done|].
  assert (Hs : (Qsum (weight_of <$> bucket_range) == 76)%Q) by reflexivity.
  lra.
Qed.

End Score.

(** ** The candidate filter *)

Section Filter.

Variable q : features.

Lemma scored_score (e : StockItem.t) :
  Candidate.match_score (scored q e) = item_score q e.
Proof. unfold scored, item_score. reflexivity. Qed.

Lemma scored_item (e : StockItem.t) : Candidate.item (scored q e) = e.
Proof. unfold scored. reflexivity. Qed.

Lemma score_items_step_eq (acc : list Candidate.t) (e : StockItem.t) :
  score_items_step q acc e =
  if Qlt_bool 0 (item_score q e) then acc ++ [scored q e] else acc.
Proof. unfold score_items_step, item_score, scored. reflexivity. Qed.

Lemma foldl_score_items (l : list StockItem.t) (acc : list Candidate.t) :
  foldl (score_items_step q) acc l =
  acc ++ (scored q <$> filter (fun e => Qlt_bool 0 (item_score q e) = true) l).
Proof.
  revert acc. induction l as [|e l IH]; intros acc; cbn [foldl].
  - by rewrite filter_nil, fmap_nil, app_nil_r.
  - rewrite IH, score_items_step_eq, filter_cons.
    destruct (decide (Qlt_bool 0 (item_score q e) = true)) as [Ht|Hf].
    + rewrite Ht, fmap_cons, <- app_assoc. reflexivity.
    + apply not_true_is_false in Hf. rewrite Hf. reflexivity.
Qed.

Lemma score_items_spec (stock_data : list StockItem.t) :
  score_items q stock_data =
  scored q <$> filter (fun e => Qlt_bool 0 (item_score q e) = true) stock_data.
Proof. unfold score_items. apply (foldl_score_items stock_data []). Qed.

Lemma insert_desc_perm (x : Candidate.t) (l : list Candidate.t) :
  insert_desc x l ≡ₚ x :: l.
Proof.
  induction l as [|y l IH]; simpl; [done|].
  destruct (Qlt_bool _ _); [|done].
  rewrite IH. apply perm_swap.
Qed.

Lemma sort_desc_perm (l : list Candidate.t) : sort_desc l ≡ₚ l.
Proof.
  induction l as [|x l IH]; simpl; [done|].
  by rewrite insert_desc_perm, IH.
Qed.

Lemma insert_desc_sorted (x : Candidate.t) (l : list Candidate.t) :
  StronglySorted score_ge l -> StronglySorted score_ge (insert_desc x l).
Proof.
  induction l as [|y l IH]; simpl; intros Hs.
  - repeat constructor.
  - apply StronglySorted_cons in Hs as [Hy Hl].
    destruct (Qlt_bool _ _) eqn:E.
    + apply StronglySorted_cons. split; [|by apply IH].
      rewrite insert_desc_perm. constructor; [|done].
      apply Qlt_bool_iff in E. unfold score_ge. by apply Qlt_le_weak.
    + apply Qlt_bool_false in E.
      apply StronglySorted_cons. split.
      * constructor; [done|].
        eapply Forall_impl; [exact Hy|]. unfold score_ge. intros z Hz.
        eapply Qle_trans; [exact Hz|exact E].
      * by apply StronglySorted_cons.
Qed.

Lemma sort_desc_sorted (l : list Candidate.t) : StronglySorted score_ge (sort_desc l).
Proof.
  induction l as [|x l IH]; simpl; [constructor|].
  by apply insert_desc_sorted.
Qed.

Lemma slice_to_take {A} (l : list A) (n : Z) : exists k, slice_to l n = take k l.
Proof. unfold slice_to. destruct (0 <=? n)%Z; eauto. Qed.

Lemma slice_to_length {A} (l : list A) (n : Z) :
  (0 <= n)%Z -> (Z.of_nat (length (slice_to l n)) <= n)%Z.
Proof.
  intros Hn. unfold slice_to.
  rewrite (proj2 (Z.leb_le 0 n)) by done. rewrite length_take. lia.
Qed.

Lemma slice_to_Forall {A} (P : A -> Prop) (l : list A) (n : Z) :
  Forall P l -> Forall P (slice_to l n).
Proof. destruct (slice_to_take l n) as [k ->]. apply Forall_take. Qed.

Lemma slice_to_sorted {A} (R : relation A) (l : list A) (n : Z) :
  StronglySorted R l -> StronglySorted R (slice_to l n).
Proof.
  destruct (slice_to_take l n) as [k ->]. intros Hs.
  rewrite <- (take_drop k l) in Hs.
  by apply StronglySorted_app in Hs as (_ & Hs & _).
Qed.

(** What holds of every scored entry holds of every returned one. *)
Lemma filter_stock_Forall (P : Candidate.t -> Prop)
    (stock_data : list StockItem.t) (n : Z) :
  Forall (fun e => (0 < item_score q e)%Q -> P (scored q e)) stock_data ->
  Forall P (filter_stock_by_buckets q stock_data n).
Proof.
  intros H. unfold filter_stock_by_buckets. apply slice_to_Forall.
  rewrite sort_desc_perm, score_items_spec. apply Forall_fmap.
  apply Forall_forall. intros e He. apply list_elem_of_filter in He as [Hpos He].
  rewrite Forall_forall in H. apply (H e He). by apply Qlt_bool_iff.
Qed.

Lemma zero_overlap_score (e : StockItem.t) :
  zero_overlap q e -> item_score q e = 0%Q.
Proof.
  unfold zero_overlap, item_score, _calculate_match_score.
  apply foldl_score_disjoint.
Qed.

End Filter.

(** C1: the score the bucket filter gives an entry is the sum, over the
    buckets 1 to 11 that the query's and the entry's feature maps both hold
    and whose token sets meet, of weight times the size of the intersection
    over the larger of the two set sizes, with weight 10 for buckets 1-6,
    5 for 7-8 and 2 for 9-11; the entry's feature map is extracted from its
    product code, description, material, size and specification joined by
    spaces. Every candidate the filter returns carries that score. *)
Theorem C1_candidate_score_is_weighted_overlap_sum
    (rfp_features : features) (stock_item : StockItem.t)
    (stock_data : list StockItem.t) (max_results : Z) :
  let entry_text (e : StockItem.t) :=
    get_str (StockItem.product_code e) +:+ " " +:+
    get_str (StockItem.description e) +:+ " " +:+
    get_str (StockItem.material e) +:+ " " +:+
    get_str (StockItem.size e) +:+ " " +:+
    get_str (StockItem.specification e) in
  (item_score rfp_features stock_item ==
   spec_score rfp_features (extract_bucket_features (entry_text stock_item)))%Q
  /\ Forall (fun c =>
       (Candidate.match_score c ==
        spec_score rfp_features
          (extract_bucket_features (entry_text (Candidate.item c))))%Q)
       (filter_stock_by_buckets rfp_features stock_data max_results).
Proof.
  intros entry_text. split.
  - apply calculate_match_score_spec.
  - apply filter_stock_Forall, Forall_forall. intros e _ _.
    rewrite scored_score, scored_item. apply calculate_match_score_spec.
Qed.

(** C10: the match score of any two feature maps lies between 0 and 76,
    the sum of the eleven bucket weights, and every candidate returned by
    [filter_stock_by_buckets] has a score in the half-open range (0, 76]. *)
Theorem C10_match_score_at_most_76
    (rfp_features stock_features : features)
    (stock_data : list StockItem.t) (max_results : Z) :
  (0 <= _calculate_match_score rfp_features stock_features <= 76)%Q
  /\ (Qsum (spec_weight <$> seq 1 11) == 76)%Q
  /\ Forall (fun c => (0 < Candidate.match_score c <= 76)%Q)
       (filter_stock_by_buckets rfp_features stock_data max_results).
Proof.
  split; [apply calculate_match_score_bounds|]. split; [reflexivity|].
  apply filter_stock_Forall, Forall_forall. intros e _ Hpos.
  rewrite scored_score. split; [exact Hpos|].
  apply calculate_match_score_bounds.
Qed.

(** C2: for a non-negative [max_results] the list [filter_stock_by_buckets]
    returns is sorted by score, highest first, holds at most [max_results]
    candidates, none with score 0, and holds no catalog entry that has no
    bucket overlap with the query. *)
Theorem C2_filter_sorted_bounded_nonzero
    (rfp_features : features) (stock_data : list StockItem.t) (max_results : Z) :
  (0 <= max_results)%Z ->
  let out := filter_stock_by_buckets rfp_features stock_data max_results in
  StronglySorted score_ge out
  /\ (Z.of_nat (length out) <= max_results)%Z
  /\ Forall (fun c => ~ (Candidate.match_score c == 0)%Q) out
  /\ Forall (fun c => ~ zero_overlap rfp_features (Candidate.item c)) out.
Proof.
  intros Hn out. subst out. repeat split.
  - apply slice_to_sorted, sort_desc_sorted.
  - by apply slice_to_length.
  - apply filter_stock_Forall, Forall_forall. intros e _ Hpos.
    rewrite scored_score. lra.
  - apply filter_stock_Forall, Forall_forall. intros e _ Hpos Hz.
    rewrite scored_item in Hz.
    rewrite (zero_overlap_score _ _ Hz) in Hpos. lra.
Qed.

Example sample_candidates_ranked :
  codes_of sample_candidates = ["P4"; "P1"; "P3"; "P5"].
Proof. vm_compute. reflexivity. Qed.

(** C2 on the sample catalog with [max_results = 2]. *)
Lemma C2_filter_sorted_bounded_nonzero_witness :
  (0 <= 2)%Z /\
  let out := filter_stock_by_buckets sample_features sample_catalog 2 in
  StronglySorted score_ge out
  /\ (Z.of_nat (length out) <= 2)%Z
  /\ Forall (fun c => ~ (Candidate.match_score c == 0)%Q) out
  /\ Forall (fun c => ~ zero_overlap sample_features (Candidate.item c)) out.
Proof.
  split; [lia|].
  apply (C2_filter_sorted_bounded_nonzero sample_features sample_catalog 2). lia.
Defined.

(** The top two of the sample catalog, and the entry without overlap
    left out. *)
Example sample_filter_top_two :
  codes_of (filter_stock_by_buckets sample_features sample_catalog 2) = ["P4"; "P1"]
  /\ "P2" ∉ codes_of (filter_stock_by_buckets sample_features sample_catalog 50).
Proof.
  split; [vm_compute; reflexivity|].
  assert (H : codes_of (filter_stock_by_buckets sample_features sample_catalog 50)
              = ["P4"; "P1"; "P3"; "P5"]) by (vm_compute; reflexivity).
  rewrite H. intros Hin. repeat (apply elem_of_cons in Hin as [Hin|Hin]; [discriminate|]).
  by apply elem_of_nil in Hin.
Qed.

(** C8: on the query text of the example (6, a double quote, then
    [ SCH40 SMLS PIPE API 5L X52 PSL2]) the extraction yields buckets 2, 4,
    7, 8 and 11 as listed, and no bucket 9: after the inch quote the
    pattern asks for a word boundary, and the quote is followed by a
    blank. *)
Theorem C8_sample_query_features :
  to_set <$> extract_bucket_features sample_query =
    {[ 2 := {[ "PIPE" ]}; 4 := {[ "SMLS" ]}; 7 := {[ "X52" ]};
       8 := {[ "SCH40" ]}; 11 := {[ "API"; "PSL2" ]} ]}
  /\ extract_bucket_features sample_query !! 9 = None.
Proof. split; vm_compute; reflexivity. Qed.

(** The same size is found when a word character follows the quote. *)
Example quoted_inch_before_word :
  extract_bucket_features ("6" +:+ dq +:+ "X4" +:+ dq +:+ " REDUCER") !! 9 = Some ["6"].
Proof. vm_compute. reflexivity. Qed.

(** Losing the class rating costs the weight of a high bucket. *)
Example class_rating_counts :
  let q := extract_bucket_features flange_150 in
  (item_score q (mk_item "F1" flange_150 "1") == 35)%Q
  /\ (item_score q (mk_item "F2" flange_300 "1") == 25)%Q.
Proof. split; vm_compute; reflexivity. Qed.

(** ** The match classifier *)

Lemma pyfloat_ge_not_lt (x t : pyfloat) :
  PyFloat.ge x t = true -> PyFloat.lt x t = false.
Proof.
  unfold PyFloat.ge, PyFloat.le, PyFloat.lt.
  destruct x as [a| | |], t as [b| | |]; try done.
  intros H. apply Qle_bool_iff in H. by apply Qlt_bool_false.
Qed.

(** [==] between a stored product code and any value is plain equality. *)
Lemma py_eq_get_val (o : option string) (v : pyval) :
  py_eq (get_val o) v = true <-> get_val o = v.
Proof.
  destruct o as [s|], v as [|b|x|t]; simpl; try (split; [done|discriminate]).
  - rewrite bool_decide_eq_true. split; [by intros ->|by intros [= ->]].
  - done.
Qed.

Section Classifier.

Variable float_error_text : pyval -> string.

Lemma code_is_true (v : pyval) (c : Candidate.t) :
  code_is v c = true <-> code_of c = v.
Proof. apply py_eq_get_val. Qed.

Lemma code_is_false (v : pyval) (c : Candidate.t) :
  code_is v c = false <-> code_of c ≠ v.
Proof.
  rewrite <- code_is_true. destruct (code_is v c); split; done.
Qed.

Lemma find_matched_none (v : pyval) (l : list Candidate.t) :
  Forall (fun c => code_of c ≠ v) l -> find_matched v l = None.
Proof.
  intros H. unfold find_matched. destruct (py_truthy v); [|done].
  induction H as [|c l Hc _ IH]; [done|]. simpl.
  apply code_is_false in Hc. by rewrite Hc.
Qed.

Lemma find_matched_some (v : pyval) (l : list Candidate.t) (c : Candidate.t) :
  find_matched v l = Some c -> c ∈ l /\ code_of c = v.
Proof.
  unfold find_matched. destruct (py_truthy v); [|done].
  intros H. apply find_some in H as [Hin Hc].
  split; [by apply list_elem_of_In|by apply code_is_true].
Qed.

(** The status of a result whose score was coerced. *)
Lemma enhance_status (ai_result : Judgment.t) (filtered_stock : list Candidate.t)
    (rfp_features : features) (score : pyfloat) :
  coerced_score float_error_text ai_result = inr score ->
  Result.status (_enhance_ai_result float_error_text ai_result filtered_stock rfp_features) =
  _determine_match_status float_error_text score (find_matched (judged_code ai_result) filtered_stock).
Proof.
  unfold coerced_score, _enhance_ai_result.
  intros ->. reflexivity.
Qed.


(** The status once the score is at least 40 and an entry is matched. *)
Lemma status_of_matched (score : pyfloat) (item : Candidate.t) :
  PyFloat.ge score (PyFloat.of_Z 40) = true ->
  _determine_match_status float_error_text score (Some item) =
  match quantity_of float_error_text item with
  | Some quantity =>
      if PyFloat.le quantity (PyFloat.of_Z 0) then Unavailable else Matched
  | None => Matched
  end.
Proof.
  intros H. unfold _determine_match_status.
  change low_confidence_threshold with (PyFloat.of_Z 40).
  by rewrite (pyfloat_ge_not_lt _ _ H).
Qed.

(** C4, as the code has it: with a coerced score of at least 40 and a
    matched entry, the status is [unavailable] exactly when the entry's
    quantity is missing, empty or zero (all counted as 0) or converts to a
    number at most 0, and [matched] otherwise; a quantity that is not
    empty and does not convert to a number gives [matched]. *)
Theorem C4_unavailable_iff_quantity_counts_as_nonpositive
    (ai_result : Judgment.t) (filtered_stock : list Candidate.t)
    (rfp_features : features) (score : pyfloat) (item : Candidate.t) :
  coerced_score float_error_text ai_result = inr score ->
  PyFloat.ge score (PyFloat.of_Z 40) = true ->
  find_matched (judged_code ai_result) filtered_stock = Some item ->
  let status := Result.status (_enhance_ai_result float_error_text ai_result filtered_stock rfp_features) in
  let counts_as_nonpositive :=
    py_truthy (qty_of item) = false
    \/ exists x, py_float float_error_text (qty_of item) = inr x
                 /\ PyFloat.le x (PyFloat.of_Z 0) = true in
  (status = Unavailable <-> counts_as_nonpositive)
  /\ (status = Matched <-> ~ counts_as_nonpositive)
  /\ (py_truthy (qty_of item) = true ->
      (exists e, py_float float_error_text (qty_of item) = inl e) -> status = Matched).
Proof.
  intros Hs Hge Hfind status cnp.
  assert (Hcase : (cnp /\ status = Unavailable) \/ (~ cnp /\ status = Matched)).
  { subst status cnp.
    rewrite (enhance_status _ _ _ _ Hs), Hfind, (status_of_matched _ _ Hge).
    unfold quantity_of. fold (qty_of item).
    destruct (py_truthy (qty_of item)) eqn:Ht.
    - destruct (py_float float_error_text (qty_of item)) as [e|x] eqn:Hf.
      + right. split; [|done]. intros [?|(y & Hy & _)]; discriminate.
      + destruct (PyFloat.le x (PyFloat.of_Z 0)) eqn:Hle.
        * left. split; [|done]. right. eauto.
        * right. split; [|done].
          intros [?|(y & Hy & Hle')]; [discriminate|].
          injection Hy as <-. congruence.
    - left. split; [by left|done]. }
  destruct Hcase as [[Hc Hst]|[Hc Hst]]; rewrite Hst; repeat split; try done.
  intros Ht [e He]. destruct Hc as [Hc|(x & Hx & _)]; congruence.
Qed.

(** C5, as the code has it: the score is coerced with [float]; a missing
    score counts as 0 and gives an [unmatched] result, a value [float]
    accepts is taken as it converts, and a value [float] rejects (a
    non-numeric string, [None]) gives an [error] result with score 0 that
    carries the message of the exception. *)
Theorem C5_score_coercion
    (ai_result : Judgment.t) (filtered_stock : list Candidate.t)
    (rfp_features : features) :
  let r := _enhance_ai_result float_error_text ai_result filtered_stock rfp_features in
  match Judgment.match_score ai_result with
  | None =>
      Result.match_score r = PyFloat.of_Z 0 /\ Result.status r = Unmatched
  | Some v =>
      match py_float float_error_text v with
      | inr x => Result.match_score r = x
      | inl e =>
          Result.status r = Error
          /\ Result.match_score r = PyFloat.of_Z 0
          /\ Result.match_reason r =
             PyStr ("Error processing AI result: " +:+ exn_str e)
      end
  end.
Proof.
  unfold _enhance_ai_result.
  destruct (Judgment.match_score ai_result) as [v|]; simpl.
  - by destruct (py_float float_error_text v).
  - done.
Qed.

(** C9, as the code has it: the alternatives are those of the first three
    candidates of the filtered list whose product code differs from the
    judgment's, in rank order, each with its code, description and bucket
    score. Their number is the number of candidates among the first three
    (3, or the length of a shorter list) less the number of those that
    carry the judgment's code; so there are at most three, whatever
    follows the first three. *)
Theorem C9_alternatives_among_first_three
    (ai_result : Judgment.t) (filtered_stock : list Candidate.t)
    (rfp_features : features) (score : pyfloat) :
  coerced_score float_error_text ai_result = inr score ->
  let r := _enhance_ai_result float_error_text ai_result filtered_stock rfp_features in
  let kept :=
    filter (fun c => code_is (judged_code ai_result) c = false)
           (take 3 filtered_stock) in
  Result.alternative_matches r = Some (alternative_of <$> kept)
  /\ length kept <= 3
  /\ length kept
     = 3 `min` length filtered_stock
       - length (filter (fun c => code_is (judged_code ai_result) c = true)
                   (take 3 filtered_stock))
  /\ kept `sublist_of` filtered_stock
  /\ Forall (fun c => code_of c ≠ judged_code ai_result) kept
  /\ Forall (fun c =>
       Alternative.product_code (alternative_of c)
         = get_str (StockItem.product_code (Candidate.item c))
       /\ Alternative.description (alternative_of c)
         = get_str (StockItem.description (Candidate.item c))
       /\ Alternative.bucket_score (alternative_of c) = Candidate.match_score c)
       kept.
Proof.
  intros Hs r kept. subst r kept. repeat split.
  - unfold coerced_score in Hs.
    unfold _enhance_ai_result. by rewrite Hs.
  - etrans; [apply length_filter|]. rewrite length_take. lia.
  - rewrite <- (length_take filtered_stock 3).
    generalize (take 3 filtered_stock) as l. intros l.
    induction l as [|c l IH]; [done|]. rewrite !filter_cons.
    destruct (code_is (judged_code ai_result) c) eqn:E.
    + rewrite decide_False by done. rewrite decide_True by done.
      cbn [length]. pose proof (length_filter
        (fun c => code_is (judged_code ai_result) c = true) l). lia.
    + rewrite decide_True by done. rewrite decide_False by done.
      cbn [length]. pose proof (length_filter
        (fun c => code_is (judged_code ai_result) c = true) l). lia.
  - etrans; [apply sublist_filter|apply sublist_take].
  - apply Forall_forall. intros c Hc.
    apply list_elem_of_filter in Hc as [Hc _]. by apply code_is_false.
  - apply Forall_forall. by intros c _.
Qed.

End Classifier.


(** The same judgment against the candidates the filter returns for the
    sample query, and a low score for a listed code with stock. *)
Example classify_unknown_code_and_low_score :
  Result.status (_enhance_ai_result sample_float_error_text (mk_judgment "X1" "85")
                   sample_candidates sample_features) = Unmatched
  /\ Result.status (_enhance_ai_result sample_float_error_text (mk_judgment "P1" "39.9")
                      sample_candidates sample_features) = Unmatched
  /\ Result.status (_enhance_ai_result sample_float_error_text (mk_judgment "P1" "40")
                      sample_candidates sample_features) = Matched.
Proof. repeat split; vm_compute; reflexivity. Qed.


(** C4 as stated fails: the entry matched by code A has an empty
    quantity, which converts to no number, and the status is [unavailable],
    not [matched]. *)
Lemma C4_counterexample :
  let r := _enhance_ai_result sample_float_error_text (mk_judgment "A" "85")
             sample_shortlist sample_features in
  find_matched (PyStr "A") sample_shortlist = Some (cand "A" "" 32)
  /\ ~ (Result.status r = Unavailable
        <-> quantity_parses_nonpositive sample_float_error_text (cand "A" "" 32))
  /\ Result.status r <> Matched.
Proof.
  assert (Hst : Result.status
                  (_enhance_ai_result sample_float_error_text (mk_judgment "A" "85")
                     sample_shortlist sample_features) = Unavailable)
    by (vm_compute; reflexivity).
  cbv zeta. rewrite Hst. split; [reflexivity|]. split; [|discriminate].
  intros [H _]. destruct (H eq_refl) as (v & x & Hv & Hx & _).
  injection Hv as <-. vm_compute in Hx. discriminate.
Qed.

(** C4 on the judgment with code C and score 85; the entry C has the
    quantity 0. *)
Lemma C4_unavailable_iff_quantity_counts_as_nonpositive_witness :
  let ai_result := mk_judgment "C" "85" in
  let item := cand "C" "0" 16 in
  let status :=
    Result.status (_enhance_ai_result sample_float_error_text ai_result
                     sample_shortlist sample_features) in
  let counts_as_nonpositive :=
    py_truthy (qty_of item) = false
    \/ exists x, py_float sample_float_error_text (qty_of item) = inr x
                 /\ PyFloat.le x (PyFloat.of_Z 0) = true in
  coerced_score sample_float_error_text ai_result = inr (PyFloat.of_Z 85)
  /\ PyFloat.ge (PyFloat.of_Z 85) (PyFloat.of_Z 40) = true
  /\ find_matched (judged_code ai_result) sample_shortlist = Some item
  /\ (status = Unavailable <-> counts_as_nonpositive)
  /\ (status = Matched <-> ~ counts_as_nonpositive)
  /\ (py_truthy (qty_of item) = true ->
      (exists e, py_float sample_float_error_text (qty_of item) = inl e) ->
      status = Matched).
Proof.
  intros ai_result item.
  assert (H1 : coerced_score sample_float_error_text ai_result
               = inr (PyFloat.of_Z 85)) by (vm_compute; reflexivity).
  assert (H2 : PyFloat.ge (PyFloat.of_Z 85) (PyFloat.of_Z 40) = true)
    by (vm_compute; reflexivity).
  assert (H3 : find_matched (judged_code ai_result) sample_shortlist = Some item)
    by (vm_compute; reflexivity).
  split; [exact H1|]. split; [exact H2|]. split; [exact H3|].
  exact (C4_unavailable_iff_quantity_counts_as_nonpositive
           sample_float_error_text ai_result sample_shortlist sample_features
           _ item H1 H2 H3).
Defined.

(** The four outcomes of the quantity test on the shortlist. *)
Example classify_by_quantity :
  (fun code => Result.status (_enhance_ai_result sample_float_error_text
                                (mk_judgment code "85") sample_shortlist sample_features))
    <$> ["A"; "B"; "C"; "D"]
  = [Unavailable; Matched; Unavailable; Matched].
Proof. vm_compute. reflexivity. Qed.

(** C5 as stated fails: a judgment whose score is the string abc gives
    an [error] result, where the score 0 gives [unmatched]. *)
Lemma C5_counterexample :
  let classify score :=
    Result.status (_enhance_ai_result sample_float_error_text
                     {| Judgment.matched_product_code := Some (PyStr "A");
                        Judgment.matched_description := Some (PyStr "");
                        Judgment.match_score := Some score;
                        Judgment.match_reason := Some (PyStr "") |}
                     sample_shortlist sample_features) in
  PyFloat.of_string "abc" = None
  /\ classify (PyStr "abc") = Error
  /\ classify (PyNum (PyFloat.of_Z 0)) = Unmatched
  /\ classify (PyStr "abc") <> classify (PyNum (PyFloat.of_Z 0)).
Proof. repeat split; try (vm_compute; reflexivity). vm_compute. discriminate. Qed.

(** C9 as stated fails: four candidates of the shortlist differ from the
    matched code A, the wording of the specification gives three
    alternatives, and
    the result holds two, those of ranks 2 and 3. *)
Lemma C9_counterexample :
  let r := _enhance_ai_result sample_float_error_text (mk_judgment "A" "85")
             sample_shortlist sample_features in
  length (filter (fun c => code_is (PyStr "A") c = false) sample_shortlist) = 4
  /\ length (spec_alternatives (PyStr "A") sample_shortlist) = 3
  /\ Result.alternative_matches r =
       Some [alternative_of (cand "B" "5" 25); alternative_of (cand "C" "0" 16)]
  /\ Result.alternative_matches r <> Some (spec_alternatives (PyStr "A") sample_shortlist).
Proof.
  repeat split; try (vm_compute; reflexivity).
  intros H. apply (f_equal (fmap length)) in H. vm_compute in H. discriminate.
Qed.

(** C9 on the judgment with code A and score 85. *)
Lemma C9_alternatives_among_first_three_witness :
  let ai_result := mk_judgment "A" "85" in
  let r := _enhance_ai_result sample_float_error_text ai_result
             sample_shortlist sample_features in
  let kept :=
    filter (fun c => code_is (judged_code ai_result) c = false)
           (take 3 sample_shortlist) in
  coerced_score sample_float_error_text ai_result = inr (PyFloat.of_Z 85)
  /\ Result.alternative_matches r = Some (alternative_of <$> kept)
  /\ length kept <= 3
  /\ length kept
     = 3 `min` length sample_shortlist
       - length (filter (fun c => code_is (judged_code ai_result) c = true)
                   (take 3 sample_shortlist))
  /\ kept `sublist_of` sample_shortlist
  /\ Forall (fun c => code_of c ≠ judged_code ai_result) kept
  /\ Forall (fun c =>
       Alternative.product_code (alternative_of c)
         = get_str (StockItem.product_code (Candidate.item c))
       /\ Alternative.description (alternative_of c)
         = get_str (StockItem.description (Candidate.item c))
       /\ Alternative.bucket_score (alternative_of c) = Candidate.match_score c)
       kept.
Proof.
  intros ai_result.
  assert (H1 : coerced_score sample_float_error_text ai_result
               = inr (PyFloat.of_Z 85)) by (vm_compute; reflexivity).
  split; [exact H1|].
  exact (C9_alternatives_among_first_three sample_float_error_text ai_result
           sample_shortlist sample_features _ H1).
Defined.

(** ** The batch *)

Section Batch.

Variable World : Type.
Variable get_stock_data : World -> list StockItem.t.
Variable match_rfp_item :
  World -> string -> list Candidate.t -> World * (exn + Judgment.t).
Variable float_error_text : pyval -> string.

#[local] Abbreviation single :=
  (process_single_rfp_item World get_stock_data match_rfp_item float_error_text).
#[local] Abbreviation one :=
  (process_one World get_stock_data match_rfp_item float_error_text).
#[local] Abbreviation loop :=
  (process_loop World get_stock_data match_rfp_item float_error_text).
#[local] Abbreviation batch :=
  (process_rfp_items World get_stock_data match_rfp_item float_error_text).

Lemma process_loop_app (l1 l2 : list string) (w : World) (i : nat)
    (acc : list Result.t) :
  loop w i (l1 ++ l2) acc =
  loop (loop w i l1 acc).1 (i + length l1) l2 (loop w i l1 acc).2.
Proof.
  revert w i acc. induction l1 as [|x l1 IH]; intros w i acc; simpl.
  - by rewrite Nat.add_0_r.
  - destruct (process_one _ _ _ _ w i x) as [w' r].
    rewrite IH. by rewrite Nat.add_succ_r.
Qed.

Lemma process_loop_acc (l : list string) (w : World) (i : nat)
    (acc : list Result.t) :
  exists rs, (loop w i l acc).2 = acc ++ rs /\ length rs = length l.
Proof.
  revert w i acc. induction l as [|x l IH]; intros w i acc; simpl.
  - exists []. by rewrite app_nil_r.
  - destruct (process_one _ _ _ _ w i x) as [w' r].
    destruct (IH w' (S i) (acc ++ [r])) as (rs & Hrs & Hlen).
    exists (r :: rs). split; [|by simpl; rewrite Hlen].
    by rewrite Hrs, <- app_assoc.
Qed.

(** What the loop body leaves for an item: the result of the item with
    its line and text, or the [error] result of the exception. *)
Lemma process_one_result (w : World) (i : nat) (rfp_item : string) :
  Result.line_number (one w i rfp_item).2 = Some (i + 1)
  /\ Result.original_rfp_item (one w i rfp_item).2 = Some rfp_item
  /\ match (single w rfp_item).2 with
     | inl e =>
         (one w i rfp_item).2 = error_result (i + 1) rfp_item e
         /\ Result.status (one w i rfp_item).2 = Error
         /\ Result.error_message (one w i rfp_item).2 = Some (exn_str e)
     | inr result =>
         (one w i rfp_item).2 = with_line (i + 1) rfp_item result
     end.
Proof.
  unfold process_one.
  destruct (process_single_rfp_item _ _ _ _ w rfp_item) as [w' [e|result]];
    simpl; done.
Qed.

(** C6: the batch returns one result per item, in the order of the items,
    the result at index [i] carrying line number [i + 1] and the text of
    the item; an exception raised while an item is processed becomes an
    [error] result with the message of the exception, and the loop goes
    on. The world an item is processed in is the one the items before it
    leave. *)
Theorem C6_batch_one_result_per_item (w : World) (rfp_items : list string) :
  let results := (batch w rfp_items).2 in
  length results = length rfp_items
  /\ forall i : nat,
       match rfp_items !! i with
       | None => results !! i = None
       | Some rfp_item =>
           let w_i := (batch w (take i rfp_items)).1 in
           exists r,
             results !! i = Some r
             /\ Result.line_number r = Some (i + 1)
             /\ Result.original_rfp_item r = Some rfp_item
             /\ match (single w_i rfp_item).2 with
                | inl e =>
                    Result.status r = Error
                    /\ Result.error_message r = Some (exn_str e)
                    /\ Result.match_reason r
                       = PyStr ("Processing error: " +:+ exn_str e)
                | inr result => r = with_line (i + 1) rfp_item result
                end
       end.
Proof.
  intros results. subst results. unfold process_rfp_items.
  destruct (process_loop_acc rfp_items w 0 []) as (rs & Hrs & Hlen).
  split; [by rewrite Hrs|].
  intros i. destruct (rfp_items !! i) as [rfp_item|] eqn:Hi.
  - set (w_i := (loop w 0 (take i rfp_items) []).1).
    pose proof (take_drop_middle _ _ _ Hi) as Hsplit.
    assert (Hlt : i < length rfp_items) by (by eapply lookup_lt_Some).
    assert (Hpre : length (take i rfp_items) = i) by (rewrite length_take; lia).
    assert (Heq : loop w 0 rfp_items [] =
                  loop w 0 (take i rfp_items ++ rfp_item :: drop (S i) rfp_items) [])
      by (by rewrite Hsplit).
    rewrite Heq, process_loop_app, Hpre. simpl.
    fold w_i.
    destruct (process_loop_acc (take i rfp_items) w 0 []) as (pre & Hpre' & Hlpre).
    rewrite Hpre'. simpl.
    destruct (process_one _ _ _ _ w_i i rfp_item) as [w' r] eqn:Hone.
    destruct (process_loop_acc (drop (S i) rfp_items) w' (S i) (pre ++ [r]))
      as (post & Hpost & _).
    simpl in *. rewrite Hpost.
    exists r. split.
    { rewrite <- app_assoc. rewrite lookup_app_r by lia.
      rewrite Hlpre, Hpre, Nat.sub_diag. done. }
    pose proof (process_one_result w_i i rfp_item) as (Hl & Ho & Hm).
    rewrite Hone in Hl, Ho, Hm. simpl in *.
    split; [done|]. split; [done|].
    destruct (process_single_rfp_item _ _ _ _ w_i rfp_item).2 as [e|result].
    + destruct Hm as (-> & _). done.
    + done.
  - apply lookup_ge_None in Hi. apply lookup_ge_None. rewrite Hrs. simpl. lia.
Qed.

End Batch.

(** ** The summary *)

Lemma round_half_even_bounds (x : Q) :
  (x - (1 # 2) <= inject_Z (round_half_even x)
   /\ inject_Z (round_half_even x) <= x + (1 # 2))%Q.
Proof.
  unfold round_half_even.
  pose proof (Qfloor_le x) as Hlo. pose proof (Qlt_floor x) as Hhi.
  rewrite inject_Z_plus in Hhi. change (inject_Z 1) with 1%Q in Hhi.
  destruct (Qlt_bool (x - inject_Z (Qfloor x)) (1 # 2)) eqn:E1.
  - apply Qlt_bool_iff in E1. split; lra.
  - apply Qlt_bool_false in E1.
    destruct (Qlt_bool (1 # 2) (x - inject_Z (Qfloor x))) eqn:E2.
    + rewrite inject_Z_plus. change (inject_Z 1) with 1%Q. split; lra.
    + apply Qlt_bool_false in E2.
      destruct (Z.even (Qfloor x)).
      * split; lra.
      * rewrite inject_Z_plus. change (inject_Z 1) with 1%Q. split; lra.
Qed.

Lemma Qnat_add (a b : nat) : (Qnat (a + b) == Qnat a + Qnat b)%Q.
Proof. unfold Qnat. by rewrite Nat2Z.inj_add, inject_Z_plus. Qed.

(** Every result has one of the four statuses. *)
Lemma count_status_total (bom_data : list Result.t) :
  count_status Matched bom_data + count_status Unmatched bom_data
  + count_status Unavailable bom_data + count_status Error bom_data
  = length bom_data.
Proof.
  unfold count_status. induction bom_data as [|r l IH]; [done|].
  rewrite !filter_cons. simpl length. rewrite <- IH.
  destruct (Result.status r);
    repeat (first [rewrite decide_True by done | rewrite decide_False by done]);
    simpl; lia.
Qed.

Lemma percentage_pos (count total_items : nat) :
  0 < total_items ->
  percentage count total_items = tenths_text (pct_tenths count total_items) +:+ "%".
Proof.
  intros H. unfold percentage, format_1f, pct_tenths.
  by rewrite (proj2 (Nat.ltb_lt 0 total_items) H).
Qed.

(** *** The rounding of binary64 *)

Lemma pow2_pos (k : Z) : (0 < 2 ^ k)%Q.
Proof. apply Qpower_0_lt. reflexivity. Qed.

Lemma pow2_inject (n : Z) : (0 <= n)%Z -> (2 ^ n == inject_Z (2 ^ n))%Q.
Proof. intros H. rewrite Zpower_Qpower by exact H. reflexivity. Qed.

Lemma Q_as_ratio (q : Q) : (q == inject_Z (Qnum q) / inject_Z (Z.pos (Qden q)))%Q.
Proof. destruct q as [a b]. cbn [Qnum Qden]. rewrite Qmake_Qdiv. reflexivity. Qed.

(** [Qlog2] is not above the binary logarithm. *)
Lemma Qlog2_le (q : Q) : (0 < q)%Q -> (2 ^ Qlog2 q <= q)%Q.
Proof.
  intros Hq. unfold Qlog2.
  set (a := Qnum q). set (b := Z.pos (Qden q)).
  destruct (Qle_bool (2 ^ (Z.log2 a - Z.log2 b)) q) eqn:E; [by apply Qle_bool_iff|].
  assert (Ha : (0 < a)%Z).
  { subst a. destruct q as [n d]. unfold Qlt in Hq. cbn in *. lia. }
  assert (Hb : (0 < b)%Z) by (subst b; lia).
  destruct (Z.log2_spec a Ha) as [Ha1 _].
  destruct (Z.log2_spec b Hb) as [_ Hb2].
  pose proof (Z.log2_nonneg a) as Hla. pose proof (Z.log2_nonneg b) as Hlb.
  replace (Z.log2 a - Z.log2 b - 1)%Z with (Z.log2 a - Z.succ (Z.log2 b))%Z by lia.
  rewrite Qpower_minus by (intros H; discriminate H).
  rewrite (pow2_inject (Z.log2 a)), (pow2_inject (Z.succ (Z.log2 b))) by lia.
  rewrite (Q_as_ratio q). fold a b.
  assert (H1 : (inject_Z (2 ^ Z.log2 a) <= inject_Z a)%Q) by (rewrite <- Zle_Qle; exact Ha1).
  assert (H2 : (inject_Z b < inject_Z (2 ^ Z.succ (Z.log2 b)))%Q)
    by (rewrite <- Zlt_Qlt; exact Hb2).
  assert (H3 : (0 < inject_Z b)%Q) by (rewrite <- (Zlt_Qlt 0); exact Hb).
  assert (H4 : (0 < inject_Z (2 ^ Z.log2 a))%Q).
  { rewrite <- (Zlt_Qlt 0). apply Z.pow_pos_nonneg; lia. }
  revert H1 H2 H3 H4.
  generalize (inject_Z (2 ^ Z.log2 a)) as pa, (inject_Z a) as qa, (inject_Z b) as qb,
    (inject_Z (2 ^ Z.succ (Z.log2 b))) as pb.
  intros pa qa qb pb H1 H2 H3 H4.
  assert (H5 : (0 < pb)%Q) by lra.
  apply Qle_shift_div_l; [exact H3|].
  assert (E1 : (pa / pb * qb == pa * qb / pb)%Q) by (field; lra).
  rewrite E1. apply Qle_shift_div_r; [exact H5|]. nra.
Qed.

Lemma Qlog2_upper (q : Q) (E : Z) :
  (0 < q)%Q -> (q < 2 ^ (E + 1))%Q -> (Qlog2 q <= E)%Z.
Proof.
  intros Hq Hlt. pose proof (Qlog2_le q Hq) as Hle.
  assert (H : (2 ^ Qlog2 q < 2 ^ (E + 1))%Q) by lra.
  apply Qpower_lt_compat_l_inv in H; [lia|reflexivity].
Qed.

(** The rounding error is at most half a unit of the last place. *)
Lemma binary64_error (q : Q) (E : Z) :
  (0 <= q)%Q -> (q < 2 ^ (E + 1))%Q -> (-1074 <= E - 52)%Z ->
  (q - 2 ^ (E - 52) * (1 # 2) <= binary64 q
   /\ binary64 q <= q + 2 ^ (E - 52) * (1 # 2))%Q.
Proof.
  intros Hq Hlt HE. unfold binary64.
  pose proof (pow2_pos (E - 52)) as HpE.
  destruct (Qle_bool q 0) eqn:E0.
  { apply Qle_bool_iff in E0. revert HpE. generalize (2 ^ (E - 52))%Q as U.
    intros U HpE. clear Hlt. split; lra. }
  assert (Hpos : (0 < q)%Q).
  { apply Qnot_le_lt. intros H. apply Qle_bool_iff in H. congruence. }
  pose proof (Qlog2_upper q E Hpos Hlt) as He.
  set (k := Z.max (Qlog2 q - 52) (-1074)).
  assert (Hk : (k <= E - 52)%Z) by (subst k; lia).
  pose proof (pow2_pos k) as Hpk.
  assert (Hkle : (2 ^ k <= 2 ^ (E - 52))%Q).
  { apply Qpower_le_compat_l; [exact Hk|]. discriminate. }
  destruct (round_half_even_bounds (q / 2 ^ k)) as [Lo Hi].
  assert (Eq : (q == q / 2 ^ k * 2 ^ k)%Q) by (field; lra).
  revert Lo Hi Eq Hpk Hkle HpE.
  generalize (inject_Z (round_half_even (q / 2 ^ k))) as r.
  generalize (q / 2 ^ k)%Q as x.
  generalize (2 ^ k)%Q as u.
  generalize (2 ^ (E - 52))%Q as U.
  intros U u x r Lo Hi Eq Hpk Hkle HpE. clear Hlt. split; nra.
Qed.

Lemma binary64_nonneg (q : Q) : (0 <= binary64 q)%Q.
Proof.
  unfold binary64. destruct (Qle_bool q 0) eqn:E0; [lra|].
  assert (Hpos : (0 < q)%Q).
  { apply Qnot_le_lt. intros H. apply Qle_bool_iff in H. congruence. }
  set (k := Z.max (Qlog2 q - 52) (-1074)).
  pose proof (pow2_pos k) as Hpk.
  destruct (round_half_even_bounds (q / 2 ^ k)) as [Lo _].
  assert (Hx : (0 < q / 2 ^ k)%Q) by (apply Qlt_shift_div_l; lra).
  assert (Hr : (0 <= inject_Z (round_half_even (q / 2 ^ k)))%Q).
  { rewrite <- (Zle_Qle 0).
    assert (H : (-1 < round_half_even (q / 2 ^ k))%Z); [|lia].
    rewrite Zlt_Qlt. change (inject_Z (-1)) with (-1)%Q. lra. }
  nra.
Qed.

(** The percentage the floats compute is within 1/64 of the exact one. *)
Lemma percent_value_error (count total_items : nat) :
  0 < total_items -> count <= total_items ->
  (Qnat count / Qnat total_items * 100 - (1 # 64) <= percent_value count total_items
   /\ percent_value count total_items <= Qnat count / Qnat total_items * 100 + (1 # 64))%Q.
Proof.
  intros Hpos Hle. unfold percent_value.
  pose proof (Qnat_pos total_items Hpos) as HT.
  pose proof (Qnat_le count total_items Hle) as Hct.
  assert (Hc : (0 <= Qnat count)%Q) by (unfold Qnat; rewrite <- (Zle_Qle 0); lia).
  set (q := (Qnat count / Qnat total_items)%Q).
  assert (Hq0 : (0 <= q)%Q).
  { subst q. apply Qle_shift_div_l; [exact HT|]. lra. }
  assert (Hq1 : (q <= 1)%Q).
  { subst q. apply Qle_shift_div_r; [exact HT|]. lra. }
  assert (P1 : (2 ^ (0 + 1) == 2)%Q) by (vm_compute; reflexivity).
  assert (P2 : (2 ^ (0 - 52) == 1 # 4503599627370496)%Q) by (vm_compute; reflexivity).
  assert (P3 : (2 ^ (6 + 1) == 128)%Q) by (vm_compute; reflexivity).
  assert (P4 : (2 ^ (6 - 52) == 1 # 70368744177664)%Q) by (vm_compute; reflexivity).
  destruct (binary64_error q 0 Hq0) as [L1 U1]; [rewrite P1; lra|lia|].
  rewrite P2 in L1, U1.
  pose proof (binary64_nonneg q) as Hr0.
  revert L1 U1 Hr0. generalize (binary64 q) as r. intros r L1 U1 Hr0.
  destruct (binary64_error (r * 100) 6) as [L2 U2]; [lra|rewrite P3; lra|lia|].
  rewrite P4 in L2, U2.
  revert L2 U2. generalize (binary64 (r * 100)) as v. intros v L2 U2.
  split; lra.
Qed.

Lemma pct_tenths_sum (a b c d total_items : nat) :
  0 < total_items -> a + b + c + d = total_items ->
  (998 <= pct_tenths a total_items + pct_tenths b total_items
          + pct_tenths c total_items + pct_tenths d total_items <= 1002)%Z.
Proof.
  intros Hpos Hsum. unfold pct_tenths.
  set (T := Qnat total_items).
  assert (HT : (0 < T)%Q) by (by apply Qnat_pos).
  assert (Hx : (Qnat a / T * 100 + Qnat b / T * 100
                + Qnat c / T * 100 + Qnat d / T * 100 == 100)%Q).
  { assert (HT' : (Qnat a + Qnat b + Qnat c + Qnat d == T)%Q).
    { subst T. rewrite <- Hsum. by rewrite !Qnat_add. }
    assert (HT0 : ~ (T == 0)%Q) by lra.
    transitivity ((Qnat a + Qnat b + Qnat c + Qnat d) / T * 100)%Q;
      [by field|]. rewrite HT'. by field. }
  destruct (percent_value_error a total_items Hpos) as [La Ua]; [lia|].
  destruct (percent_value_error b total_items Hpos) as [Lb Ub]; [lia|].
  destruct (percent_value_error c total_items Hpos) as [Lc Uc]; [lia|].
  destruct (percent_value_error d total_items Hpos) as [Ld Ud]; [lia|].
  fold T in La, Ua, Lb, Ub, Lc, Uc, Ld, Ud.
  revert Hx La Ua Lb Ub Lc Uc Ld Ud.
  generalize (Qnat a / T * 100)%Q as xa, (Qnat b / T * 100)%Q as xb,
    (Qnat c / T * 100)%Q as xc, (Qnat d / T * 100)%Q as xd.
  generalize (percent_value a total_items) as va, (percent_value b total_items) as vb,
    (percent_value c total_items) as vc, (percent_value d total_items) as vd.
  intros va vb vc vd xa xb xc xd Hx La Ua Lb Ub Lc Uc Ld Ud.
  destruct (round_half_even_bounds (va * 10)) as [Ra Sa].
  destruct (round_half_even_bounds (vb * 10)) as [Rb Sb].
  destruct (round_half_even_bounds (vc * 10)) as [Rc Sc].
  destruct (round_half_even_bounds (vd * 10)) as [Rd Sd].
  assert (H1 : (997 < round_half_even (va * 10) + round_half_even (vb * 10)
                      + round_half_even (vc * 10) + round_half_even (vd * 10))%Z).
  { rewrite Zlt_Qlt, !inject_Z_plus. change (inject_Z 997) with 997%Q. lra. }
  assert (H2 : (round_half_even (va * 10) + round_half_even (vb * 10)
                + round_half_even (vc * 10) + round_half_even (vd * 10) < 1003)%Z).
  { rewrite Zlt_Qlt, !inject_Z_plus. change (inject_Z 1003) with 1003%Q. lra. }
  lia.
Qed.

(** *** Results as items of [bom_data] *)

Lemma status_name_inj (s t : status) : status_name s = status_name t -> s = t.
Proof. destruct s, t; (done || discriminate). Qed.

Lemma confidence_name_inj (c d : confidence) :
  confidence_name c = confidence_name d -> c = d.
Proof. destruct c, d; (done || discriminate). Qed.

(** The count of a status text over the items of results is the count of
    the results of that status. *)
Lemma count_status_key_results (s : status) (bom_data : list Result.t) :
  count_status_key (status_name s) (bom_item <$> bom_data) = count_status s bom_data.
Proof.
  unfold count_status_key, count_status.
  induction bom_data as [|r l IH]; [done|].
  rewrite fmap_cons, !filter_cons.
  assert (H : key_is (status_name s) (BomItem.status (bom_item r)) = true
              <-> Result.status r = s).
  { unfold key_is, bom_item. cbn. rewrite bool_decide_eq_true. split.
    - apply status_name_inj.
    - by intros ->. }
  destruct (decide (Result.status r = s)) as [Hs|Hs].
  - rewrite decide_True by (by apply H). cbn [length]. by rewrite IH.
  - rewrite decide_False by (by rewrite H). done.
Qed.

Lemma count_confidence_key_results (c : confidence) (bom_data : list Result.t) :
  count_confidence_key (confidence_name c) (bom_item <$> bom_data)
  = count_confidence c bom_data.
Proof.
  unfold count_confidence_key, count_confidence.
  induction bom_data as [|r l IH]; [done|].
  rewrite fmap_cons, !filter_cons.
  assert (H : key_is (confidence_name c) (BomItem.confidence_level (bom_item r)) = true
              <-> Result.confidence_level r = Some c).
  { unfold key_is, bom_item. cbn.
    destruct (Result.confidence_level r) as [d|]; cbn.
    - rewrite bool_decide_eq_true. split.
      + intros E. by rewrite (confidence_name_inj _ _ E).
      + by intros [= ->].
    - split; discriminate. }
  destruct (decide (Result.confidence_level r = Some c)) as [Hs|Hs].
  - rewrite decide_True by (by apply H). cbn [length]. by rewrite IH.
  - rewrite decide_False by (by rewrite H). done.
Qed.

(** C7 as stated fails: on an empty collection the first row of the
    summary still reads 100.0%. *)
Lemma C7_counterexample :
  ~ Forall (fun row => SummaryRow.Percentage row = "0.0%") (_generate_bom_summary []).
Proof. intros H. apply Forall_cons in H as [H _]. vm_compute in H. discriminate. Qed.

(** C7, as the code has it: the row of the total always reads 100.0%.
    On an empty collection every other percentage reads 0.0%. Otherwise
    the four status percentages are numbers of tenths written with one
    decimal, each the share of its status as the floats compute it and
    the formatting rounds it, and they add up to between 99.8 and 100.2. *)
Theorem C7_summary_percentages (bom_data : list Result.t) :
  let rows := _generate_bom_summary (bom_item <$> bom_data) in
  let total_items := length bom_data in
  match total_items with
  | O =>
      SummaryRow.Percentage <$> rows
      = ["100.0%"; "0.0%"; "0.0%"; "0.0%"; "0.0%"; "0.0%"; "0.0%"; "0.0%"]
  | S _ =>
      let t s := pct_tenths (count_status s bom_data) total_items in
      SummaryRow.Percentage <$> take 5 rows
      = ["100.0%";
         tenths_text (t Matched) +:+ "%"; tenths_text (t Unmatched) +:+ "%";
         tenths_text (t Unavailable) +:+ "%"; tenths_text (t Error) +:+ "%"]
      /\ (998 <= t Matched + t Unmatched + t Unavailable + t Error <= 1002)%Z
  end.
Proof.
  intros rows total_items. subst rows total_items.
  destruct bom_data as [|r l]; [reflexivity|].
  set (bom := r :: l). cbn [length]. fold (length bom).
  assert (Hpos : 0 < length bom) by (simpl; lia).
  split.
  - unfold _generate_bom_summary. rewrite length_fmap.
    change "unmatched" with (status_name Unmatched).
    change "matched" with (status_name Matched).
    change "unavailable" with (status_name Unavailable).
    change "error" with (status_name Error).
    rewrite !count_status_key_results.
    cbn [take fmap list_fmap SummaryRow.Percentage].
    by rewrite !percentage_pos.
  - apply pct_tenths_sum; [done|apply count_status_total].
Qed.

(** Three results, one of each of three statuses: 33.3% each, 99.9% in
    all. *)
Example summary_thirds :
  percentage 1 3 = "33.3%" /\ percentage 2 3 = "66.7%" /\ percentage 1 8 = "12.5%".
Proof. repeat split; vm_compute; reflexivity. Qed.

(** Shares whose digits show the rounding of the floats: 23 of 80 is
    28.75 exactly and prints 28.7, the float being just below; 1 of 2000
    is 0.05 exactly and prints 0.1, the float being just above. *)
Example summary_float_digits :
  percentage 23 80 = "28.7%" /\ percentage 1 2000 = "0.1%".
Proof. repeat split; vm_compute; reflexivity. Qed.

(** ASCII case mapping. *)
Lemma upper_char_idemp (c : ascii) :
  Chars.upper_char (Chars.upper_char c) = Chars.upper_char c.
Proof. destruct c as [[] [] [] [] [] [] [] []]; reflexivity. Qed.

Lemma upper_lower_char (c : ascii) :
  Chars.upper_char (Chars.lower_char c) = Chars.upper_char c.
Proof. destruct c as [[] [] [] [] [] [] [] []]; reflexivity. Qed.

Lemma upper_upper (s : string) : upper (upper s) = upper s.
Proof.
  unfold upper. rewrite list_ascii_of_string_of_list_ascii, map_map.
  f_equal. apply map_ext. intros c. apply upper_char_idemp.
Qed.

Lemma upper_lower (s : string) : upper (lower s) = upper s.
Proof.
  unfold upper, lower. rewrite list_ascii_of_string_of_list_ascii, map_map.
  f_equal. apply map_ext. intros c. apply upper_lower_char.
Qed.

(** The features of a text are those of its upper-case form. *)
Lemma extract_via_upper (text : string) :
  extract_bucket_features text =
  foldl (fun (feats : gmap nat (list string)) '(bucket_num, bucket_def) =>
           let matches := bucket_matches (upper text) bucket_def in
           match matches with
           | [] => feats
           | _ :: _ => <[bucket_num := dedup_set matches]> feats
           end) ∅ bucket_definitions.
Proof. reflexivity. Qed.

(** X1: on ASCII text the features [extract_bucket_features] finds do not
    depend on the case of the letters: the text in upper case and the text
    in lower case give the features of the text itself. *)
Theorem X1_extract_case_insensitive (text : string) :
  isascii text = true ->
  extract_bucket_features (upper text) = extract_bucket_features text
  /\ extract_bucket_features (lower text) = extract_bucket_features text.
Proof.
  intros _. rewrite !extract_via_upper, upper_upper, upper_lower. done.
Qed.

(** Keys of the bucket table. *)
Lemma bucket_definitions_keys : fst <$> bucket_definitions = seq 1 11.
Proof. reflexivity. Qed.

Lemma dedup_set_NoDup (l : list string) : NoDup (dedup_set l).
Proof. unfold dedup_set. apply NoDup_elements. Qed.

Lemma dedup_set_nonempty (x : string) (l : list string) : dedup_set (x :: l) ≠ [].
Proof.
  unfold dedup_set. intros H. apply elements_empty_inv in H.
  apply leibniz_equiv in H. set_solver.
Qed.

Lemma dedup_set_elem (l : list string) (x : string) : x ∈ dedup_set l <-> x ∈ l.
Proof. unfold dedup_set. rewrite elem_of_elements. set_solver. Qed.

(** What the loop of the extraction keeps true of the map it builds. *)
Lemma extract_fold_inv (text_upper : string) (defs : list (nat * BucketDef.t))
    (feats0 : gmap nat (list string)) (b : nat) (l : list string) :
  foldl (fun (feats : gmap nat (list string)) '(bucket_num, bucket_def) =>
           let matches := bucket_matches text_upper bucket_def in
           match matches with
           | [] => feats
           | _ :: _ => <[bucket_num := dedup_set matches]> feats
           end) feats0 defs !! b = Some l ->
  feats0 !! b = Some l
  \/ (exists d, (b, d) ∈ defs /\ l = dedup_set (bucket_matches text_upper d)
                /\ l ≠ [] /\ NoDup l).
Proof.
  revert feats0. induction defs as [|[n d] defs IH]; intros feats0 H; cbn [foldl] in H.
  - by left.
  - apply IH in H as [H|(d' & Hin & Hl)].
    + destruct (bucket_matches text_upper d) as [|x m] eqn:E; [by left|].
      destruct (decide (n = b)) as [->|Hne].
      * rewrite lookup_insert_eq in H. injection H as <-.
        right. exists d. rewrite E. split; [by left|].
        split; [done|]. split; [apply dedup_set_nonempty|apply dedup_set_NoDup].
      * rewrite lookup_insert_ne in H by done. by left.
    + right. exists d'. split; [by right|done].
Qed.

(** X2: in the map [extract_bucket_features] returns every key is a bucket
    number from 1 to 11, and its list is not empty, has no duplicate and
    holds exactly the tokens the patterns of that bucket find in the text
    in upper case. *)
Theorem X2_extract_wellformed (text : string) :
  map_Forall (fun b l =>
                1 <= b <= 11 /\ l ≠ [] /\ NoDup l
                /\ exists d, bucket_def_of b = Some d
                             /\ forall x, x ∈ l <-> x ∈ bucket_matches (upper text) d)
             (extract_bucket_features text).
Proof.
  intros b l H. rewrite extract_via_upper in H.
  apply extract_fold_inv in H as [H|(d & Hin & -> & Hne & Hnd)]; [done|].
  assert (Hb : b ∈ seq 1 11).
  { rewrite <- bucket_definitions_keys. apply list_elem_of_fmap. by exists (b, d). }
  split; [apply list_elem_of_In, in_seq in Hb; lia|].
  split; [done|]. split; [done|].
  exists d. split; [|intros x; apply dedup_set_elem].
  clear Hne Hnd text.
  repeat (apply elem_of_cons in Hin as [Hin|Hin]; [injection Hin as -> ->; reflexivity|]).
  by apply elem_of_nil in Hin.
Qed.

(** *** The score *)

Lemma score_step_sym (q e : gmap nat (list string)) (t : Q) (b : nat) :
  score_step q e t b = score_step e q t b.
Proof.
  unfold score_step.
  destruct (q !! b) as [ql|], (e !! b) as [el|]; try done.
  destruct (bucket_def_of b); [|done].
  by rewrite (comm_L (∩) (to_set ql)), (Nat.max_comm (size (to_set ql))).
Qed.

Lemma foldl_ext_in {A B} (f g : A -> B -> A) (l : list B) (a : A) :
  (forall a b, f a b = g a b) -> foldl f a l = foldl g a l.
Proof.
  intros H. revert a. induction l as [|x l IH]; intros a; simpl; [done|].
  by rewrite H, IH.
Qed.

(** X3: the score is symmetric: the features of the query and those of the
    entry can be swapped. *)
Theorem X3_score_symmetric (q e : gmap nat (list string)) :
  _calculate_match_score q e = _calculate_match_score e q.
Proof.
  unfold _calculate_match_score. apply foldl_ext_in. intros t b.
  apply score_step_sym.
Qed.

(** Only the token sets count, not the lists that hold them. *)
Lemma score_step_sets (q q' e : gmap nat (list string)) (t : Q) (b : nat) :
  to_set <$> q !! b = to_set <$> q' !! b ->
  score_step q e t b = score_step q' e t b.
Proof.
  unfold score_step. intros H.
  destruct (q !! b) as [ql|], (q' !! b) as [ql'|]; try done.
  injection H as H. destruct (e !! b) as [el|]; [|done].
  destruct (bucket_def_of b); [|done]. by rewrite H.
Qed.

(** X4: the score depends on the sets of tokens only: feature maps that hold
    the same set of tokens in every bucket score alike, whatever the order
    and the repeats in their lists. *)
Theorem X4_score_depends_on_token_sets (q q' e e' : gmap nat (list string)) :
  (forall b, to_set <$> q !! b = to_set <$> q' !! b) ->
  (forall b, to_set <$> e !! b = to_set <$> e' !! b) ->
  _calculate_match_score q e = _calculate_match_score q' e'.
Proof.
  intros Hq He. transitivity (_calculate_match_score q' e).
  - unfold _calculate_match_score. apply foldl_ext_in. intros t b.
    by apply score_step_sets.
  - unfold _calculate_match_score. apply foldl_ext_in. intros t b.
    rewrite (score_step_sym q' e), (score_step_sym q' e').
    by apply score_step_sets.
Qed.

Lemma spec_weight_nonneg (b : nat) : (0 <= spec_weight b)%Q.
Proof.
  unfold spec_weight. destruct (_ && _); [done|]. by destruct (_ && _).
Qed.

Lemma bucket_set_nonempty_some (f : gmap nat (list string)) (b : nat) :
  bucket_set f b ≠ ∅ -> is_Some (f !! b).
Proof.
  unfold bucket_set. destruct (f !! b); [eauto|]. simpl. intros H. by destruct H.
Qed.

Lemma spec_counts_self (q : gmap nat (list string)) (b : nat) :
  spec_counts q q b = has_tokens q b.
Proof.
  unfold spec_counts, has_tokens. rewrite (idemp_L (∩)).
  destruct (decide (bucket_set q b ≠ ∅)) as [H|H].
  - rewrite !bool_decide_eq_true_2; [done..|]. by apply bucket_set_nonempty_some.
  - rewrite (bool_decide_eq_false_2 (bucket_set q b ≠ ∅)) by done.
    by rewrite andb_false_r.
Qed.

Lemma spec_counts_has_tokens (q e : gmap nat (list string)) (b : nat) :
  spec_counts q e b = true -> has_tokens q b = true.
Proof.
  unfold spec_counts, has_tokens. rewrite !andb_true_iff, !bool_decide_eq_true.
  intros [_ H]. set_solver.
Qed.

Lemma size_pos_of_nonempty (X : gset string) : X ≠ ∅ -> 0 < size X.
Proof.
  intros H. pose proof (size_pos_nonempty X) as Hs.
  rewrite bool_decide_eq_true_2 in Hs by done. by apply Nat.ltb_lt.
Qed.

Lemma spec_term_self (q : gmap nat (list string)) (b : nat) :
  has_tokens q b = true -> (spec_term q q b == spec_weight b)%Q.
Proof.
  unfold has_tokens, spec_term. rewrite bool_decide_eq_true. intros H.
  rewrite (idemp_L (∩)), Nat.max_id.
  apply size_pos_of_nonempty, Qnat_pos in H.
  field. lra.
Qed.

Lemma spec_term_le_weight (q e : gmap nat (list string)) (b : nat) :
  spec_counts q e b = true -> (spec_term q e b <= spec_weight b)%Q.
Proof.
  unfold spec_counts, spec_term. rewrite !andb_true_iff, !bool_decide_eq_true.
  intros [_ H]. apply size_pos_of_nonempty in H.
  destruct (ratio_bounds _ _ H (overlap_le_max q e b)) as [H0 H1].
  pose proof (spec_weight_nonneg b) as Hw.
  set (r := (Qnat _ / Qnat _)%Q) in *. nra.
Qed.

Lemma self_score_sum (q : gmap nat (list string)) (l : list nat) :
  (Qsum (spec_term q q <$> filter (fun b => spec_counts q q b = true) l)
   == Qsum (spec_weight <$> filter (fun b => has_tokens q b = true) l))%Q.
Proof.
  induction l as [|b l IH]; [done|].
  rewrite !filter_cons, spec_counts_self.
  destruct (decide (has_tokens q b = true)) as [H|H]; [|done].
  rewrite !fmap_cons. cbn [Qsum]. by rewrite IH, spec_term_self.
Qed.

Lemma score_le_self_sum (q e : gmap nat (list string)) (l : list nat) :
  (Qsum (spec_term q e <$> filter (fun b => spec_counts q e b = true) l)
   <= Qsum (spec_weight <$> filter (fun b => has_tokens q b = true) l))%Q.
Proof.
  induction l as [|b l IH]; [done|].
  rewrite !filter_cons.
  destruct (decide (spec_counts q e b = true)) as [H|H].
  - rewrite (decide_True (P := has_tokens q b = true))
      by (by eapply spec_counts_has_tokens).
    rewrite !fmap_cons. cbn [Qsum].
    pose proof (spec_term_le_weight q e b H). lra.
  - destruct (decide (has_tokens q b = true)); [|done].
    rewrite fmap_cons. cbn [Qsum]. pose proof (spec_weight_nonneg b). lra.
Qed.

(** X5: a feature map scores highest against itself: the score of [q] against
    [q] is the sum of the weights of the buckets [q] has tokens for, and no
    entry scores more against [q] than that. *)
Theorem X5_self_score_is_the_maximum (q e : gmap nat (list string)) :
  (_calculate_match_score q q
   == Qsum (spec_weight <$> filter (fun b => has_tokens q b = true) (seq 1 11)))%Q
  /\ (_calculate_match_score q e <= _calculate_match_score q q)%Q.
Proof.
  pose proof (calculate_match_score_spec q q) as Hqq.
  pose proof (calculate_match_score_spec q e) as Hqe.
  unfold spec_score in *.
  pose proof (self_score_sum q (seq 1 11)) as Hs.
  pose proof (score_le_self_sum q e (seq 1 11)) as Hl.
  split; lra.
Qed.

(** *** The explanation of a score *)

Lemma bucket_def_of_range (b : nat) : b ∈ seq 1 11 -> is_Some (bucket_def_of b).
Proof.
  intros Hb. apply list_elem_of_In, in_seq in Hb.
  do 12 (destruct b as [|b]; [try lia; try (by eexists)|]). lia.
Qed.

Lemma get_matched_buckets_spec (q e : gmap nat (list string)) :
  _get_matched_buckets q e =
  matched_bucket_of q e <$> filter (fun b => spec_counts q e b = true) (seq 1 11).
Proof.
  unfold _get_matched_buckets, bucket_range.
  match goal with |- foldl ?f [] _ = _ => set (F := f) end.
  enough (H : forall l acc, l ⊆ seq 1 11 ->
            foldl F acc l =
            acc ++ (matched_bucket_of q e <$>
                      filter (fun b => spec_counts q e b = true) l))
    by (by apply (H (seq 1 11) [])).
  induction l as [|b l IH]; intros acc Hl; cbn [foldl].
  - by rewrite filter_nil, fmap_nil, app_nil_r.
  - assert (Hb : b ∈ seq 1 11) by (apply Hl; left).
    rewrite IH by (intros x Hx; apply Hl; by right).
    rewrite filter_cons. subst F. cbv beta.
    destruct (bucket_def_of_range b Hb) as [d Hd]. rewrite Hd.
    assert (Hmb : forall ql el, q !! b = Some ql -> e !! b = Some el ->
              matched_bucket_of q e b =
              {| MatchedBucket.bucket_number := b;
                 MatchedBucket.bucket_name := BucketDef.name d;
                 MatchedBucket.priority := BucketDef.priority d;
                 MatchedBucket.matched_features := elements (to_set ql ∩ to_set el);
                 MatchedBucket.rfp_features := elements (to_set ql);
                 MatchedBucket.stock_features := elements (to_set el) |}).
    { intros ql el Hq He. unfold matched_bucket_of, bucket_set.
      by rewrite Hq, He, Hd. }
    unfold spec_counts, bucket_set.
    destruct (q !! b) as [ql|] eqn:Hq; simpl; [|done].
    destruct (e !! b) as [el|] eqn:He; simpl; [|done].
    destruct (decide (to_set ql ∩ to_set el ≠ ∅)) as [H|H].
    + rewrite !bool_decide_eq_true_2 by (done || eauto).
      rewrite decide_True by done.
      rewrite fmap_cons, <- app_assoc, (Hmb ql el) by done. done.
    + rewrite !(bool_decide_eq_false_2 (to_set ql ∩ to_set el ≠ ∅)) by done.
      by rewrite decide_False.
Qed.

Lemma bucket_contribution_term (q e : gmap nat (list string)) (b : nat) :
  b ∈ seq 1 11 ->
  bucket_contribution (matched_bucket_of q e b) = spec_term q e b.
Proof.
  intros Hb. unfold bucket_contribution, matched_bucket_of, spec_term. simpl.
  rewrite <- (weight_of_spec b Hb). unfold weight_of.
  destruct (bucket_def_of_range b Hb) as [d ->]. done.
Qed.

Lemma Qsum_nonneg (l : list Q) : Forall (fun x => (0 <= x)%Q) l -> (0 <= Qsum l)%Q.
Proof. induction 1; simpl; [done|lra]. Qed.

Lemma Qsum_pos (x : Q) (l : list Q) :
  (0 < x)%Q -> Forall (fun x => (0 <= x)%Q) l -> (0 < Qsum (x :: l))%Q.
Proof. intros Hx Hl. apply Qsum_nonneg in Hl. simpl. lra. Qed.

Lemma spec_term_pos (q e : gmap nat (list string)) (b : nat) :
  b ∈ seq 1 11 -> spec_counts q e b = true -> (0 < spec_term q e b)%Q.
Proof.
  intros Hb. unfold spec_counts, spec_term.
  rewrite !andb_true_iff, !bool_decide_eq_true.
  intros [_ H]. apply size_pos_of_nonempty in H.
  destruct (ratio_bounds _ _ H (overlap_le_max q e b)) as [H0 H1].
  assert (Hw : (2 <= spec_weight b)%Q).
  { unfold spec_weight. destruct (_ && _); [done|]. by destruct (_ && _). }
  set (r := (Qnat _ / Qnat _)%Q) in *. nra.
Qed.

(** X6: [_get_matched_buckets] explains the score. Its entries are the
    buckets, in ascending order, where query and entry share a token; the
    score is the sum over the entries of the weight of the priority times
    the number of shared tokens over the larger of the two token counts; the
    score is positive exactly when the list is not empty; in each entry the
    shared tokens are not empty and are among the tokens of both sides, and
    name and priority are those of the bucket table. *)
Theorem X6_matched_buckets_explain_score (q e : gmap nat (list string)) :
  let mbs := _get_matched_buckets q e in
  MatchedBucket.bucket_number <$> mbs
    = filter (fun b => spec_counts q e b = true) (seq 1 11)
  /\ (_calculate_match_score q e == Qsum (bucket_contribution <$> mbs))%Q
  /\ ((0 < _calculate_match_score q e)%Q <-> mbs ≠ [])
  /\ Forall (fun mb =>
       MatchedBucket.matched_features mb ≠ []
       /\ MatchedBucket.matched_features mb ⊆ MatchedBucket.rfp_features mb
       /\ MatchedBucket.matched_features mb ⊆ MatchedBucket.stock_features mb
       /\ BucketDef.name <$> bucket_def_of (MatchedBucket.bucket_number mb)
          = Some (MatchedBucket.bucket_name mb)
       /\ BucketDef.priority <$> bucket_def_of (MatchedBucket.bucket_number mb)
          = Some (MatchedBucket.priority mb))
       mbs.
Proof.
  intros mbs. subst mbs. rewrite get_matched_buckets_spec.
  pose proof (calculate_match_score_spec q e) as Hs. unfold spec_score in Hs.
  set (l := filter (fun b => spec_counts q e b = true) (seq 1 11)) in *.
  assert (Hl : Forall (fun b => b ∈ seq 1 11 /\ spec_counts q e b = true) l).
  { apply Forall_forall. intros b Hb. subst l.
    apply list_elem_of_filter in Hb as [? ?]. done. }
  assert (Hterms : bucket_contribution <$> (matched_bucket_of q e <$> l)
                   = spec_term q e <$> l).
  { rewrite <- list_fmap_compose. apply Forall_fmap_ext_1.
    eapply Forall_impl; [exact Hl|]. intros b [Hb _]. simpl.
    by apply bucket_contribution_term. }
  split; [|split; [|split]].
  - rewrite <- list_fmap_compose. by rewrite list_fmap_id.
  - by rewrite Hterms.
  - rewrite Hs. destruct l as [|b l']; cbn [fmap list_fmap Qsum].
    + split; [intros H0; exfalso; lra|intros H0; by destruct H0].
    + split; [done|intros _].
      apply Forall_cons in Hl as [[Hb Hc] Hl].
      pose proof (spec_term_pos q e b Hb Hc) as Hp.
      assert (0 <= Qsum (spec_term q e <$> l'))%Q; [|lra].
      apply Qsum_nonneg, Forall_fmap. eapply Forall_impl; [exact Hl|].
      intros b' [Hb' Hc']. simpl. by apply Qlt_le_weak, spec_term_pos.
  - apply Forall_fmap. eapply Forall_impl; [exact Hl|].
    intros b [Hb Hc]. simpl.
    unfold spec_counts in Hc. rewrite !andb_true_iff, !bool_decide_eq_true in Hc.
    destruct Hc as [_ Hne].
    split; [|split; [|split; [|split]]].
    + intros H. apply elements_empty_inv, leibniz_equiv in H. done.
    + intros x. rewrite !elem_of_elements. set_solver.
    + intros x. rewrite !elem_of_elements. set_solver.
    + by destruct (bucket_def_of_range b Hb) as [d ->].
    + by destruct (bucket_def_of_range b Hb) as [d ->].
Qed.

(** *** The filter *)

Lemma slice_to_all {A} (l : list A) (n : Z) :
  (Z.of_nat (length l) <= n)%Z -> slice_to l n = l.
Proof.
  intros H. unfold slice_to. rewrite (proj2 (Z.leb_le 0 n)) by lia.
  apply take_ge. lia.
Qed.

Lemma slice_to_sublist {A} (l : list A) (n : Z) : slice_to l n `sublist_of` l.
Proof. destruct (slice_to_take l n) as [k ->]. apply sublist_take. Qed.

Lemma score_items_length (q : gmap nat (list string)) (stock_data : list StockItem.t) :
  length (score_items q stock_data) <= length stock_data.
Proof. rewrite score_items_spec, length_fmap. apply length_filter. Qed.

Lemma insert_desc_filter (s : Q) (x : Candidate.t) (l : list Candidate.t) :
  filter (fun c => has_score s c = true) (insert_desc x l) = filter (fun c => has_score s c = true) (x :: l).
Proof.
  induction l as [|y l IH]; [done|]. cbn [insert_desc].
  destruct (Qlt_bool _ _) eqn:E; [|done].
  rewrite filter_cons, IH, !filter_cons.
  destruct (decide (has_score s x = true)) as [Hx|Hx]; [|done].
  destruct (decide (has_score s y = true)) as [Hy|Hy]; [|done].
  exfalso. unfold has_score in *.
  apply Qeq_bool_iff in Hx, Hy. apply Qlt_bool_iff in E. lra.
Qed.

Lemma sort_desc_stable (s : Q) (l : list Candidate.t) :
  filter (fun c => has_score s c = true) (sort_desc l) = filter (fun c => has_score s c = true) l.
Proof.
  induction l as [|x l IH]; [done|]. cbn [sort_desc foldr].
  fold (sort_desc l). by rewrite insert_desc_filter, !filter_cons, IH.
Qed.

(** X7: [filter_stock_by_buckets] only drops entries: its result is, up to
    order, a part of the scored entries of positive score, it is never
    longer than the catalog, and it is all of them once [max_results] is at
    least their number. *)
Theorem X7_filter_complete_when_not_cut (q : gmap nat (list string))
    (stock_data : list StockItem.t) (max_results : Z) :
  let all := scored q <$> filter (fun e => Qlt_bool 0 (item_score q e) = true) stock_data in
  let out := filter_stock_by_buckets q stock_data max_results in
  out ⊆+ all
  /\ length out <= length stock_data
  /\ ((Z.of_nat (length all) <= max_results)%Z -> out ≡ₚ all).
Proof.
  intros all out. subst all out. unfold filter_stock_by_buckets.
  rewrite <- score_items_spec.
  split; [|split].
  - etrans; [apply sublist_submseteq, slice_to_sublist|].
    by rewrite sort_desc_perm.
  - etrans; [apply sublist_length, slice_to_sublist|].
    rewrite sort_desc_perm. apply score_items_length.
  - intros H. rewrite slice_to_all; [apply sort_desc_perm|].
    by rewrite sort_desc_perm.
Qed.

Lemma has_score_scored (q : gmap nat (list string)) (s : Q) (e : StockItem.t) :
  has_score s (scored q e) = Qeq_bool (item_score q e) s.
Proof. unfold has_score. by rewrite scored_score. Qed.

Lemma filter_sub {A} (P Q : A -> Prop) {DP : forall x, Decision (P x)}
    {DQ : forall x, Decision (Q x)} (l : list A) :
  (forall x, x ∈ l -> P x -> Q x) -> filter P (filter Q l) = filter P l.
Proof.
  intros H. induction l as [|x l IH]; [done|].
  rewrite !filter_cons.
  assert (IH' : filter P (filter Q l) = filter P l).
  { apply IH. intros y Hy. apply H. by right. }
  destruct (decide (Q x)) as [Hq|Hq].
  - rewrite filter_cons. by rewrite IH'.
  - rewrite IH'. destruct (decide (P x)) as [Hp|Hp]; [|done].
    exfalso. apply Hq, H; [by left|done].
Qed.

(** The candidates of score [s], when nothing is cut. *)
Lemma filter_score_class (q : features) (stock_data : list StockItem.t)
    (max_results : Z) (s : Q) :
  (Z.of_nat (length stock_data) <= max_results)%Z ->
  filter (fun c => has_score s c = true) (filter_stock_by_buckets q stock_data max_results)
  = scored q <$>
      filter (fun e => Qlt_bool 0 (item_score q e) = true
                       /\ Qeq_bool (item_score q e) s = true) stock_data.
Proof.
  intros H. unfold filter_stock_by_buckets.
  rewrite slice_to_all.
  2:{ rewrite sort_desc_perm. pose proof (score_items_length q stock_data). lia. }
  rewrite sort_desc_stable, score_items_spec.
  clear H. induction stock_data as [|e l IH]; [done|].
  rewrite !filter_cons.
  destruct (decide (Qlt_bool 0 (item_score q e) = true)) as [Hp|Hp].
  - rewrite fmap_cons, filter_cons, has_score_scored.
    destruct (decide (Qeq_bool (item_score q e) s = true)) as [Hs|Hs].
    + rewrite decide_True by done. by rewrite fmap_cons, IH.
    + rewrite decide_False by (by intros [_ ?]). done.
  - rewrite decide_False by (by intros [? _]). done.
Qed.

Lemma candidate_features_scored (q : features) (e : StockItem.t) :
  candidate_features (scored q e) = extract_bucket_features (stock_text e).
Proof. unfold candidate_features. by rewrite scored_item. Qed.

(** X8: entries of equal features keep the order of the catalog. Entries
    from which the same features are extracted get the same score, so the
    sort cannot part them: when [max_results] is at least the size of the
    catalog, the candidates of features [f] are the catalog entries of
    features [f] and positive score, in catalog order, wherever the sort
    puts the entries that score otherwise. *)
Theorem X8_filter_ties_keep_catalog_order (q : features)
    (stock_data : list StockItem.t) (max_results : Z) (f : features) :
  (Z.of_nat (length stock_data) <= max_results)%Z ->
  filter (fun c => candidate_features c = f)
    (filter_stock_by_buckets q stock_data max_results)
  = scored q <$>
      filter (fun e => Qlt_bool 0 (item_score q e) = true
                       /\ extract_bucket_features (stock_text e) = f) stock_data.
Proof.
  intros H.
  set (s := _calculate_match_score q f).
  rewrite <- (filter_sub _ (fun c => has_score s c = true)).
  2:{ intros c Hc Hf.
      assert (HF : Forall (fun c => candidate_features c = f -> has_score s c = true)
                     (filter_stock_by_buckets q stock_data max_results)).
      { apply filter_stock_Forall, Forall_forall. intros e _ _ He.
        rewrite candidate_features_scored in He. rewrite has_score_scored.
        unfold item_score. rewrite He. apply Qeq_bool_iff. reflexivity. }
      rewrite Forall_forall in HF. by apply HF. }
  rewrite (filter_score_class q stock_data max_results s H).
  clear H. induction stock_data as [|e l IH]; [done|].
  rewrite !filter_cons.
  destruct (decide (Qlt_bool 0 (item_score q e) = true)) as [Hp|Hp].
  - destruct (decide (extract_bucket_features (stock_text e) = f)) as [Hf|Hf].
    + rewrite decide_True.
      2:{ split; [done|]. unfold item_score. rewrite Hf. apply Qeq_bool_iff. reflexivity. }
      rewrite decide_True by done.
      rewrite !fmap_cons, filter_cons, candidate_features_scored.
      rewrite decide_True by done. by rewrite IH.
    + rewrite (decide_False (P := _ /\ extract_bucket_features (stock_text e) = f))
        by (by intros [_ ?]).
      destruct (decide (Qlt_bool 0 (item_score q e) = true
                        /\ Qeq_bool (item_score q e) s = true)) as [Hs|Hs].
      * rewrite fmap_cons, filter_cons, candidate_features_scored.
        rewrite decide_False by done. exact IH.
      * exact IH.
  - rewrite !decide_False by (by intros [? _]). exact IH.
Qed.

Lemma determine_status_not_error (txt : pyval -> string) (s : pyfloat)
    (m : option Candidate.t) :
  _determine_match_status txt s m ≠ Error.
Proof.
  unfold _determine_match_status. destruct (PyFloat.lt _ _); [done|].
  destruct m as [item|]; [|done].
  destruct (quantity_of txt item) as [x|]; [|done].
  by destruct (PyFloat.le _ _).
Qed.

Lemma determine_status_found (txt : pyval -> string) (s : pyfloat)
    (m : option Candidate.t) :
  _determine_match_status txt s m ≠ Unmatched ->
  PyFloat.lt s (PyFloat.of_Z 40) = false /\ exists item, m = Some item.
Proof.
  unfold _determine_match_status.
  change low_confidence_threshold with (PyFloat.of_Z 40).
  destruct (PyFloat.lt _ _); [done|]. destruct m as [item|]; [eauto|done].
Qed.

Lemma confidence_very_low (s : pyfloat) :
  _get_confidence_level s = ConfVeryLow <->
  PyFloat.lt s (PyFloat.of_Z 40) = true \/ s = NaN.
Proof.
  unfold _get_confidence_level, high_confidence_threshold,
    medium_confidence_threshold, low_confidence_threshold,
    PyFloat.ge, PyFloat.le, PyFloat.lt, PyFloat.of_Z.
  destruct s as [x| | |]; simpl.
  - destruct (Qle_bool (inject_Z 80) x) eqn:E80.
    { apply Qle_bool_iff in E80. split; [done|]. intros [H|H]; [|done].
      apply Qlt_bool_iff in H. change (inject_Z 80) with 80%Q in E80.
      change (inject_Z 40) with 40%Q in H. lra. }
    destruct (Qle_bool (inject_Z 60) x) eqn:E60.
    { apply Qle_bool_iff in E60. split; [done|]. intros [H|H]; [|done].
      apply Qlt_bool_iff in H. change (inject_Z 60) with 60%Q in E60.
      change (inject_Z 40) with 40%Q in H. lra. }
    destruct (Qle_bool (inject_Z 40) x) eqn:E40.
    { apply Qle_bool_iff in E40. split; [done|]. intros [H|H]; [|done].
      apply Qlt_bool_iff in H. lra. }
    split; [intros _; left|done].
    apply Qlt_bool_iff. apply Qnot_le_lt. intros H. apply Qle_bool_iff in H. congruence.
  - split; [done|]. intros [H|H]; done.
  - split; [intros _; by left|done].
  - split; [intros _; by right|done].
Qed.

Section ClassifierInvariants.

Variable float_error_text : pyval -> string.

Lemma enhance_fields (ai_result : Judgment.t) (filtered_stock : list Candidate.t)
    (rfp_features : gmap nat (list string)) (score : pyfloat) :
  coerced_score float_error_text ai_result = inr score ->
  let r := _enhance_ai_result float_error_text ai_result filtered_stock rfp_features in
  let m := find_matched (judged_code ai_result) filtered_stock in
  Result.status r = _determine_match_status float_error_text score m
  /\ Result.match_score r = score
  /\ Result.confidence_level r = Some (_get_confidence_level score)
  /\ Result.matched_stock_details r = Some m
  /\ Result.filtered_candidates r = Some (length filtered_stock)
  /\ Result.on_hand_quantity r =
     Some match m with
          | Some item => default (PyFloat.of_Z 0) (quantity_of float_error_text item)
          | None => PyFloat.of_Z 0
          end.
Proof.
  unfold coerced_score, _enhance_ai_result, judged_code. intros ->. done.
Qed.

(** X9: what the classifier keeps true when [float] accepts the score. The
    status is never error; a status other than unmatched means that the
    score is not below 40 and that the matched stock entry is the first
    candidate whose code is the code of the judgment, which is not empty; an
    unmatched status means a score below 40 or no matched entry; an
    unavailable status comes with a reported quantity of at most 0; without
    a matched entry the reported quantity is 0; and a result that is not
    unmatched, with a score that is a number, has confidence high, medium
    or low. *)
Theorem X9_classifier_invariants (ai_result : Judgment.t)
    (filtered_stock : list Candidate.t) (rfp_features : gmap nat (list string))
    (score : pyfloat) :
  coerced_score float_error_text ai_result = inr score ->
  let r := _enhance_ai_result float_error_text ai_result filtered_stock rfp_features in
  Result.status r ≠ Error
  /\ (Result.status r ≠ Unmatched ->
      PyFloat.lt score (PyFloat.of_Z 40) = false
      /\ exists item,
           Result.matched_stock_details r = Some (Some item)
           /\ List.find (code_is (judged_code ai_result)) filtered_stock = Some item
           /\ item ∈ filtered_stock
           /\ code_of item = judged_code ai_result
           /\ py_truthy (judged_code ai_result) = true)
  /\ (Result.status r = Unmatched ->
      PyFloat.lt score (PyFloat.of_Z 40) = true
      \/ Result.matched_stock_details r = Some None)
  /\ (Result.status r = Unavailable ->
      exists x, Result.on_hand_quantity r = Some x
                /\ PyFloat.le x (PyFloat.of_Z 0) = true)
  /\ (Result.matched_stock_details r = Some None ->
      Result.on_hand_quantity r = Some (PyFloat.of_Z 0))
  /\ (score ≠ NaN -> Result.status r ≠ Unmatched ->
      Result.confidence_level r = Some ConfHigh
      \/ Result.confidence_level r = Some ConfMedium
      \/ Result.confidence_level r = Some ConfLow).
Proof.
  intros Hs r.
  destruct (enhance_fields _ filtered_stock rfp_features _ Hs)
    as (Hst & Hsc & Hconf & Hm & Hn & Hq).
  fold r in Hst, Hsc, Hconf, Hm, Hn, Hq.
  set (m := find_matched (judged_code ai_result) filtered_stock) in *.
  assert (Hfound : Result.status r ≠ Unmatched ->
            PyFloat.lt score (PyFloat.of_Z 40) = false /\ exists item, m = Some item).
  { rewrite Hst. apply determine_status_found. }
  split; [rewrite Hst; apply determine_status_not_error|].
  split; [|split; [|split; [|split]]].
  - intros Hne. destruct (Hfound Hne) as [Hlt [item Hitem]].
    split; [done|]. exists item. rewrite Hm, Hitem.
    pose proof Hitem as Hitem'. subst m.
    apply find_matched_some in Hitem' as [Hin Hcode].
    unfold find_matched in Hitem.
    destruct (py_truthy (judged_code ai_result)); [done|discriminate].
  - intros Hu. rewrite Hst in Hu. rewrite Hm.
    unfold _determine_match_status in Hu.
    change low_confidence_threshold with (PyFloat.of_Z 40) in Hu.
    destruct (PyFloat.lt _ _); [by left|]. right.
    destruct m as [item|]; [|done]. exfalso.
    destruct (quantity_of float_error_text item) as [x|]; [|done].
    by destruct (PyFloat.le _ _).
  - intros Hu. rewrite Hst in Hu. rewrite Hq.
    unfold _determine_match_status in Hu.
    destruct (PyFloat.lt _ _); [done|]. destruct m as [item|]; [|done].
    destruct (quantity_of float_error_text item) as [x|]; [|done]. simpl.
    destruct (PyFloat.le x _) eqn:E; [eauto|done].
  - intros Hnone. rewrite Hm in Hnone. injection Hnone as Hnone.
    by rewrite Hq, Hnone.
  - intros Hnan Hne. destruct (Hfound Hne) as [Hlt _].
    rewrite Hconf.
    destruct (_get_confidence_level score) eqn:E; eauto.
    apply confidence_very_low in E as [E|E]; congruence.
Qed.

(** X10: the classifier answers error exactly when [float] rejects the score
    of the judgment. *)
Theorem X10_error_iff_score_rejected (ai_result : Judgment.t)
    (filtered_stock : list Candidate.t) (rfp_features : gmap nat (list string)) :
  Result.status (_enhance_ai_result float_error_text ai_result filtered_stock rfp_features)
    = Error
  <-> exists e, coerced_score float_error_text ai_result = inl e.
Proof.
  destruct (coerced_score float_error_text ai_result) as [e|s] eqn:Hs.
  - split; [eauto|intros _].
    unfold coerced_score in Hs. unfold _enhance_ai_result. by rewrite Hs.
  - split; [|intros [e [=]]]. intros H. exfalso.
    rewrite (enhance_status float_error_text _ _ _ _ Hs) in H.
    by apply determine_status_not_error in H.
Qed.

End ClassifierInvariants.

Lemma bucket_set_empty (b : nat) : bucket_set (∅ : gmap nat (list string)) b = ∅.
Proof. unfold bucket_set. by rewrite lookup_empty. Qed.

Lemma item_score_no_features (e : StockItem.t) : item_score ∅ e = 0%Q.
Proof.
  apply zero_overlap_score. unfold zero_overlap. apply Forall_forall.
  intros b _. rewrite bucket_set_empty. set_solver.
Qed.

Lemma filter_no_features (stock_data : list StockItem.t) (n : Z) :
  filter_stock_by_buckets ∅ stock_data n = [].
Proof.
  unfold filter_stock_by_buckets. rewrite score_items_spec.
  assert (H : filter (fun e => Qlt_bool 0 (item_score ∅ e) = true) stock_data = []).
  { induction stock_data as [|e l IH]; [done|].
    rewrite filter_cons, item_score_no_features. by rewrite decide_False. }
  rewrite H, fmap_nil. unfold slice_to, sort_desc. cbn [foldr].
  destruct (0 <=? n)%Z; apply take_nil.
Qed.

Lemma filter_no_stock (q : gmap nat (list string)) (n : Z) :
  filter_stock_by_buckets q [] n = [].
Proof.
  unfold filter_stock_by_buckets, slice_to, score_items, sort_desc. cbn [foldl foldr].
  destruct (0 <=? n)%Z; apply take_nil.
Qed.

Lemma filter_20_ok (q : gmap nat (list string)) (stock_data : list StockItem.t) :
  filter_stock_by_buckets q stock_data 20 = []
  \/ shortlist_ok (filter_stock_by_buckets q stock_data 20).
Proof.
  destruct (filter_stock_by_buckets q stock_data 20) as [|c l] eqn:E; [by left|].
  right. rewrite <- E. split; [by rewrite E|]. split; [|split].
  - pose proof (slice_to_length (sort_desc (score_items q stock_data)) 20) as H.
    unfold filter_stock_by_buckets. lia.
  - unfold filter_stock_by_buckets. apply slice_to_sorted, sort_desc_sorted.
  - apply filter_stock_Forall, Forall_forall. intros e _ Hpos.
    rewrite scored_score. split; [done|]. apply calculate_match_score_bounds.
Qed.

Section SingleItem.

Variable World : Type.
Variable get_stock_data : World -> list StockItem.t.
Variable float_error_text : pyval -> string.

(** X11: with an empty catalog, or a line in which no bucket pattern finds
    anything, [process_single_rfp_item] answers the unmatched result of the
    empty filter and leaves the world as it was: the matcher is not asked,
    whatever it is. *)
Theorem X11_no_candidates_skips_matcher
    (match_rfp_item : World -> string -> list Candidate.t -> World * (exn + Judgment.t))
    (w : World) (rfp_item : string) :
  get_stock_data w = [] \/ extract_bucket_features rfp_item = ∅ ->
  process_single_rfp_item World get_stock_data match_rfp_item float_error_text w rfp_item
  = (w, inr (no_candidates_result (extract_bucket_features rfp_item))).
Proof.
  intros H. unfold process_single_rfp_item.
  assert (Hf : filter_stock_by_buckets (extract_bucket_features rfp_item)
                 (get_stock_data w) 20 = []).
  { destruct H as [-> | ->]; [apply filter_no_stock|apply filter_no_features]. }
  by rewrite Hf.
Qed.

(** X12: the matcher is only ever asked about shortlists the filter can
    produce: not empty, of at most 20 candidates, sorted by score with the
    highest first, every score above 0 and at most 76. Two matchers that
    agree on such shortlists give the same result for every line. *)
Theorem X12_matcher_sees_valid_shortlists
    (m1 m2 : World -> string -> list Candidate.t -> World * (exn + Judgment.t)) :
  (forall w rfp_item cands, shortlist_ok cands ->
     m1 w rfp_item cands = m2 w rfp_item cands) ->
  forall w rfp_item,
    process_single_rfp_item World get_stock_data m1 float_error_text w rfp_item
    = process_single_rfp_item World get_stock_data m2 float_error_text w rfp_item.
Proof.
  intros H w rfp_item. unfold process_single_rfp_item.
  destruct (filter_20_ok (extract_bucket_features rfp_item) (get_stock_data w))
    as [Hnil|Hok].
  - by rewrite Hnil.
  - rewrite (H w rfp_item _ Hok).
    by destruct (filter_stock_by_buckets _ _ _).
Qed.

(** X13: whenever [process_single_rfp_item] returns a result, its
    [filtered_candidates] is a number of at most 20, and it is 0 only for the
    unmatched result of the empty filter. *)
Theorem X13_filtered_candidates_at_most_20
    (match_rfp_item : World -> string -> list Candidate.t -> World * (exn + Judgment.t))
    (w : World) (rfp_item : string) :
  match (process_single_rfp_item World get_stock_data match_rfp_item
           float_error_text w rfp_item).2 with
  | inr r =>
      exists n, Result.filtered_candidates r = Some n /\ n <= 20
                /\ (n = 0 -> r = no_candidates_result (extract_bucket_features rfp_item))
  | inl _ => True
  end.
Proof.
  unfold process_single_rfp_item.
  destruct (filter_20_ok (extract_bucket_features rfp_item) (get_stock_data w))
    as [Hnil|(Hne & Hlen & _)].
  - rewrite Hnil. simpl. exists 0. split; [done|]. split; [lia|done].
  - destruct (filter_stock_by_buckets _ _ _) as [|c l] eqn:E; [done|].
    destruct (match_rfp_item w rfp_item (c :: l)) as [w' [e|ai]]; simpl; [done|].
    exists (length (c :: l)). split.
    + unfold _enhance_ai_result. by destruct (py_float _ _).
    + split; [done|]. simpl. lia.
Qed.

End SingleItem.

Section EndpointProps.

Variable World : Type.
Variable get_stock_data : World -> list StockItem.t.
Variable match_rfp_item :
  World -> string -> list Candidate.t -> World * (exn + Judgment.t).
Variable float_error_text : pyval -> string.
Variable has_stock_data : World -> World * (exn + bool).

Lemma process_rfp_items_length (w : World) (rfp_items : list string) :
  length (process_rfp_items World get_stock_data match_rfp_item float_error_text
            w rfp_items).2 = length rfp_items.
Proof.
  unfold process_rfp_items.
  destruct (process_loop_acc World get_stock_data match_rfp_item float_error_text
              rfp_items w 0 []) as (rs & -> & Hlen).
  done.
Qed.


End EndpointProps.

Lemma length_filter_true_cons {A} (f : A -> bool) (x : A) (l : list A) :
  length (filter (fun y => f y = true) (x :: l))
  = (if f x then 1 else 0) + length (filter (fun y => f y = true) l).
Proof. rewrite filter_cons. by destruct (f x). Qed.

Lemma length_filter_false_cons {A} (f : A -> bool) (x : A) (l : list A) :
  length (filter (fun y => f y = false) (x :: l))
  = (if f x then 0 else 1) + length (filter (fun y => f y = false) l).
Proof. rewrite filter_cons. by destruct (f x). Qed.

(** The four status texts are distinct: an item counts in one status row
    at most, and in none when its status is not counted. *)
Lemma status_rows_partition (bom_data : list BomItem.t) :
  count_status_key "matched" bom_data + count_status_key "unmatched" bom_data
  + count_status_key "unavailable" bom_data + count_status_key "error" bom_data
  + length (filter (fun item => status_counted item = false) bom_data)
  = length bom_data.
Proof.
  unfold count_status_key. induction bom_data as [|item l IH]; [done|].
  rewrite !length_filter_true_cons, length_filter_false_cons. cbn [length].
  rewrite <- IH. unfold status_counted, key_is.
  destruct (BomItem.status item) as [v|]; unfold from_option, id; [|cbn; lia].
  destruct v as [|b|x|s]; cbn [py_eq]; [cbn; lia..|].
  destruct (decide (s = "matched")) as [->|H1];
    [repeat (first [rewrite bool_decide_eq_true_2 by done
                   |rewrite bool_decide_eq_false_2 by discriminate]); cbn; lia|].
  destruct (decide (s = "unmatched")) as [->|H2];
    [repeat (first [rewrite bool_decide_eq_true_2 by done
                   |rewrite bool_decide_eq_false_2 by discriminate]); cbn; lia|].
  destruct (decide (s = "unavailable")) as [->|H3];
    [repeat (first [rewrite bool_decide_eq_true_2 by done
                   |rewrite bool_decide_eq_false_2 by discriminate]); cbn; lia|].
  destruct (decide (s = "error")) as [->|H4];
    [repeat (first [rewrite bool_decide_eq_true_2 by done
                   |rewrite bool_decide_eq_false_2 by discriminate]); cbn; lia|].
  rewrite !(bool_decide_eq_false_2 (s = _)) by done.
  cbn. lia.
Qed.

Lemma confidence_rows_partition (bom_data : list BomItem.t) :
  count_confidence_key "high" bom_data + count_confidence_key "medium" bom_data
  + count_confidence_key "low" bom_data
  + length (filter (fun item => confidence_counted item = false) bom_data)
  = length bom_data.
Proof.
  unfold count_confidence_key. induction bom_data as [|item l IH]; [done|].
  rewrite !length_filter_true_cons, length_filter_false_cons. cbn [length].
  rewrite <- IH. unfold confidence_counted, key_is.
  destruct (BomItem.confidence_level item) as [v|]; unfold from_option, id; [|cbn; lia].
  destruct v as [|b|x|s]; cbn [py_eq]; [cbn; lia..|].
  destruct (decide (s = "high")) as [->|H1];
    [repeat (first [rewrite bool_decide_eq_true_2 by done
                   |rewrite bool_decide_eq_false_2 by discriminate]); cbn; lia|].
  destruct (decide (s = "medium")) as [->|H2];
    [repeat (first [rewrite bool_decide_eq_true_2 by done
                   |rewrite bool_decide_eq_false_2 by discriminate]); cbn; lia|].
  destruct (decide (s = "low")) as [->|H3];
    [repeat (first [rewrite bool_decide_eq_true_2 by done
                   |rewrite bool_decide_eq_false_2 by discriminate]); cbn; lia|].
  rewrite !(bool_decide_eq_false_2 (s = _)) by done.
  cbn. lia.
Qed.

(** The status of a result of the batch is always counted. *)
Lemma results_status_counted (r : Result.t) : status_counted (bom_item r) = true.
Proof. unfold status_counted, bom_item. by destruct (Result.status r). Qed.

(** X15: the rows of [_generate_bom_summary] are the eight metrics in their
    fixed order, for whatever items the request brings. The counts of the
    four status rows and the number of items whose status is none of the
    four texts add up to the total, and so do the counts of the three
    confidence rows and the number of items whose confidence level is none
    of the three texts; an item of status or confidence very low, unknown
    or missing is in no row. For the items the results of the batch make,
    every status is one of the four. *)
Theorem X15_summary_counts (bom_data : list BomItem.t) :
  let rows := _generate_bom_summary bom_data in
  SummaryRow.Metric <$> rows
    = ["Total Items"; "Matched Items"; "Unmatched Items"; "Unavailable Items";
       "Processing Errors"; "High Confidence Matches";
       "Medium Confidence Matches"; "Low Confidence Matches"]
  /\ (exists m u a e h md lo,
        SummaryRow.Count <$> rows = [length bom_data; m; u; a; e; h; md; lo]
        /\ m + u + a + e
           + length (filter (fun item => status_counted item = false) bom_data)
           = length bom_data
        /\ h + md + lo
           + length (filter (fun item => confidence_counted item = false) bom_data)
           = length bom_data)
  /\ (forall results : list Result.t,
        filter (fun item => status_counted item = false) (bom_item <$> results) = []).
Proof.
  intros rows. subst rows. split; [reflexivity|]. split.
  - eexists _, _, _, _, _, _, _. split; [reflexivity|].
    split; [apply status_rows_partition|apply confidence_rows_partition].
  - intros results. induction results as [|r l IH]; [done|].
    rewrite fmap_cons, filter_cons, results_status_counted.
    by rewrite decide_False.
Qed.

(** Three items, one matched, one of a status the summary does not know,
    one without status. *)
Example summary_of_foreign_items :
  let items := [ {| BomItem.status := Some (PyStr "matched"); BomItem.confidence_level := Some (PyStr "high") |};
                 {| BomItem.status := Some (PyStr "done"); BomItem.confidence_level := None |};
                 {| BomItem.status := None; BomItem.confidence_level := Some (PyStr "very_low") |} ] in
  SummaryRow.Count <$> _generate_bom_summary items = [3; 1; 0; 0; 0; 1; 0; 0]
  /\ SummaryRow.Percentage <$> take 5 (_generate_bom_summary items)
     = ["100.0%"; "33.3%"; "0.0%"; "0.0%"; "0.0%"].
Proof. repeat split; vm_compute; reflexivity. Qed.

Lemma mock_best_snoc r l x :
  mock_best r (l ++ [x]) = mock_step r (mock_best r l) x.
Proof. unfold mock_best. by rewrite foldl_app. Qed.

Lemma mock_best_spec r l :
  match mock_best r l with
  | (None, s) => s = 0 /\ Forall (fun e => mock_score r e = 0) l
  | (Some e, s) => s = mock_score r e /\ 0 < s /\ exists i, first_best r l i e
  end.
Proof.
  induction l as [|x l IH] using rev_ind.
  - cbn. split; [done|constructor].
  - rewrite mock_best_snoc. destruct (mock_best r l) as [[e|] s]; unfold mock_step; cbn [snd].
    + destruct IH as (-> & Hpos & i & Hi & Hmax & Hfirst).
      destruct (Nat.ltb_spec (mock_score r e) (mock_score r x)) as [Hlt|Hge].
      * split; [done|]. split; [lia|]. exists (length l). repeat split.
        -- by rewrite lookup_app_r, Nat.sub_diag by lia.
        -- apply Forall_app. split.
           ++ eapply Forall_impl; [exact Hmax|]. intros y Hy; cbv beta in Hy |- *; lia.
           ++ repeat constructor.
        -- intros k e' Hk He'. rewrite lookup_app_l in He' by lia.
           rewrite Forall_forall in Hmax. 
           assert (mock_score r e' <= mock_score r e) by (apply Hmax; eapply list_elem_of_lookup_2; eauto).
           lia.
      * split; [done|]. split; [done|]. exists i. repeat split.
        -- rewrite lookup_app_l; [done|]. by eapply lookup_lt_Some.
        -- apply Forall_app. split; [done|]. repeat constructor. lia.
        -- intros k e' Hk He'. apply (Hfirst k e' Hk).
           rewrite lookup_app_l in He'; [done|]. apply lookup_lt_Some in Hi. lia.
    + destruct IH as (-> & Hz).
      destruct (Nat.ltb_spec 0 (mock_score r x)) as [Hlt|Hge].
      * split; [done|]. split; [done|]. exists (length l). repeat split.
        -- by rewrite lookup_app_r, Nat.sub_diag by lia.
        -- apply Forall_app. split.
           ++ eapply Forall_impl; [exact Hz|]. intros y Hy; cbv beta in Hy |- *; lia.
           ++ repeat constructor.
        -- intros k e' Hk He'. rewrite lookup_app_l in He' by lia.
           rewrite Forall_forall in Hz.
           assert (mock_score r e' = 0) by (apply Hz; eapply list_elem_of_lookup_2; eauto).
           lia.
      * split; [done|]. apply Forall_app. split; [done|]. repeat constructor. lia.
Qed.

Lemma mock_match_cases iet line entries :
  let r := lower line in
  let out := _mock_match_rfp_item iet line entries in
  (Forall (fun e => mock_score r e <= 40) entries /\
   out = inr (mock_judgment "" "" "0"
                match entries with
                | [] => "No stock entries provided for matching"
                | _ :: _ => "No suitable match found using mock AI matching"
                end))
  \/ (exists i e,
        first_best r entries i e /\ 40 < mock_score r e /\
        out = match py_int iet
                      (or_zero (default (PyNum (PyFloat.of_Z 0))
                                  (StockItem.on_hand_quantity (Candidate.item e)))) with
              | inr _ =>
                  inr (mock_judgment
                         (get_str (StockItem.product_code (Candidate.item e)))
                         (get_str (StockItem.description (Candidate.item e)))
                         (pretty (mock_score r e `min` 95))
                         ("Mock AI matching based on keyword analysis. Score: "
                          +:+ pretty (mock_score r e)))
              | inl err => inl err
              end).
Proof.
  intros r out. subst out. destruct entries as [|x l].
  - left. split; [constructor|reflexivity].
  - unfold _mock_match_rfp_item. fold r.
    pose proof (mock_best_spec r (x :: l)) as H.
    destruct (mock_best r (x :: l)) as [[e|] s].
    + destruct H as (-> & Hpos & i & Hfb).
      destruct (Nat.ltb_spec 40 (mock_score r e)) as [Hlt|Hge].
      * right. exists i, e. split; [done|]. split; [done|]. reflexivity.
      * left. split; [|reflexivity]. destruct Hfb as (_ & Hmax & _).
        eapply Forall_impl; [exact Hmax|]. intros y Hy; cbv beta in Hy |- *; lia.
    + destruct H as (-> & Hz). left. split; [|reflexivity].
      eapply Forall_impl; [exact Hz|]. intros y Hy; cbv beta in Hy |- *; lia.
Qed.

Lemma digit_not_letter c :
  Chars.is_digit c = true ->
  Chars.lower_char c <> "i"%char /\ Chars.lower_char c <> "n"%char.
Proof.
  destruct c as [[] [] [] [] [] [] [] []]; vm_compute; intros H; try discriminate H;
    split; discriminate.
Qed.

(** Every text that [int] reads, [float] reads, to the same number. *)
Lemma int_then_float s z :
  int_of_string s = Some z -> PyFloat.of_string s = Some (PyFloat.of_Z z).
Proof.
  unfold int_of_string, PyFloat.of_string.
  destruct (PyFloat.read_sign (PyFloat.strip (list_ascii_of_string s))) as [neg body].
  destruct (PyFloat.read_digits body) as [[[n k] rest]|] eqn:E; [|discriminate].
  destruct rest; [|discriminate]. intros [= <-].
  assert (exists c t, body = c :: t /\ Chars.is_digit c = true) as (c & t & -> & Hc).
  { destruct body as [|c t]; [discriminate|]. exists c, t. split; [done|].
    unfold PyFloat.read_digits in E. by destruct (Chars.is_digit c). }
  destruct (digit_not_letter c Hc) as [Hi Hn].
  cbn [map string_of_list_ascii].
  rewrite !bool_decide_eq_false_2 by (intros [= ? ?]; congruence).
  cbn [orb]. unfold PyFloat.read_float, PyFloat.read_number. rewrite E.
  destruct neg; reflexivity.
Qed.

(** X17: [_mock_match_rfp_item] either finds no entry of keyword score above
    40 and answers the judgment with empty code and score text 0, or it
    picks the first entry of the highest keyword score, which is above 40:
    it then raises what [int] raises on the quantity of that entry, or
    answers the code and description of that entry with the score capped at
    95 as its score text. *)
Theorem X17_mock_picks_first_best (int_error_text : pyval -> string)
    (rfp_line : string) (stock_entries : list Candidate.t) :
  let r := lower rfp_line in
  let out := _mock_match_rfp_item int_error_text rfp_line stock_entries in
  (Forall (fun e => mock_score r e <= 40) stock_entries /\
   out = inr (mock_judgment "" "" "0"
                match stock_entries with
                | [] => "No stock entries provided for matching"
                | _ :: _ => "No suitable match found using mock AI matching"
                end))
  \/ (exists i e,
        first_best r stock_entries i e /\ 40 < mock_score r e /\
        out = match py_int int_error_text
                      (or_zero (default (PyNum (PyFloat.of_Z 0))
                                  (StockItem.on_hand_quantity (Candidate.item e)))) with
              | inr _ =>
                  inr (mock_judgment
                         (get_str (StockItem.product_code (Candidate.item e)))
                         (get_str (StockItem.description (Candidate.item e)))
                         (pretty (mock_score r e `min` 95))
                         ("Mock AI matching based on keyword analysis. Score: "
                          +:+ pretty (mock_score r e)))
              | inl err => inl err
              end).
Proof. exact (mock_match_cases int_error_text rfp_line stock_entries). Qed.

Lemma mock_score_text fet n :
  41 <= n <= 95 ->
  py_float fet (PyStr (pretty n)) = inr (PyFloat.of_Z (Z.of_nat n))
  /\ PyFloat.ge (PyFloat.of_Z (Z.of_nat n)) (PyFloat.of_Z 40) = true
  /\ _get_confidence_level (PyFloat.of_Z (Z.of_nat n)) <> ConfVeryLow.
Proof.
  intros [H1 H2]. do 41 (destruct n as [|n]; [lia|]).
  do 55 (destruct n as [|n]; [vm_compute; repeat split; discriminate|]). lia.
Qed.

(** A quantity that [int] accepted is one the classifier can read. *)
Lemma int_quantity_readable iet fet (e : Candidate.t) z :
  py_int iet (or_zero (default (PyNum (PyFloat.of_Z 0))
                         (StockItem.on_hand_quantity (Candidate.item e)))) = inr z ->
  is_Some (quantity_of fet e).
Proof.
  unfold quantity_of.
  destruct (StockItem.on_hand_quantity (Candidate.item e)) as [[|b|x|s]|]; unfold from_option, id.
  - done.
  - destruct b; cbn; eauto.
  - unfold or_zero. destruct (py_truthy (PyNum x)); cbn [py_float]; eauto.
  - unfold or_zero. destruct (py_truthy (PyStr s)); [|done].
    cbn [py_int py_float]. destruct (int_of_string s) as [n|] eqn:E; [|done].
    by rewrite (int_then_float _ _ E).
  - done.
Qed.

Section MockMode.

Variable World : Type.
Variable get_stock_data : World -> list StockItem.t.
Variable chat_completion :
  World -> string -> list Candidate.t -> World * (exn + Judgment.t).
Variable float_error_text : pyval -> string.
Variable int_error_text : pyval -> string.

(** The classifier on a judgment that names nothing and scores [0]. *)
Lemma enhance_zero_judgment (reason : string) (cands : list Candidate.t) (feats : features) :
  let r := _enhance_ai_result float_error_text (mock_judgment "" "" "0" reason) cands feats in
  Result.status r = Unmatched
  /\ Result.match_score r = PyFloat.of_Z 0
  /\ Result.matched_product_code r = PyStr ""
  /\ Result.match_reason r = PyStr reason
  /\ Result.confidence_level r = Some ConfVeryLow.
Proof. repeat split. Qed.

(** The classifier on a judgment that names a candidate with a score
    text between 41 and 95. *)
Lemma enhance_named_judgment (e : Candidate.t) (n : nat) (reason : string)
    (cands : list Candidate.t) (feats : features) :
  41 <= n <= 95 -> e ∈ cands ->
  let code := get_str (StockItem.product_code (Candidate.item e)) in
  let r := _enhance_ai_result float_error_text
             (mock_judgment code
                (get_str (StockItem.description (Candidate.item e)))
                (pretty n) reason) cands feats in
  Result.match_score r = PyFloat.of_Z (Z.of_nat n)
  /\ Result.matched_product_code r = PyStr code
  /\ (Result.status r = Matched \/ Result.status r = Unavailable
      \/ (Result.status r = Unmatched /\ code = ""))
  /\ (exists c, Result.confidence_level r = Some c /\ c <> ConfVeryLow).
Proof.
  intros Hn He code r.
  destruct (mock_score_text float_error_text n Hn) as (Hfl & Hge & Hconf).
  subst r. unfold _enhance_ai_result.
  cbn [mock_judgment Judgment.match_score Judgment.matched_product_code
       Judgment.matched_description Judgment.match_reason default from_option id].
  unfold from_option, id. rewrite Hfl.
  cbn [Result.match_score Result.matched_product_code Result.status Result.confidence_level].
  split; [done|]. split; [done|]. split; [|eauto].
  destruct (decide (code = "")) as [Hc|Hc].
  { right; right. split; [|done]. unfold find_matched. rewrite Hc. cbn.
    unfold _determine_match_status. by destruct (PyFloat.lt _ _). }
  assert (Hcode : code_is (PyStr code) e = true).
  { apply code_is_true. unfold code_of. subst code.
    destruct (StockItem.product_code (Candidate.item e)); [done|]. by destruct Hc. }
  assert (exists c, find_matched (PyStr code) cands = Some c) as [c Hfind].
  { unfold find_matched. cbn [py_truthy]. rewrite bool_decide_eq_false_2 by done. cbn [negb].
    destruct (List.find (code_is (PyStr code)) cands) as [c|] eqn:E; [eauto|].
    apply list_elem_of_In in He. pose proof (find_none _ _ E _ He) as Hf. congruence. }
  rewrite Hfind, (status_of_matched float_error_text _ _ Hge).
  destruct (quantity_of float_error_text c) as [q|]; [|by left].
  destruct (PyFloat.le q (PyFloat.of_Z 0)); auto.
Qed.

(** X18: [process_single_rfp_item] with the mock matcher. A result is never
    of status error and leaves the world unchanged; it is either unmatched
    with score 0 and empty code, or it reports a candidate of keyword score
    above 40: the score is that keyword score capped at 95, the confidence
    is never very low, the status is matched or unavailable unless the
    candidate has no product code, and the quantity of that candidate is
    one the classifier can read. The only exception comes from [int] on the
    quantity of such a candidate. *)
Theorem X18_mock_mode_results (w : World) (rfp_item : string) :
  match process_single_rfp_item World get_stock_data
          (AzureOpenAIService.match_rfp_item World true chat_completion int_error_text)
          float_error_text w rfp_item with
  | (w', inr r) =>
      w' = w /\
      ((Result.status r = Unmatched
        /\ Result.match_score r = PyFloat.of_Z 0
        /\ Result.matched_product_code r = PyStr "")
       \/ exists e,
            e ∈ filter_stock_by_buckets (extract_bucket_features rfp_item)
                  (get_stock_data w) 20
            /\ 40 < mock_score (lower rfp_item) e
            /\ Result.match_score r
               = PyFloat.of_Z (Z.of_nat (mock_score (lower rfp_item) e `min` 95))
            /\ Result.matched_product_code r
               = PyStr (get_str (StockItem.product_code (Candidate.item e)))
            /\ (Result.status r = Matched \/ Result.status r = Unavailable
                \/ (Result.status r = Unmatched
                    /\ get_str (StockItem.product_code (Candidate.item e)) = ""))
            /\ (exists c, Result.confidence_level r = Some c /\ c <> ConfVeryLow)
            /\ is_Some (quantity_of float_error_text e))
  | (w', inl err) =>
      w' = w /\
      exists e,
        e ∈ filter_stock_by_buckets (extract_bucket_features rfp_item)
              (get_stock_data w) 20
        /\ 40 < mock_score (lower rfp_item) e
        /\ py_int int_error_text
             (or_zero (default (PyNum (PyFloat.of_Z 0))
                         (StockItem.on_hand_quantity (Candidate.item e)))) = inl err
  end.
Proof.
  unfold process_single_rfp_item.
  destruct (filter_stock_by_buckets _ _ 20) as [|c cs] eqn:E.
  { split; [done|]. left. repeat split. }
  unfold AzureOpenAIService.match_rfp_item.
  destruct (mock_match_cases int_error_text rfp_item (c :: cs))
    as [[_ ->]|(i & e & (Hi & _) & Hsc & ->)].
  - split; [done|]. left.
    destruct (enhance_zero_judgment "No suitable match found using mock AI matching"
                (c :: cs) (extract_bucket_features rfp_item)) as (? & ? & ? & _).
    done.
  - apply list_elem_of_lookup_2 in Hi.
    destruct (py_int _ _) as [err|z] eqn:Hint.
    + split; [done|]. exists e. done.
    + split; [done|]. right. exists e. split; [done|]. split; [done|].
      destruct (enhance_named_judgment e (mock_score (lower rfp_item) e `min` 95)
                  ("Mock AI matching based on keyword analysis. Score: "
                   +:+ pretty (mock_score (lower rfp_item) e))
                  (c :: cs) (extract_bucket_features rfp_item)) as (H1 & H2 & H3 & H4);
        [lia|done|].
      repeat split; try done. by eapply int_quantity_readable.
Qed.

End MockMode.

Section RealMode.

Variable World : Type.
Variable get_stock_data : World -> list StockItem.t.
Variable chat_completion :
  World -> string -> list Candidate.t -> World * (exn + Judgment.t).
Variable float_error_text : pyval -> string.
Variable int_error_text : pyval -> string.

Lemma real_match_cases (w : World) (rfp_line : string) (cands : list Candidate.t) :
  AzureOpenAIService.match_rfp_item World false chat_completion int_error_text
    w rfp_line cands
  = ((chat_completion w rfp_line cands).1,
     inr match reply_failure (chat_completion w rfp_line cands).2 with
         | Some e => failed_judgment e
         | None =>
             match (chat_completion w rfp_line cands).2 with
             | inr result => result
             | inl e => failed_judgment e
             end
         end).
Proof.
  unfold AzureOpenAIService.match_rfp_item, reply_failure.
  destruct (chat_completion w rfp_line cands) as [w' [e|result]]; cbn [fst snd]; [done|].
  by destruct (has_required_fields result).
Qed.

(** X19: [process_single_rfp_item] with the deployed model never raises, and
    when the request or the decoding of the reply raises, or the reply lacks
    one of the four keys, the result is unmatched with score 0, empty code,
    confidence very low and the failure in its reason. *)
Theorem X19_real_mode_failures_become_unmatched (w : World) (rfp_item : string) :
  exists w' r,
    process_single_rfp_item World get_stock_data
      (AzureOpenAIService.match_rfp_item World false chat_completion int_error_text)
      float_error_text w rfp_item = (w', inr r)
    /\ forall e,
         filter_stock_by_buckets (extract_bucket_features rfp_item)
           (get_stock_data w) 20 <> [] ->
         reply_failure
           (chat_completion w rfp_item
              (filter_stock_by_buckets (extract_bucket_features rfp_item)
                 (get_stock_data w) 20)).2 = Some e ->
         Result.status r = Unmatched
         /\ Result.match_score r = PyFloat.of_Z 0
         /\ Result.matched_product_code r = PyStr ""
         /\ Result.match_reason r = PyStr ("Error in AI matching: " +:+ exn_str e)
         /\ Result.confidence_level r = Some ConfVeryLow.
Proof.
  unfold process_single_rfp_item.
  destruct (filter_stock_by_buckets _ _ 20) as [|c cs] eqn:E.
  { eexists _, _. split; [reflexivity|]. intros e Hne. by destruct Hne. }
  rewrite real_match_cases.
  eexists _, _. split; [reflexivity|]. intros e _ ->.
  apply (enhance_zero_judgment float_error_text).
Qed.

End RealMode.

Lemma starts_with_spec (p s : list ascii) :
  starts_with p s = true <-> exists b, s = p ++ b.
Proof.
  revert s. induction p as [|a p IH]; intros s.
  - cbn. split; [eauto|done].
  - destruct s as [|c s]; cbn.
    + split; [done|]. intros [b Hb]. discriminate Hb.
    + rewrite andb_true_iff, bool_decide_eq_true, IH. split.
      * intros [-> [b ->]]. eauto.
      * intros [b [= -> ->]]. eauto.
Qed.

Lemma occurs_in_spec (p s : list ascii) :
  occurs_in p s = true <-> exists a b, s = a ++ p ++ b.
Proof.
  induction s as [|c s IH].
  - cbn [occurs_in]. rewrite orb_false_r, starts_with_spec. split.
    + intros [b Hb]. exists [], b. done.
    + intros (a & b & H). symmetry in H. apply app_eq_nil in H as [-> H].
      apply app_eq_nil in H as [-> ->]. by exists [].
  - cbn [occurs_in]. rewrite orb_true_iff, starts_with_spec, IH. split.
    + intros [[b Hb]|(a & b & ->)]; [by exists [], b|by exists (c :: a), b].
    + intros ([|c' a] & b & H).
      * left. by exists b.
      * right. injection H as -> ->. eauto.
Qed.

Lemma list_ascii_app (a b : string) :
  list_ascii_of_string (a +:+ b) = list_ascii_of_string a ++ list_ascii_of_string b.
Proof.
  induction a as [|c a IH]; [done|].
  change (String c a +:+ b) with (String c (a +:+ b)). simpl. by f_equal.
Qed.

Lemma string_of_list_app (a b : list ascii) :
  string_of_list_ascii (a ++ b) = string_of_list_ascii a +:+ string_of_list_ascii b.
Proof. induction a as [|c a IH]; [done|]. simpl. rewrite IH. reflexivity. Qed.

Lemma str_in_spec (needle hay : string) :
  str_in needle hay = true <-> exists pre post, hay = pre +:+ needle +:+ post.
Proof.
  unfold str_in. rewrite occurs_in_spec. split.
  - intros (a & b & H). exists (string_of_list_ascii a), (string_of_list_ascii b).
    rewrite <- (string_of_list_ascii_of_string hay), H, !string_of_list_app.
    by rewrite string_of_list_ascii_of_string.
  - intros (pre & post & ->). exists (list_ascii_of_string pre), (list_ascii_of_string post).
    by rewrite !list_ascii_app.
Qed.

Lemma search_loop_take (q : string) (limit : Z) (acc records : list StockItem.t) :
  (Z.of_nat (length acc) < limit)%Z ->
  search_loop (lower q) limit acc records
  = take (Z.to_nat limit) (acc ++ filter (fun r => holds_query q r = true) records).
Proof.
  revert acc. induction records as [|r rest IH]; intros acc Hacc.
  - cbn [search_loop]. rewrite filter_nil, app_nil_r, take_ge; [done|lia].
  - cbn [search_loop]. rewrite filter_cons. fold (holds_query q r).
    destruct (holds_query q r) eqn:Hm.
    + rewrite decide_True by done.
      assert (Heq : forall k, acc ++ r :: k = (acc ++ [r]) ++ k)
        by (intros k; by rewrite <- app_assoc).
      rewrite (Heq (filter _ rest)).
      destruct (Z.leb_spec limit (Z.of_nat (length (acc ++ [r])))) as [Hle|Hgt].
      * rewrite length_app in Hle. cbn in Hle.
        rewrite take_app_le by (rewrite length_app; cbn; lia).
        rewrite take_ge; [done|]. rewrite length_app. cbn. lia.
      * by rewrite IH.
    + rewrite decide_False by done.
      destruct (Z.leb_spec limit (Z.of_nat (length acc))) as [Hle|Hgt]; [lia|].
      by apply IH.
Qed.

Lemma lower_upper_char (c : ascii) :
  Chars.lower_char (Chars.upper_char c) = Chars.lower_char c.
Proof. destruct c as [[] [] [] [] [] [] [] []]; reflexivity. Qed.

Lemma lower_upper (s : string) : lower (upper s) = lower s.
Proof.
  unfold lower, upper. rewrite list_ascii_of_string_of_list_ascii, map_map.
  f_equal. apply map_ext. intros c. apply lower_upper_char.
Qed.

Lemma upper_upper_char' (c : ascii) :
  Chars.upper_char (Chars.lower_char c) = Chars.upper_char c.
Proof. destruct c as [[] [] [] [] [] [] [] []]; reflexivity. Qed.

Lemma search_stock_spec (stock_data : list StockItem.t) (query : string) (limit : Z) :
  search_stock stock_data query limit
  = if (1 <=? limit)%Z
    then take (Z.to_nat limit) (filter (fun r => holds_query query r = true) stock_data)
    else filter (fun r => holds_query query r = true) (take 1 stock_data).
Proof.
  destruct stock_data as [|r rest].
  { cbn. by destruct (1 <=? limit)%Z; [rewrite take_nil|]. }
  unfold search_stock. destruct (Z.leb_spec 1 limit) as [H|H].
  - rewrite search_loop_take by (cbn; lia). done.
  - cbn [search_loop]. change (take 1 (r :: rest)) with ([r] : list StockItem.t).
    rewrite filter_cons, filter_nil. fold (holds_query query r).
    destruct (holds_query query r).
    + rewrite decide_True by done. cbn.
      destruct (Z.leb_spec limit (Z.of_nat 1)); [done|lia].
    + rewrite decide_False by done. cbn.
      destruct (Z.leb_spec limit (Z.of_nat 0)); [done|lia].
Qed.

(** X20: for an ASCII query, [search_stock] with a limit of at least 1
    returns the first [limit] records, in catalog order, whose text holds
    the query; with a limit below 1 it looks at the first record only.
    Every record it returns holds the query when both are put in lower
    case, and the case of the letters of the query does not matter. *)
Theorem X20_search_stock (stock_data : list StockItem.t) (query : string) (limit : Z) :
  isascii query = true ->
  search_stock stock_data query limit
  = (if (1 <=? limit)%Z
     then take (Z.to_nat limit) (filter (fun r => holds_query query r = true) stock_data)
     else filter (fun r => holds_query query r = true) (take 1 stock_data))
  /\ Forall (fun r => exists pre post,
                 lower (stock_text r) = pre +:+ lower query +:+ post)
       (search_stock stock_data query limit)
  /\ search_stock stock_data (upper query) limit = search_stock stock_data query limit
  /\ search_stock stock_data (lower query) limit = search_stock stock_data query limit.
Proof.
  intros _.
  split; [apply search_stock_spec|]. split; [|split].
  - rewrite search_stock_spec. apply Forall_forall. intros r Hr.
    assert (holds_query query r = true) as Hh.
    { destruct (1 <=? limit)%Z.
      - apply elem_of_take in Hr as (i & Hr & _). apply list_elem_of_lookup_2 in Hr.
        by apply list_elem_of_filter in Hr as [? _].
      - by apply list_elem_of_filter in Hr as [? _]. }
    by apply str_in_spec.
  - rewrite !search_stock_spec. unfold holds_query. by rewrite lower_upper.
  - rewrite !search_stock_spec. unfold holds_query.
    assert (lower (lower query) = lower query) as ->; [|done].
    unfold lower. rewrite list_ascii_of_string_of_list_ascii, map_map.
    f_equal. apply map_ext. intros c. destruct c as [[] [] [] [] [] [] [] []]; reflexivity.
Qed.

Lemma find_first {A} (f : A -> bool) (l : list A) :
  match List.find f l with
  | Some x => exists i, l !! i = Some x /\ f x = true
                        /\ forall k y, k < i -> l !! k = Some y -> f y = false
  | None => Forall (fun x => f x = false) l
  end.
Proof.
  induction l as [|a l IH]; cbn [List.find]; [constructor|].
  destruct (f a) eqn:Ha.
  - exists 0. split; [done|]. split; [done|]. intros; lia.
  - destruct (List.find f l) as [x|].
    + destruct IH as (i & Hi & Hx & Hfirst). exists (S i). split; [done|]. split; [done|].
      intros [|k] y Hk Hy; [by injection Hy as <-|]. apply (Hfirst k); [lia|done].
    + by constructor.
Qed.

(** X21: for ASCII codes, in the catalog and in the request,
    [get_stock_by_code] returns the first record whose code equals the
    given code up to the case of the letters, and nothing exactly when no
    record has such a code; the case of the letters of the given code does
    not matter. *)
Theorem X21_get_stock_by_code (stock_data : list StockItem.t) (product_code : string) :
  isascii product_code = true ->
  Forall (fun r => isascii (get_str (StockItem.product_code r)) = true) stock_data ->
  match get_stock_by_code stock_data product_code with
  | Some r =>
      exists i, stock_data !! i = Some r
                /\ upper (get_str (StockItem.product_code r)) = upper product_code
                /\ forall k r', k < i -> stock_data !! k = Some r' ->
                     upper (get_str (StockItem.product_code r')) <> upper product_code
  | None =>
      Forall (fun r => upper (get_str (StockItem.product_code r)) <> upper product_code)
        stock_data
  end
  /\ get_stock_by_code stock_data (upper product_code)
     = get_stock_by_code stock_data product_code
  /\ get_stock_by_code stock_data (lower product_code)
     = get_stock_by_code stock_data product_code.
Proof.
  intros _ _. split; [|split].
  - unfold get_stock_by_code.
    pose proof (find_first (same_code product_code) stock_data) as H.
    destruct (List.find _ _) as [r|].
    + destruct H as (i & Hi & Hr & Hfirst). exists i. split; [done|].
      split; [by apply bool_decide_eq_true in Hr|].
      intros k r' Hk Hr'. specialize (Hfirst k r' Hk Hr').
      by apply bool_decide_eq_false in Hfirst.
    + eapply Forall_impl; [exact H|]. intros r Hr. by apply bool_decide_eq_false in Hr.
  - unfold get_stock_by_code, same_code.
    assert (upper (upper product_code) = upper product_code) as ->; [|done].
    unfold upper. rewrite list_ascii_of_string_of_list_ascii, map_map.
    f_equal. apply map_ext. intros c. destruct c as [[] [] [] [] [] [] [] []]; reflexivity.
  - unfold get_stock_by_code, same_code.
    assert (upper (lower product_code) = upper product_code) as ->; [|done].
    unfold upper, lower. rewrite list_ascii_of_string_of_list_ascii, map_map.
    f_equal. apply map_ext. intros c. apply upper_upper_char'.
Qed.

Lemma size_list_to_set_le (l : list string) :
  size (list_to_set l : gset string) <= length l
  /\ (size (list_to_set l : gset string) = length l <-> NoDup l).
Proof.
  induction l as [|x l [IHle IHeq]]; cbn [list_to_set length].
  - rewrite size_empty. split; [done|]. split; [constructor|done].
  - destruct (decide (x ∈ l)) as [Hin|Hnin].
    + assert ({[x]} ∪ list_to_set l = (list_to_set l : gset string)) as -> by set_solver.
      split; [lia|]. split; [lia|]. intros Hnd. by apply NoDup_cons in Hnd as [? _].
    + rewrite size_union by set_solver. rewrite size_singleton.
      split; [lia|]. rewrite NoDup_cons. split.
      * intros H. split; [done|]. apply IHeq. lia.
      * intros [_ H]. apply IHeq in H. lia.
Qed.

Lemma filter_length_zero {A} (P : A -> Prop) `{!forall x, Decision (P x)} (l : list A) :
  length (filter P l) = 0 <-> Forall (fun x => ~ P x) l.
Proof.
  induction l as [|x l IH]; [split; [constructor|done]|].
  rewrite filter_cons. destruct (decide (P x)) as [Hp|Hp]; cbn [length].
  - split; [done|]. intros HF. apply Forall_cons in HF as [HF' _]. done.
  - rewrite IH. split; [by constructor|]. intros HF. by apply Forall_cons in HF as [_ HF'].
Qed.

Lemma error_list_nil (nc nd : nat) (a b : string) :
  (if 0 <? nd then (if 0 <? nc then [a] else []) ++ [b]
   else if 0 <? nc then [a] else []) = [] <-> nc = 0 /\ nd = 0.
Proof.
  destruct (Nat.ltb_spec 0 nd), (Nat.ltb_spec 0 nc); cbn;
    (split; [intros Hl; try discriminate Hl; lia|intros [? ?]; first [done|exfalso; lia]]).
Qed.

(** X22: [validate_stock_data] reports [valid] exactly when the stock is not
    empty and every record has a product code and a description, which is
    exactly when it lists no error; and it lists no warning exactly when the
    stock is not empty and the product codes of the records that have one
    are pairwise distinct. *)
Theorem X22_validate_stock_data (stock_data : list StockItem.t) :
  let v := validate_stock_data stock_data in
  (Validation.valid v = true <->
     stock_data <> [] /\
     Forall (fun r => get_str (StockItem.product_code r) <> ""
                      /\ get_str (StockItem.description r) <> "") stock_data)
  /\ (Validation.valid v = true <-> Validation.errors v = [])
  /\ (Validation.warnings v = Some [] <-> stock_data <> [] /\ NoDup (stock_codes stock_data)).
Proof.
  intros v. subst v. destruct stock_data as [|r0 rest].
  { cbn. split; [|split]; split; try done; by intros [? _]. }
  unfold validate_stock_data.
  cbn [Validation.valid Validation.errors Validation.warnings app].
  set (data := r0 :: rest).
  set (nc := length (filter (fun r => lacks (StockItem.product_code r) = true) data)).
  set (nd := length (filter (fun r => lacks (StockItem.description r) = true) data)).
  assert (Hnc : nc = 0 <-> Forall (fun r => get_str (StockItem.product_code r) <> "") data).
  { unfold nc. rewrite filter_length_zero. apply Forall_iff. intros r. unfold lacks.
    rewrite bool_decide_eq_true. done. }
  assert (Hnd : nd = 0 <-> Forall (fun r => get_str (StockItem.description r) <> "") data).
  { unfold nd. rewrite filter_length_zero. apply Forall_iff. intros r. unfold lacks.
    rewrite bool_decide_eq_true. done. }
  pose proof (error_list_nil nc nd) as Herr.
  split; [|split].
  - rewrite bool_decide_eq_true, length_zero_iff_nil, Herr, Hnc, Hnd, Forall_and.
    split; [by intros [? ?]|by intros [_ [? ?]]].
  - by rewrite bool_decide_eq_true, length_zero_iff_nil.
  - destruct (size_list_to_set_le (stock_codes data)) as [Hle Heq].
    rewrite <- Heq. split.
    + intros H. split; [done|].
      destruct (Nat.ltb_spec 0 (length (stock_codes data)
                                 - size (list_to_set (stock_codes data) : gset string)));
        [discriminate H|lia].
    + intros [_ H]. rewrite H, Nat.sub_diag. done.
Qed.

Lemma filter_sublist_mono {A} (P : A -> Prop) `{!forall x, Decision (P x)} (l1 l2 : list A) :
  l1 `sublist_of` l2 -> filter P l1 `sublist_of` filter P l2.
Proof.
  induction 1 as [|x l1 l2 _ IH|x l1 l2 _ IH]; [done| |].
  - rewrite !filter_cons. destruct (decide (P x)); [by constructor|done].
  - rewrite filter_cons. destruct (decide (P x)); [by constructor|done].
Qed.

Lemma stock_codes_sublist (l1 l2 : list StockItem.t) :
  l1 `sublist_of` l2 -> stock_codes l1 `sublist_of` stock_codes l2.
Proof. intros H. unfold stock_codes. by apply fmap_sublist, filter_sublist_mono. Qed.

Lemma stock_codes_perm (l1 l2 : list StockItem.t) :
  l1 ≡ₚ l2 -> stock_codes l1 ≡ₚ stock_codes l2.
Proof. intros H. unfold stock_codes. by rewrite H. Qed.

Lemma score_items_items (q : features) (stock_data : list StockItem.t) :
  Candidate.item <$> score_items q stock_data
  = filter (fun e => Qlt_bool 0 (item_score q e) = true) stock_data.
Proof.
  rewrite score_items_spec, <- list_fmap_compose.
  induction (filter _ stock_data) as [|e l IH]; [done|].
  rewrite fmap_cons, IH. cbn [compose]. by rewrite scored_item.
Qed.

(** The candidates of a catalog whose coded records have distinct codes
    have distinct codes as well. *)
Lemma filter_codes_NoDup (q : features) (stock_data : list StockItem.t) (n : Z) :
  NoDup (stock_codes stock_data) ->
  NoDup (stock_codes (Candidate.item <$> filter_stock_by_buckets q stock_data n)).
Proof.
  intros H. unfold filter_stock_by_buckets.
  eapply sublist_NoDup; [|apply stock_codes_sublist, fmap_sublist, slice_to_sublist].
  rewrite (stock_codes_perm _ (Candidate.item <$> score_items q stock_data))
    by (by rewrite sort_desc_perm).
  rewrite score_items_items.
  eapply sublist_NoDup; [exact H|]. apply stock_codes_sublist, sublist_filter.
Qed.

Lemma find_unique_code (c : string) (e : Candidate.t) (l : list Candidate.t) :
  NoDup (stock_codes (Candidate.item <$> l)) ->
  e ∈ l -> StockItem.product_code (Candidate.item e) = Some c -> c <> "" ->
  List.find (code_is (PyStr c)) l = Some e.
Proof.
  intros Hnd He Hc Hne. induction l as [|a l IH]; [by apply elem_of_nil in He|].
  cbn [List.find]. destruct (code_is (PyStr c) a) eqn:Ha.
  - apply code_is_true in Ha. unfold code_of in Ha.
    destruct (StockItem.product_code (Candidate.item a)) as [ca|] eqn:Eca; [|done].
    injection Ha as ->.
    apply elem_of_cons in He as [->|He]; [done|]. exfalso.
    unfold stock_codes in Hnd. rewrite fmap_cons, filter_cons in Hnd.
    rewrite decide_True in Hnd
      by (unfold lacks; rewrite Eca; by apply bool_decide_eq_false).
    rewrite fmap_cons, Eca in Hnd. cbn [get_str default from_option id] in Hnd.
    apply NoDup_cons in Hnd as [Hnin _]. apply Hnin.
    apply list_elem_of_fmap. exists (Candidate.item e). split; [by rewrite Hc|].
    apply list_elem_of_filter. split.
    + unfold lacks. rewrite Hc. by apply bool_decide_eq_false.
    + apply list_elem_of_fmap. eauto.
  - apply elem_of_cons in He as [->|He].
    { apply code_is_false in Ha. unfold code_of in Ha. rewrite Hc in Ha. by destruct Ha. }
    apply IH; [|done].
    unfold stock_codes in Hnd |- *. rewrite fmap_cons, filter_cons in Hnd.
    destruct (decide _); [|done]. rewrite fmap_cons in Hnd. by apply NoDup_cons in Hnd as [_ ?].
Qed.

(** X23: on a catalog for which [validate_stock_data] has no warning, a
    judgment that names the code of a candidate of the filter is matched to
    that very candidate: it is the reported stock entry, the reported
    quantity is its quantity, and the status is unmatched for a score below
    40 and else unavailable or matched by that quantity. *)
Theorem X23_unique_codes_identify_the_match (float_error_text : pyval -> string)
    (stock_data : list StockItem.t) (rfp_features : features)
    (ai_result : Judgment.t) (e : Candidate.t) (c : string) (score : pyfloat) :
  Validation.warnings (validate_stock_data stock_data) = Some [] ->
  e ∈ filter_stock_by_buckets rfp_features stock_data 20 ->
  StockItem.product_code (Candidate.item e) = Some c -> c <> "" ->
  judged_code ai_result = PyStr c ->
  coerced_score float_error_text ai_result = inr score ->
  let r := _enhance_ai_result float_error_text ai_result
             (filter_stock_by_buckets rfp_features stock_data 20) rfp_features in
  Result.matched_stock_details r = Some (Some e)
  /\ Result.on_hand_quantity r
     = Some (default (PyFloat.of_Z 0) (quantity_of float_error_text e))
  /\ Result.status r
     = if PyFloat.lt score (PyFloat.of_Z 40) then Unmatched
       else match quantity_of float_error_text e with
            | Some quantity =>
                if PyFloat.le quantity (PyFloat.of_Z 0) then Unavailable else Matched
            | None => Matched
            end.
Proof.
  intros Hw He Hc Hne Hcode Hscore r.
  assert (Hnd : NoDup (stock_codes stock_data)).
  { destruct stock_data as [|r0 rest]; [discriminate Hw|].
    pose proof (X := size_list_to_set_le (stock_codes (r0 :: rest))). destruct X as [Hle Heq].
    apply Heq. unfold validate_stock_data in Hw. cbn [Validation.warnings app] in Hw.
    destruct (Nat.ltb_spec 0 (length (stock_codes (r0 :: rest))
                - size (list_to_set (stock_codes (r0 :: rest)) : gset string)));
      [discriminate Hw|lia]. }
  assert (Hfind : find_matched (judged_code ai_result)
                    (filter_stock_by_buckets rfp_features stock_data 20) = Some e).
  { rewrite Hcode. unfold find_matched. cbn [py_truthy].
    rewrite bool_decide_eq_false_2 by done. cbn [negb].
    apply find_unique_code; [by apply filter_codes_NoDup|done..]. }
  destruct (enhance_fields float_error_text ai_result
              (filter_stock_by_buckets rfp_features stock_data 20)
              rfp_features score Hscore) as (Hst & _ & _ & Hdet & _ & Hqty).
  fold r in Hst, Hdet, Hqty. rewrite Hfind in Hst, Hdet, Hqty.
  split; [done|]. split; [done|]. by rewrite Hst.
Qed.

Lemma lstrip_head (s : list ascii) :
  lstrip s = [] \/ exists c r, lstrip s = c :: r /\ Chars.is_space c = false.
Proof.
  induction s as [|c t IH]; [by left|]. cbn [lstrip].
  destruct (Chars.is_space c) eqn:E; [done|]. right. eauto.
Qed.

Lemma lstrip_suffix (s : list ascii) : exists sp, s = sp ++ lstrip s.
Proof.
  induction s as [|c t [sp IH]]; [by exists []|]. cbn [lstrip].
  destruct (Chars.is_space c); [|by exists []].
  exists (c :: sp). cbn. by f_equal.
Qed.

Lemma lstrip_id (s : list ascii) :
  (forall c r, s = c :: r -> Chars.is_space c = false) -> lstrip s = s.
Proof.
  intros H. destruct s as [|c t]; [done|]. cbn [lstrip]. by rewrite (H c t).
Qed.

Lemma strip_trimmed (s : list ascii) : trimmed (str_strip s).
Proof.
  unfold str_strip.
  destruct (lstrip_head (rev (lstrip s))) as [E|(c & r & E & Hc)].
  { rewrite E. split; intros x y H; [done|]. by destruct x. }
  rewrite E. split.
  - intros c0 r0 H0.
    destruct (lstrip_suffix (rev (lstrip s))) as [sp Hsp]. rewrite E in Hsp.
    apply (f_equal (@rev ascii)) in Hsp. rewrite rev_involutive, rev_app_distr, H0 in Hsp.
    destruct (lstrip_head s) as [E2|(c2 & r2 & E2 & Hc2)].
    + rewrite E2 in Hsp. discriminate Hsp.
    + rewrite E2 in Hsp. cbn in Hsp. by injection Hsp as -> _.
  - intros r0 c0 H0. cbn [rev] in H0. apply app_inj_tail in H0 as [_ <-]. done.
Qed.

Lemma strip_id (s : list ascii) : trimmed s -> str_strip s = s.
Proof.
  intros [Hh Hl]. unfold str_strip. rewrite (lstrip_id s Hh), lstrip_id.
  - apply rev_involutive.
  - intros c r H. apply (f_equal (@rev ascii)) in H. rewrite rev_involutive in H. cbn [rev] in H.
    by apply (Hl (rev r) c).
Qed.

Lemma sub_spaces_single (b : bool) (s : list ascii) :
  single_spaced b (sub_spaces b s) = true.
Proof.
  revert b. induction s as [|c t IH]; intros b; [done|]. cbn [sub_spaces].
  destruct (Chars.is_space c) eqn:E.
  - destruct b; [apply IH|]. cbn [single_spaced].
    change (Chars.is_space " ") with true. cbn. apply IH.
  - cbn [single_spaced]. rewrite E. apply IH.
Qed.

Lemma sub_spaces_id (b : bool) (s : list ascii) :
  single_spaced b s = true -> sub_spaces b s = s.
Proof.
  revert b. induction s as [|c t IH]; intros b; [done|]. cbn [sub_spaces single_spaced].
  destruct (Chars.is_space c) eqn:E.
  - rewrite !andb_true_iff, bool_decide_eq_true, negb_true_iff.
    intros [[-> ->] H]. by rewrite (IH true H).
  - intros H. by rewrite (IH false H).
Qed.

Lemma sub_spaces_snoc (b : bool) (s : list ascii) (c : ascii) :
  Chars.is_space c = false -> sub_spaces b (s ++ [c]) = sub_spaces b s ++ [c].
Proof.
  intros Hc. revert b. induction s as [|d t IH]; intros b.
  - cbn. by rewrite Hc.
  - cbn [app sub_spaces]. destruct (Chars.is_space d); [destruct b|]; cbn; by rewrite IH.
Qed.

Lemma snoc_case {A} (l : list A) : l = [] \/ exists t d, l = t ++ [d].
Proof. induction l using rev_ind; eauto. Qed.

Lemma sub_spaces_trimmed (s : list ascii) : trimmed s -> trimmed (sub_spaces false s).
Proof.
  intros [Hh Hl]. split.
  - intros c r H. destruct s as [|d t]; [done|].
    cbn [sub_spaces] in H. rewrite (Hh d t eq_refl) in H. injection H as <- _.
    by apply (Hh d t).
  - intros r c H. destruct (snoc_case s) as [->|(t & d & ->)]; [by destruct r|].
    rewrite sub_spaces_snoc in H by (by apply (Hl t d)).
    apply app_inj_tail in H as [_ <-]. by apply (Hl t d).
Qed.

(** Cleaning a cleaned text changes nothing. *)
Lemma clean_item_idemp (item : string) : clean_item (clean_item item) = clean_item item.
Proof.
  unfold clean_item. rewrite list_ascii_of_string_of_list_ascii.
  rewrite strip_id by apply sub_spaces_trimmed, strip_trimmed.
  by rewrite sub_spaces_id by apply sub_spaces_single.
Qed.

Lemma clean_loop_spec (items cleaned : list string) (seen : gset string) :
  (forall y, y ∈ seen <-> y ∈ lower <$> cleaned) ->
  NoDup (lower <$> cleaned) -> Forall kept cleaned ->
  let out := clean_loop cleaned seen items in
  NoDup (lower <$> out)
  /\ Forall kept out
  /\ (exists new, out = cleaned ++ new /\ new `sublist_of` (clean_item <$> items))
  /\ (forall x, x ∈ items -> 10 < String.length (clean_item x) ->
        lower (clean_item x) ∈ lower <$> out).
Proof.
  revert cleaned seen. induction items as [|item rest IH]; intros cleaned seen Hseen Hnd Hk.
  - cbn. split; [done|]. split; [done|]. split.
    + exists []. by rewrite app_nil_r.
    + intros x Hx. by apply elem_of_nil in Hx.
  - cbn [clean_loop]. cbv zeta.
    destruct (bool_decide (lower (clean_item item) ∉ seen)
              && (10 <? String.length (clean_item item))) eqn:E.
    + apply andb_true_iff in E as [Hnew Hlen].
      apply bool_decide_eq_true in Hnew. apply Nat.ltb_lt in Hlen.
      destruct (IH (cleaned ++ [clean_item item]) (seen ∪ {[lower (clean_item item)]}))
        as (H1 & H2 & (new & Hout & Hsub) & H4).
      * intros y. rewrite fmap_app, elem_of_app, elem_of_union, Hseen.
        cbn. rewrite elem_of_singleton, list_elem_of_singleton. done.
      * rewrite fmap_app. apply NoDup_app. split; [done|]. split.
        -- intros y Hy Hy'. apply list_elem_of_singleton in Hy'. subst y.
           apply Hnew. by apply Hseen.
        -- apply NoDup_singleton.
      * apply Forall_app. split; [done|]. repeat constructor; [done|].
        apply clean_item_idemp.
      * split; [done|]. split; [done|]. split.
        -- exists (clean_item item :: new). split; [by rewrite Hout, <- app_assoc|].
           rewrite fmap_cons. by constructor.
        -- intros x Hx Hlx. apply elem_of_cons in Hx as [->|Hx]; [|by apply H4].
           rewrite Hout, <- app_assoc, !fmap_app.
           apply elem_of_app. right. apply elem_of_app. left. cbn. apply list_elem_of_singleton. done.
    + destruct (IH cleaned seen Hseen Hnd Hk) as (H1 & H2 & (new & Hout & Hsub) & H4).
      split; [done|]. split; [done|]. split.
      * exists new. split; [done|]. rewrite fmap_cons. by constructor.
      * intros x Hx Hlx. apply elem_of_cons in Hx as [->|Hx]; [|by apply H4].
        apply andb_false_iff in E as [E|E].
        -- apply bool_decide_eq_false in E. apply dec_stable in E.
           apply Hseen in E. rewrite Hout, fmap_app. apply elem_of_app. by left.
        -- apply Nat.ltb_ge in E. lia.
Qed.

(** On a list that is already clean, the loop appends every item. *)
Lemma clean_loop_id (items cleaned : list string) (seen : gset string) :
  (forall y, y ∈ seen <-> y ∈ lower <$> cleaned) ->
  NoDup (lower <$> (cleaned ++ items)) -> Forall kept items ->
  clean_loop cleaned seen items = cleaned ++ items.
Proof.
  revert cleaned seen. induction items as [|item rest IH]; intros cleaned seen Hseen Hnd Hk.
  - cbn. by rewrite app_nil_r.
  - apply Forall_cons in Hk as [[Hlen Hid] Hk]. cbn [clean_loop]. cbv zeta.
    rewrite Hid.
    rewrite fmap_app, fmap_cons in Hnd. apply NoDup_app in Hnd as (Hn1 & Hn2 & Hn3).
    rewrite bool_decide_eq_true_2, (proj2 (Nat.ltb_lt _ _) Hlen).
    + cbn [andb]. rewrite IH; [by rewrite <- app_assoc| | |done].
      * intros y. rewrite fmap_app, elem_of_app, elem_of_union, Hseen.
        cbn. rewrite elem_of_singleton, list_elem_of_singleton. done.
      * rewrite <- app_assoc, fmap_app. cbn. apply NoDup_app. done.
    + intros Hin. apply Hseen in Hin. apply (Hn2 _ Hin). by left.
Qed.

(** X24: [_clean_rfp_items] returns items that are pairwise distinct up to the
    case of their letters, each longer than 10 characters and unchanged by
    the cleaning; they are cleaned items of the input in their order; every
    input item whose cleaned text is longer than 10 characters is in the
    result up to case; and cleaning the result again changes nothing. *)
Theorem X24_clean_rfp_items (items : list string) :
  let out := _clean_rfp_items items in
  NoDup (lower <$> out)
  /\ Forall (fun s => 10 < String.length s /\ clean_item s = s) out
  /\ out `sublist_of` (clean_item <$> items)
  /\ (forall x, x ∈ items -> 10 < String.length (clean_item x) ->
        lower (clean_item x) ∈ lower <$> out)
  /\ _clean_rfp_items out = out.
Proof.
  intros out. subst out. unfold _clean_rfp_items.
  destruct (clean_loop_spec items [] ∅) as (H1 & H2 & (new & Hout & Hsub) & H4).
  { intros y. cbn. rewrite elem_of_nil. set_solver. }
  { constructor. }
  { constructor. }
  split; [done|]. split; [done|]. split; [by rewrite Hout|]. split; [done|].
  rewrite (clean_loop_id (clean_loop [] ∅ items) [] ∅); [done| |done|done].
  intros y. cbn. rewrite elem_of_nil. set_solver.
Qed.

(** ** The further properties on the sample data *)

(** The line in mixed case has features, and its case matters to the
    eye only. *)
Example sample_mixed_case_features :
  extract_bucket_features sample_mixed_case
  = {[ 2 := ["PIPE"]; 4 := ["SMLS"]; 7 := ["X52"]; 8 := ["SCH40"] ]}
  /\ upper sample_mixed_case <> sample_mixed_case
  /\ lower sample_mixed_case <> sample_mixed_case.
Proof. repeat split; try (vm_compute; reflexivity); vm_compute; discriminate. Qed.

(** X1 on the line in mixed case. *)
Lemma X1_extract_case_insensitive_witness :
  isascii sample_mixed_case = true
  /\ extract_bucket_features (upper sample_mixed_case)
     = extract_bucket_features sample_mixed_case
  /\ extract_bucket_features (lower sample_mixed_case)
     = extract_bucket_features sample_mixed_case.
Proof.
  assert (H : isascii sample_mixed_case = true) by (vm_compute; reflexivity).
  split; [exact H|].
  exact (X1_extract_case_insensitive sample_mixed_case H).
Defined.

(** X4 on two maps that list the same tokens differently. *)
Lemma X4_score_depends_on_token_sets_witness :
  (forall b, to_set <$> sample_tokens_repeated !! b = to_set <$> sample_tokens !! b)
  /\ _calculate_match_score sample_tokens_repeated sample_features
     = _calculate_match_score sample_tokens sample_features.
Proof.
  assert (H : forall b, to_set <$> sample_tokens_repeated !! b
                        = to_set <$> sample_tokens !! b).
  { intros b. unfold sample_tokens_repeated, sample_tokens.
    destruct (decide (b = 2)) as [->|Hb].
    - rewrite !lookup_singleton_eq. vm_compute. reflexivity.
    - by rewrite !lookup_singleton_ne. }
  split; [exact H|].
  exact (X4_score_depends_on_token_sets sample_tokens_repeated sample_tokens
           sample_features sample_features H (fun b => eq_refl)).
Defined.

(** The pipes T1 and T3 hold the same features and come third and
    fourth, after the entries that score higher, in catalog order. *)
Example tie_catalog_order :
  codes_of (filter_stock_by_buckets sample_features tie_catalog 20)
  = ["T2"; "T4"; "T1"; "T3"]
  /\ codes_of (filter (fun c => candidate_features c = {[ 2 := ["PIPE"] ]})
                 (filter_stock_by_buckets sample_features tie_catalog 20))
     = ["T1"; "T3"]
  /\ Qeq_bool (item_score sample_features (mk_item "T1" "PIPE" "1"))
       (item_score sample_features (mk_item "T3" "PIPE" "3")) = true.
Proof. repeat split; vm_compute; reflexivity. Qed.

(** X8 on the catalog with ties and the features of the two pipes. *)
Lemma X8_filter_ties_keep_catalog_order_witness :
  (Z.of_nat (length tie_catalog) <= 20)%Z
  /\ filter (fun c => candidate_features c = {[ 2 := ["PIPE"] ]})
       (filter_stock_by_buckets sample_features tie_catalog 20)
     = scored sample_features <$>
         filter (fun e => Qlt_bool 0 (item_score sample_features e) = true
                          /\ extract_bucket_features (stock_text e) = {[ 2 := ["PIPE"] ]})
           tie_catalog.
Proof.
  assert (H : (Z.of_nat (length tie_catalog) <= 20)%Z) by (vm_compute; discriminate).
  split; [exact H|].
  exact (X8_filter_ties_keep_catalog_order sample_features tie_catalog 20
           {[ 2 := ["PIPE"] ]} H).
Defined.

(** X9 on the judgment with code B and score 85. *)
Lemma X9_classifier_invariants_witness :
  let ai_result := mk_judgment "B" "85" in
  coerced_score sample_float_error_text ai_result = inr (PyFloat.of_Z 85)
  /\ Result.status (_enhance_ai_result sample_float_error_text ai_result
                      sample_shortlist sample_features) <> Error.
Proof.
  intros ai_result.
  assert (H : coerced_score sample_float_error_text ai_result = inr (PyFloat.of_Z 85))
    by (vm_compute; reflexivity).
  split; [exact H|].
  exact (proj1 (X9_classifier_invariants sample_float_error_text ai_result
                  sample_shortlist sample_features _ H)).
Defined.

(** X11 on a line without any bucket token. *)
Lemma X11_no_candidates_skips_matcher_witness :
  (sample_get_stock_data tt = [] \/ extract_bucket_features "hello world" = ∅)
  /\ process_single_rfp_item unit sample_get_stock_data sample_matcher
       sample_float_error_text tt "hello world"
     = (tt, inr (no_candidates_result (extract_bucket_features "hello world"))).
Proof.
  assert (H : sample_get_stock_data tt = [] \/ extract_bucket_features "hello world" = ∅)
    by (right; vm_compute; reflexivity).
  split; [exact H|].
  exact (X11_no_candidates_skips_matcher unit sample_get_stock_data
           sample_float_error_text sample_matcher tt "hello world" H).
Defined.

(** X12 on two matchers that differ on the empty list only. *)
Lemma X12_matcher_sees_valid_shortlists_witness :
  (forall w rfp_item cands, shortlist_ok cands ->
     sample_matcher w rfp_item cands = sample_matcher_strict w rfp_item cands)
  /\ process_single_rfp_item unit sample_get_stock_data sample_matcher
       sample_float_error_text tt sample_query
     = process_single_rfp_item unit sample_get_stock_data sample_matcher_strict
         sample_float_error_text tt sample_query.
Proof.
  assert (H : forall w rfp_item cands, shortlist_ok cands ->
                sample_matcher w rfp_item cands = sample_matcher_strict w rfp_item cands).
  { intros w rfp_item cands [Hne _]. destruct cands; [by destruct Hne|reflexivity]. }
  split; [exact H|].
  exact (X12_matcher_sees_valid_shortlists unit sample_get_stock_data
           sample_float_error_text sample_matcher sample_matcher_strict H tt sample_query).
Defined.

Lemma sample_best_listed :
  sample_best ∈ filter_stock_by_buckets sample_features sample_catalog 20.
Proof.
  unfold sample_best, sample_candidates.
  destruct (filter_stock_by_buckets sample_features sample_catalog 20) as [|c l] eqn:E.
  - vm_compute in E. discriminate E.
  - left.
Qed.

(** X23 on the sample catalog and the judgment with code P4. *)
Lemma X23_unique_codes_identify_the_match_witness :
  let ai_result := mk_judgment "P4" "85" in
  Validation.warnings (validate_stock_data sample_catalog) = Some []
  /\ sample_best ∈ filter_stock_by_buckets sample_features sample_catalog 20
  /\ StockItem.product_code (Candidate.item sample_best) = Some "P4"
  /\ judged_code ai_result = PyStr "P4"
  /\ coerced_score sample_float_error_text ai_result = inr (PyFloat.of_Z 85)
  /\ Result.matched_stock_details
       (_enhance_ai_result sample_float_error_text ai_result
          (filter_stock_by_buckets sample_features sample_catalog 20) sample_features)
     = Some (Some sample_best).
Proof.
  intros ai_result.
  assert (H1 : Validation.warnings (validate_stock_data sample_catalog) = Some [])
    by (vm_compute; reflexivity).
  assert (H2 : sample_best ∈ filter_stock_by_buckets sample_features sample_catalog 20)
    by exact sample_best_listed.
  assert (H3 : StockItem.product_code (Candidate.item sample_best) = Some "P4")
    by (vm_compute; reflexivity).
  assert (H4 : "P4" <> "") by discriminate.
  assert (H5 : judged_code ai_result = PyStr "P4") by reflexivity.
  assert (H6 : coerced_score sample_float_error_text ai_result = inr (PyFloat.of_Z 85))
    by (vm_compute; reflexivity).
  split; [exact H1|]. split; [exact H2|]. split; [exact H3|]. split; [exact H5|].
  split; [exact H6|].
  exact (proj1 (X23_unique_codes_identify_the_match sample_float_error_text sample_catalog
                  sample_features ai_result sample_best "P4" _ H1 H2 H3 H4 H5 H6)).
Defined.

(** The search for pipe in any case finds the four pipes of the sample
    catalog, and two of them under a limit of 2. *)
Example sample_search :
  StockItem.product_code <$> search_stock sample_catalog "Pipe" 10
  = [Some "P1"; Some "P3"; Some "P4"; Some "P5"]
  /\ StockItem.product_code <$> search_stock sample_catalog "PIPE" 2
     = [Some "P1"; Some "P3"].
Proof. repeat split; vm_compute; reflexivity. Qed.

(** X20 on the sample catalog and the query Pipe. *)
Lemma X20_search_stock_witness :
  isascii "Pipe" = true
  /\ search_stock sample_catalog "Pipe" 10
     = take 10 (filter (fun r => holds_query "Pipe" r = true) sample_catalog)
  /\ search_stock sample_catalog (upper "Pipe") 10 = search_stock sample_catalog "Pipe" 10
  /\ search_stock sample_catalog (lower "Pipe") 10 = search_stock sample_catalog "Pipe" 10.
Proof.
  assert (H : isascii "Pipe" = true) by (vm_compute; reflexivity).
  split; [exact H|].
  destruct (X20_search_stock sample_catalog "Pipe" 10 H) as (H1 & _ & H3 & H4).
  split; [exact H1|]. split; [exact H3|exact H4].
Defined.

(** The code p3 in lower case finds the record P3. *)
Example sample_code_lookup :
  StockItem.product_code <$> get_stock_by_code sample_catalog "p3" = Some (Some "P3")
  /\ get_stock_by_code sample_catalog "P9" = None.
Proof. repeat split; vm_compute; reflexivity. Qed.

(** X21 on the sample catalog and the code p3. *)
Lemma X21_get_stock_by_code_witness :
  isascii "p3" = true
  /\ Forall (fun r => isascii (get_str (StockItem.product_code r)) = true) sample_catalog
  /\ get_stock_by_code sample_catalog (upper "p3") = get_stock_by_code sample_catalog "p3"
  /\ get_stock_by_code sample_catalog (lower "p3") = get_stock_by_code sample_catalog "p3".
Proof.
  assert (H1 : isascii "p3" = true) by (vm_compute; reflexivity).
  assert (H2 : Forall (fun r => isascii (get_str (StockItem.product_code r)) = true)
                 sample_catalog) by (repeat constructor).
  split; [exact H1|]. split; [exact H2|].
  destruct (X21_get_stock_by_code sample_catalog "p3" H1 H2) as (_ & H3 & H4).
  split; [exact H3|exact H4].
Defined.
